(** * LLM-Chatbot frontend: a shallow embedding of the React contexts,
      the document views and the document-change event emitter.

    The TypeScript sources are embedded as pure functions over explicit
    component state.  Asynchronous handlers are written in a small
    state/exception/trace monad [Prog]; the answers of the HTTP backend,
    [uuidv4()] and [new Date()] are read from an environment [World]
    indexed by a logical clock, so every theorem quantifies over all
    possible backend behaviours. *)

From stdpp Require Import base strings pretty list gmap fin_maps.
From Stdlib Require Import Ascii ZArith QArith Qcanon Lia.

Local Open Scope string_scope.
Local Open Scope Z_scope.
Local Open Scope list_scope.
Local Open Scope stdpp_scope.

(** * Part I: the embedding *)

(** ** utils/eventEmitter.ts *)

(** [DOCUMENT_EVENTS] *)
Module DOCUMENT_EVENTS.
Definition UPLOADED : string := "document:uploaded".
Definition DELETED : string := "document:deleted".
Definition PROCESSED : string := "document:processed".
End DOCUMENT_EVENTS.

(** [class EventEmitter].  The private field [events] is an object used
    as a dictionary from event names to arrays of listeners; the finite
    map [events] holds the object's own keys.  Listeners are compared by
    reference ([l !== listener]); the type [L] of listener references
    carries a decidable equality.

    [on], [off] and [emit] below are the three methods on the own keys:
    what they do for an event name that is not the name of a member
    every object inherits ([toString], [constructor], ...), when no
    listener throws; [emit] returns the calls it performs, in the order
    in which it performs them.  [on_call], [off_call] and [emit_call]
    further down are the methods for every event name and every
    listener, with what they throw. *)
Module EventEmitter.
Section emitter.
Context {L : Type} `{EqDecision L}.
Context {Arg : Type}.

Record t := mk { events : gmap string (list L) }.

(** [new EventEmitter()]: [events = {}] *)
Definition new : t := mk ∅.

(** [on(event, listener)] *)
Definition on (event : string) (listener : L) (this : t) : t :=
  let events1 :=
    match events this !! event with
    | None => <[event := []]> (events this)
    | Some _ => events this
    end in
  mk (alter (λ ls, ls ++ [listener]) event events1).

(** [off(event, listener)] *)
Definition off (event : string) (listener : L) (this : t) : t :=
  match events this !! event with
  | None => this
  | Some ls => mk (<[event := filter (λ l, l ≠ listener) ls]> (events this))
  end.

(** [emit(event, ...args)]: the list of calls [listener(...args)]. *)
Definition emit (event : string) (args : list Arg) (this : t) : list (L * list Arg) :=
  match events this !! event with
  | None => []
  | Some ls => (λ listener, (listener, args)) <$> ls
  end.

(** The registrations of an event: the array stored under it, or
    nothing when the key is absent. *)
Definition registrations (event : string) (this : t) : list L :=
  default [] (events this !! event).

(** A history of subscription calls, and the emitter it produces. *)
Inductive Op := On (event : string) (listener : L) | Off (event : string) (listener : L).

Definition apply (this : t) (o : Op) : t :=
  match o with
  | On e l => on e l this
  | Off e l => off e l this
  end.

Definition run (ops : list Op) : t := foldl apply new ops.

(** The registrations of an event as the description of the emitter
    has them, read off the history with no dictionary: every [On]
    appends one registration, every [Off] drops all the registrations
    of its listener. *)
Definition registered_spec (event : string) (ops : list Op) : list L :=
  foldl (λ acc o,
           match o with
           | On e l => if decide (e = event) then acc ++ [l] else acc
           | Off e l => if decide (e = event) then filter (λ x, x ≠ l) acc else acc
           end) [] ops.

(** *** The methods for every event name

    [events] starts as the object literal [{}], whose prototype is
    [Object.prototype]: [this.events[event]] finds an own key first and
    then what the object inherits.  The inherited members are functions
    (and, for [__proto__], an object): all of them are truthy and none
    is an array. *)
Definition Object_prototype : list string :=
  [ "constructor"; "hasOwnProperty"; "isPrototypeOf"; "propertyIsEnumerable";
    "toLocaleString"; "toString"; "valueOf";
    "__defineGetter__"; "__defineSetter__"; "__lookupGetter__"; "__lookupSetter__";
    "__proto__" ].

(** [this.events[event]] *)
Inductive Property := Undefined | Array (listeners : list L) | Inherited.

Definition get (event : string) (this : t) : Property :=
  match events this !! event with
  | Some ls => Array ls
  | None => if bool_decide (event ∈ Object_prototype) then Inherited else Undefined
  end.

(** What a method throws: the [TypeError] of calling [push], [filter]
    or [forEach] on a value that has no such method, or what a listener
    threw. *)
Inductive Thrown := TypeError | Raised (listener : L).

(** [on(event, listener)]: for an inherited name the guard
    [!this.events[event]] is false, nothing is stored under the name,
    and [push] is called on the inherited member. *)
Definition on_call (event : string) (listener : L) (this : t) : Thrown + t :=
  match get event this with
  | Undefined => inr (mk (<[event := [listener]]> (events this)))
  | Array ls => inr (mk (<[event := ls ++ [listener]]> (events this)))
  | Inherited => inl TypeError
  end.

(** [off(event, listener)]: [filter] is called before the assignment, so
    a throw leaves [events] as it was. *)
Definition off_call (event : string) (listener : L) (this : t) : Thrown + t :=
  match get event this with
  | Undefined => inr this
  | Array ls => inr (mk (<[event := filter (λ l, l ≠ listener) ls]> (events this)))
  | Inherited => inl TypeError
  end.

(** [ls.forEach(listener => listener(...args))]: the calls performed and
    how the loop ends.  [raises] tells which listeners throw when
    called; the loop stops at the first of them. *)
Fixpoint forEach (raises : L → bool) (args : list Arg) (ls : list L)
    : list (L * list Arg) * (Thrown + unit) :=
  match ls with
  | [] => ([], inr ())
  | l :: ls' =>
      if raises l then ([(l, args)], inl (Raised l))
      else
        let rest := forEach raises args ls' in
        ((l, args) :: rest.1, rest.2)
  end.

(** [emit(event, ...args)] *)
Definition emit_call (raises : L → bool) (event : string) (args : list Arg) (this : t)
    : list (L * list Arg) * (Thrown + unit) :=
  match get event this with
  | Undefined => ([], inr ())
  | Array ls => forEach raises args ls
  | Inherited => ([], inl TypeError)
  end.

(** The event of a subscription call, and a history of such calls run
    through [on_call] and [off_call] until one throws. *)
Definition event_of (o : Op) : string :=
  match o with
  | On e _ => e
  | Off e _ => e
  end.

Definition apply_call (o : Op) (this : t) : Thrown + t :=
  match o with
  | On e l => on_call e l this
  | Off e l => off_call e l this
  end.

Fixpoint run_call (this : t) (ops : list Op) : Thrown + t :=
  match ops with
  | [] => inr this
  | o :: ops' =>
      match apply_call o this with
      | inl thrown => inl thrown
      | inr this' => run_call this' ops'
      end
  end.

End emitter.
Arguments t : clear implicits.
Arguments Op : clear implicits.
Arguments Property : clear implicits.
Arguments Thrown : clear implicits.
End EventEmitter.

(** ** Data exchanged with the backend *)

(** The value a rejected request carries (an [AxiosError]); only its
    message is kept. *)
Definition Err : Type := string.

(** A [Date]: its time value, in milliseconds since the epoch, or
    [Invalid Date].  A time value is read as the date it is the time
    value of. *)
Module JsDate.
Inductive t := valid (ms : Z) | Invalid.

(** [TimeClip] of a finite Number: no date lies more than 8.64e15 ms
    from the epoch, and a fraction is cut off towards zero. *)
Definition TimeClip (time : Q) : t :=
  if Z.abs (Qnum time) <=? 8640000000000000 * Z.pos (Qden time)
  then valid (Z.quot (Qnum time) (Z.pos (Qden time)))
  else Invalid.

(** What the JSON of an answer holds where a timestamp is expected: a
    number or a string. *)
Inductive Value := Number (time : Q) | Text (s : string).

(** [new Date(value)]; [parse] is [Date.parse], which the language
    leaves to the implementation for strings that are not in its date
    format. *)
Definition make (parse : string → t) (value : Value) : t :=
  match value with
  | Number time => TimeClip time
  | Text s => parse s
  end.
End JsDate.

Coercion JsDate.valid : Z >-> JsDate.t.

Module Message.
Inductive Role := user | assistant.
Record t := mk { id : string; role : Role; content : string; timestamp : JsDate.t }.
End Message.

Module ChatSession.
Record t := mk { id : string; title : string; created_at : Z }.
End ChatSession.

Module Document.
Record t := mk {
  id : string;
  filename : string;
  file_type : string;
  file_size : Z;
  processed : bool;
  created_at : string
}.
End Document.

(** A browser [File]: name, MIME type and size in bytes. *)
Module File.
Record t := mk { name : string; type : string; size : Z }.
End File.

Module SearchResult.
Record metadata_t := mk_metadata {
  file_path : string;
  file_type : string;
  chunk_id : Z;
  filename : option string
}.
Record t := mk { content : string; metadata : metadata_t; score : Qc }.
End SearchResult.

Module Stats.
Record t := mk {
  total_chunks : Z;
  total_documents : Z;
  collection_name : string;
  embedding_model : string
}.
End Stats.

(** The body of [POST /chat/message].  [use_knowledge_base] is the value
    of [selectedDocIds && selectedDocIds.length > 0], which is
    [undefined] ([None]) when the argument is absent; [session_id] is
    [currentSession?.id]. *)
Module ChatRequest.
Record t := mk {
  message : string;
  session_id : option string;
  use_knowledge_base : option bool;
  selected_documents : list string;
  stream : bool
}.
End ChatRequest.

Module ChatResponse.
Record t := mk { response : string; session_id : option string }.
End ChatResponse.

(** The body of [POST /knowledge/search]. *)
Module SearchRequest.
Record t := mk { query : string; n_results : Z; file_type : option string }.
End SearchRequest.

Inductive HttpRequest :=
| PostChatMessage (body : ChatRequest.t)
| GetDocumentsList (paging : option (Z * Z))
| PostDocumentsUpload (file : File.t)
| DeleteDocument (documentId : string)
| PostKnowledgeSearch (body : SearchRequest.t)
| GetKnowledgeStatistics.

(** ** Listeners, detached calls and observable effects *)

(** The closures registered on [documentEvents].  Each run of a
    [useEffect] creates a new closure; the number tells them apart. *)
Inductive Listener :=
| KnowledgeBase_handleDocumentChange (closure : nat)
| ChatInterface_handleDocumentChange (closure : nat).

#[global] Instance Listener_eq_dec : EqDecision Listener.
Proof. solve_decision. Defined.

(** Async functions that are called and not awaited. *)
Inductive Task :=
| ChatContext_fetchSessions
| DocumentContext_refreshDocuments
| KnowledgeBase_fetchDocuments
| KnowledgeBase_fetchStats
| ChatInterface_fetchDocuments.

Inductive ToastKind := ToastPlain | ToastSuccess | ToastError.

Inductive Effect :=
| Http (req : HttpRequest) (ok : bool)
| ConsoleError (label : string)
| Toast (kind : ToastKind) (text : string)
| Emitted (event : string)
| Called (listener : Listener)
| Spawned (task : Task).

(** Observations on a trace: the files for which an upload request was
    sent, those the backend accepted, the listeners called, and the
    document changes (uploads and deletions the backend accepted)
    together with the notifications emitted, in the order of the
    trace. *)
Definition upload_requests (tr : list Effect) : list File.t :=
  omap (λ e, match e with Http (PostDocumentsUpload f) _ => Some f | _ => None end) tr.

Definition uploads_done (tr : list Effect) : list File.t :=
  omap (λ e, match e with Http (PostDocumentsUpload f) true => Some f | _ => None end) tr.

Definition calls (tr : list Effect) : list Listener :=
  omap (λ e, match e with Called l => Some l | _ => None end) tr.

Inductive Mark :=
| Uploaded (file : File.t)
| Deleted (documentId : string)
| Notified (event : string).

Definition mark (e : Effect) : option Mark :=
  match e with
  | Http (PostDocumentsUpload f) true => Some (Uploaded f)
  | Http (DeleteDocument documentId) true => Some (Deleted documentId)
  | Emitted event => Some (Notified event)
  | _ => None
  end.

Definition marks (tr : list Effect) : list Mark := omap mark tr.

(** ** The environment *)

(** Everything the frontend does not decide: the answer of each
    endpoint, [uuidv4()], the wall clock and the user's answer to
    [confirm(...)], each as a function of the logical time of the
    call. *)
Record World := mkWorld {
  uuidv4 : nat → string;
  Date_now : nat → Z;
  confirm : nat → bool;
  chat_message : nat → ChatRequest.t → Err + ChatResponse.t;
  documents_list : nat → option (Z * Z) → Err + list Document.t;
  documents_upload : nat → File.t → Err + unit;
  documents_delete : nat → string → Err + unit;
  knowledge_search : nat → SearchRequest.t → Err + list SearchResult.t;
  knowledge_statistics : nat → Err + Stats.t
}.

(** Module-level state: the logical clock and the shared
    [documentEvents] emitter. *)
Record Runtime := mkRuntime {
  clock : nat;
  documentEvents : EventEmitter.t Listener
}.

Definition tick (rt : Runtime) : Runtime :=
  mkRuntime (S (clock rt)) (documentEvents rt).

(** ** The monad of handlers *)

(** A handler runs from a runtime and a component state to an outcome
    (a thrown value or a result), the runtime and state it leaves, and
    the effects it performed, oldest first.  State written before a
    throw stays written. *)
Record Result (St A : Type) := mkResult {
  outcome : Err + A;
  runtime : Runtime;
  state : St;
  trace : list Effect
}.
Arguments mkResult {St A}.
Arguments outcome {St A}.
Arguments runtime {St A}.
Arguments state {St A}.
Arguments trace {St A}.

Definition Prog (St A : Type) : Type := Runtime → St → Result St A.

Section prog.
Context {St : Type}.

Definition ret {A} (a : A) : Prog St A :=
  λ rt st, mkResult (inr a) rt st [].

(** The effects [tr] happened before the run [r]. *)
Definition prepend {A} (tr : list Effect) (r : Result St A) : Result St A :=
  mkResult (outcome r) (runtime r) (state r) (tr ++ trace r).

Definition bind {A B} (m : Prog St A) (k : A → Prog St B) : Prog St B :=
  λ rt st,
    let r := m rt st in
    match outcome r with
    | inl e => mkResult (inl e) (runtime r) (state r) (trace r)
    | inr a => prepend (trace r) (k a (runtime r) (state r))
    end.

#[global] Instance Prog_ret : MRet (Prog St) := @ret.
#[global] Instance Prog_bind : MBind (Prog St) := λ A B k m, bind m k.

(** [throw error] *)
Definition throw {A} (error : Err) : Prog St A :=
  λ rt st, mkResult (inl error) rt st [].

(** [try { body } catch (error) { handler error }] *)
Definition try_catch {A} (body : Prog St A) (handler : Err → Prog St A) : Prog St A :=
  λ rt st,
    let r := body rt st in
    match outcome r with
    | inl e => prepend (trace r) (handler e (runtime r) (state r))
    | inr a => r
    end.

(** [try { body } finally { cleanup }]: the cleanup always runs; the
    outcome is the body's unless the cleanup throws. *)
Definition finally {A} (body : Prog St A) (cleanup : Prog St unit) : Prog St A :=
  λ rt st,
    let r := body rt st in
    let r' := cleanup (runtime r) (state r) in
    mkResult (match outcome r' with inl e => inl e | inr _ => outcome r end)
             (runtime r') (state r') (trace r ++ trace r').

(** Reading the state captured by the handler, and a [useState] setter
    called with an updater function. *)
Definition gets {A} (f : St → A) : Prog St A :=
  λ rt st, mkResult (inr (f st)) rt st [].

Definition update (f : St → St) : Prog St unit :=
  λ rt st, mkResult (inr ()) rt (f st) [].

Definition perform (e : Effect) : Prog St unit :=
  λ rt st, mkResult (inr ()) rt st [e].

Definition succeeded {A} (a : Err + A) : bool :=
  match a with inl _ => false | inr _ => true end.

(** The response interceptor of services/api.ts: every rejection of a
    request made through [api] is logged before it reaches the
    caller. *)
Definition intercepted {A} (a : Err + A) : list Effect :=
  match a with
  | inl _ => [ConsoleError "API Error:"]
  | inr _ => []
  end.

(** An awaited request: the world answers at the current time. *)
Definition request {A} (req : HttpRequest) (answer : nat → Err + A) : Prog St A :=
  λ rt st,
    let a := answer (clock rt) in
    mkResult a (tick rt) st (Http req (succeeded a) :: intercepted a).

(** Reading a value from the world ([uuidv4()], [Date.now()],
    [confirm(...)]). *)
Definition ask {A} (oracle : nat → A) : Prog St A :=
  λ rt st, mkResult (inr (oracle (clock rt))) (tick rt) st [].

(** [documentEvents.on], [.off] and [.emit] on the shared emitter.  The
    handlers call them with the names of [DOCUMENT_EVENTS] only, which
    are own keys, and the listeners they register start async functions
    and call state setters, which do not throw: the calls are those of
    [EventEmitter.on], [off] and [emit]. *)
Definition documentEvents_on (event : string) (l : Listener) : Prog St unit :=
  λ rt st,
    mkResult (inr ()) (mkRuntime (clock rt) (EventEmitter.on event l (documentEvents rt))) st [].

Definition documentEvents_off (event : string) (l : Listener) : Prog St unit :=
  λ rt st,
    mkResult (inr ()) (mkRuntime (clock rt) (EventEmitter.off event l (documentEvents rt))) st [].

Definition documentEvents_emit (event : string) : Prog St unit :=
  λ rt st,
    mkResult (inr ()) rt st
      (Emitted event ::
       (Called ∘ fst <$> EventEmitter.emit (Arg:=unit) event [] (documentEvents rt))).

(** [for (const x of xs) { body x }] *)
Fixpoint for_of {A} (xs : list A) (body : A → Prog St unit) : Prog St unit :=
  match xs with
  | [] => ret ()
  | x :: xs' => bind (body x) (λ _, for_of xs' body)
  end.

End prog.

(** Running a handler of a context inside a component that uses the
    context: [get] and [set] select the context's part of the state. *)
Definition zoom {St St' A} (get : St → St') (set : St' → St → St)
    (m : Prog St' A) : Prog St A :=
  λ rt st,
    let r := m rt (get st) in
    mkResult (outcome r) (runtime r) (set (state r) st) (trace r).

Definition console_error {St} (label : string) : Prog St unit :=
  perform (ConsoleError label).
Definition toast {St} (text : string) : Prog St unit := perform (Toast ToastPlain text).
Definition toast_success {St} (text : string) : Prog St unit := perform (Toast ToastSuccess text).
Definition toast_error {St} (text : string) : Prog St unit := perform (Toast ToastError text).
Definition spawn {St} (task : Task) : Prog St unit := perform (Spawned task).

(** ** contexts/ChatContext.tsx *)

Module ChatContext.

Record State := mkState {
  messages : list Message.t;
  currentSession : option ChatSession.t;
  sessions : list ChatSession.t
}.

Definition setMessages (f : list Message.t → list Message.t) (st : State) : State :=
  mkState (f (messages st)) (currentSession st) (sessions st).

(** The object literal posted by [sendMessage]. *)
Definition chatRequest (content : string) (selectedDocIds : option (list string))
    (currentSession : option ChatSession.t) : ChatRequest.t :=
  {| ChatRequest.message := content;
     ChatRequest.session_id := ChatSession.id <$> currentSession;
     ChatRequest.use_knowledge_base :=
       (λ ids, bool_decide (0 < Z.of_nat (length ids))) <$> selectedDocIds;
     ChatRequest.selected_documents := default [] selectedDocIds;
     ChatRequest.stream := false |}.

(** Truthiness of [response.data.session_id]. *)
Definition truthy (s : option string) : bool :=
  match s with
  | Some s => negb (String.eqb s "")
  | None => false
  end.

Section handlers.
Context (w : World).

Definition sendMessage (content : string) (selectedDocIds : option (list string))
  : Prog State unit :=
  id1 ← ask (uuidv4 w);
  now1 ← ask (Date_now w);
  let userMessage := Message.mk id1 Message.user content (JsDate.valid now1) in
  update (setMessages (λ prev, prev ++ [userMessage]));;
  try_catch
    (session ← gets currentSession;
     let body := chatRequest content selectedDocIds session in
     response ← request (PostChatMessage body) (λ t, chat_message w t body);
     id2 ← ask (uuidv4 w);
     now2 ← ask (Date_now w);
     let assistantMessage :=
       Message.mk id2 Message.assistant (ChatResponse.response response)
                  (JsDate.valid now2) in
     update (setMessages (λ prev, prev ++ [assistantMessage]));;
     if negb (bool_decide (is_Some session)) && truthy (ChatResponse.session_id response)
     then spawn ChatContext_fetchSessions
     else ret ())
    (λ error, console_error "Failed to send message:";; throw error).

Definition clearMessages : Prog State unit :=
  update (setMessages (λ _, [])).

End handlers.
End ChatContext.

(** [chatApi.sendMessage] of services/api.ts, which [ChatContext] does
    not call: the flag is a parameter that defaults to [true] and no
    document list is sent. *)
Module chatApi.
Definition sendMessage (message : string) (sessionId : option string)
    (useKnowledgeBase : option bool) : ChatRequest.t :=
  {| ChatRequest.message := message;
     ChatRequest.session_id := sessionId;
     ChatRequest.use_knowledge_base := Some (default true useKnowledgeBase);
     ChatRequest.selected_documents := [];
     ChatRequest.stream := false |}.
End chatApi.

(** ** contexts/DocumentContext.tsx *)

Module DocumentContext.

Record State := mkState { documents : list Document.t }.

Definition setDocuments (f : list Document.t → list Document.t) (st : State) : State :=
  mkState (f (documents st)).

Section handlers.
Context (w : World).

Definition refreshDocuments : Prog State unit :=
  try_catch
    (response ← request (GetDocumentsList None) (λ t, documents_list w t None);
     update (setDocuments (λ _, response)))
    (λ error, console_error "Failed to fetch documents:").

Definition uploadDocument (file : File.t) : Prog State unit :=
  try_catch
    (request (PostDocumentsUpload file) (λ t, documents_upload w t file);;
     refreshDocuments)
    (λ error, console_error "Failed to upload document:";; throw error).

Definition deleteDocument (documentId : string) : Prog State unit :=
  try_catch
    (request (DeleteDocument documentId) (λ t, documents_delete w t documentId);;
     update (setDocuments (λ prev, filter (λ doc, Document.id doc ≠ documentId) prev)))
    (λ error, console_error "Failed to delete document:";; throw error).

End handlers.
End DocumentContext.

(** ** Strings *)

(** JavaScript strings are kept as their UTF-8 bytes. *)
Module JsString.

Definition lower_ascii (c : ascii) : ascii :=
  let n := nat_of_ascii c in
  if (65 <=? n)%nat && (n <=? 90)%nat then ascii_of_nat (n + 32) else c.

(** [s.toLowerCase()], on the ASCII letters. *)
Fixpoint toLowerCase (s : string) : string :=
  match s with
  | EmptyString => EmptyString
  | String c s' => String (lower_ascii c) (toLowerCase s')
  end.

(** [s.endsWith(suffix)] *)
Definition endsWith (s suffix : string) : bool :=
  String.prefix (String.rev suffix) (String.rev s).

(** The three-byte encodings of the white space and line terminators
    that [trim] removes: U+1680, U+2000..U+200A, U+2028, U+2029, U+202F,
    U+205F, U+3000 and U+FEFF. *)
Definition space3 (a b c : nat) : bool :=
  match a, b with
  | 225%nat, 154%nat => (c =? 128)%nat
  | 226%nat, 128%nat =>
      ((128 <=? c)%nat && (c <=? 138)%nat) || (c =? 168)%nat || (c =? 169)%nat
      || (c =? 175)%nat
  | 226%nat, 129%nat => (c =? 159)%nat
  | 227%nat, 128%nat => (c =? 128)%nat
  | 239%nat, 187%nat => (c =? 191)%nat
  | _, _ => false
  end.

(** [!s.trim()]: the string is empty once white space is trimmed, that
    is, it consists of white space only. *)
Fixpoint blank (s : string) : bool :=
  match s with
  | EmptyString => true
  | String c1 s1 =>
      if Ascii.is_space c1 then blank s1
      else
        match s1 with
        | EmptyString => false
        | String c2 s2 =>
            if (nat_of_ascii c1 =? 194)%nat && (nat_of_ascii c2 =? 160)%nat
            then blank s2
            else
              match s2 with
              | EmptyString => false
              | String c3 s3 =>
                  if space3 (nat_of_ascii c1) (nat_of_ascii c2) (nat_of_ascii c3)
                  then blank s3
                  else false
              end
        end
  end.

End JsString.

(** ** components/DocumentUpload.tsx *)

(** Modelled from the spec: the check that the drop zone applies to the
    files offered to it.  The drop zone is the react-dropzone hook,
    whose code is not part of the sources; section 6 of the spec has
    oversize and disallowed-type uploads rejected before they are
    ingested, and the library documents its options [accept] and
    [maxSize] so: a file is accepted when its MIME type is a key of
    [accept] or its name ends with one of the listed extensions
    (compared without case), and its size is at most [maxSize]; only
    accepted files are handed to [onDrop], the others are reported as
    rejections. *)
Module Dropzone.

(** The options of the hook that [DocumentUpload] sets. *)
Record Options := mkOptions {
  accept : list (string * list string);
  maxSize : Z
}.

(** Modelled from the spec: the type check of the drop zone, which is
    library code. *)
Definition fileAccepted (file : File.t) (accept : list (string * list string)) : bool :=
  existsb
    (λ entry,
       String.eqb (JsString.toLowerCase (File.type file)) (JsString.toLowerCase (fst entry))
       || existsb
            (λ ext, JsString.endsWith (JsString.toLowerCase (File.name file))
                                      (JsString.toLowerCase ext))
            (snd entry))
    accept.

(** Modelled from the spec: the size check of the drop zone. *)
Definition fileMatchSize (file : File.t) (maxSize : Z) : bool :=
  negb (maxSize <? File.size file).

(** Modelled from the spec: a file passes when both checks pass. *)
Definition accepted (options : Options) (file : File.t) : bool :=
  fileAccepted file (accept options) && fileMatchSize file (maxSize options).

(** Modelled from the spec: the files the drop zone hands to
    [onDrop]. *)
Definition acceptedFiles (options : Options) (files : list File.t) : list File.t :=
  List.filter (accepted options) files.

(** Modelled from the spec: the files the drop zone rejects. *)
Definition fileRejections (options : Options) (files : list File.t) : list File.t :=
  List.filter (λ file, negb (accepted options file)) files.

End Dropzone.

Module DocumentUpload.

Record State := mkState {
  uploadingFiles : gset string;
  context : DocumentContext.State
}.

Definition setUploadingFiles (f : gset string → gset string) (st : State) : State :=
  mkState (f (uploadingFiles st)) (context st).

(** [useDocuments()]: the handlers of the context act on its state. *)
Definition useDocuments {A} (m : Prog DocumentContext.State A) : Prog State A :=
  zoom context (λ c st, mkState (uploadingFiles st) c) m.

(** The options passed to [useDropzone]. *)
Definition dropzoneOptions : Dropzone.Options :=
  {| Dropzone.accept :=
       [ ("application/pdf", [".pdf"]);
         ("application/vnd.openxmlformats-officedocument.wordprocessingml.document", [".docx"]);
         ("text/plain", [".txt"]);
         ("text/markdown", [".md"]);
         ("image/jpeg", [".jpg"; ".jpeg"]);
         ("image/png", [".png"]) ];
     Dropzone.maxSize := 10485760 |}.

Section handlers.
Context (w : World).

(** The body of the loop of [onDrop]. *)
Definition uploadOne (file : File.t) : Prog State unit :=
  now ← ask (Date_now w);
  let fileId := File.name file +:+ "-" +:+ pretty now in
  update (setUploadingFiles (λ prev, prev ∪ {[fileId]}));;
  finally
    (try_catch
       (useDocuments (DocumentContext.uploadDocument w file);;
        toast_success (File.name file +:+ " uploaded successfully");;
        documentEvents_emit DOCUMENT_EVENTS.UPLOADED)
       (λ error,
          toast_error ("Failed to upload " +:+ File.name file);;
          console_error "Upload error:"))
    (update (setUploadingFiles (λ prev, prev ∖ {[fileId]}))).

Definition onDrop (acceptedFiles : list File.t) : Prog State unit :=
  for_of acceptedFiles uploadOne;;
  spawn DocumentContext_refreshDocuments.

(** Files offered to the drop zone: it calls [onDrop] with the accepted
    ones. *)
Definition drop (files : list File.t) : Prog State unit :=
  onDrop (Dropzone.acceptedFiles dropzoneOptions files).

Definition handleDelete (documentId : string) : Prog State unit :=
  confirmed ← ask (confirm w);
  if confirmed : bool then
    try_catch
      (useDocuments (DocumentContext.deleteDocument w documentId);;
       toast_success "Document deleted successfully";;
       spawn DocumentContext_refreshDocuments;;
       documentEvents_emit DOCUMENT_EVENTS.DELETED)
      (λ error,
         toast_error "Failed to delete document";;
         console_error "Delete error:")
  else ret ().

End handlers.
End DocumentUpload.

(** ** components/KnowledgeBase.tsx *)

Module KnowledgeBase.

Record State := mkState {
  searchQuery : string;
  searchResults : list SearchResult.t;
  documents : list Document.t;
  isSearching : bool;
  isLoadingDocs : bool;
  stats : option Stats.t;
  selectedFileType : string;
  searchInDoc : string;
  showFilters : bool
}.

Definition initial : State :=
  mkState "" [] [] false false None "all" "" false.

Definition setSearchResults (v : list SearchResult.t) (st : State) : State :=
  mkState (searchQuery st) v (documents st) (isSearching st) (isLoadingDocs st)
          (stats st) (selectedFileType st) (searchInDoc st) (showFilters st).

Definition setDocuments (v : list Document.t) (st : State) : State :=
  mkState (searchQuery st) (searchResults st) v (isSearching st) (isLoadingDocs st)
          (stats st) (selectedFileType st) (searchInDoc st) (showFilters st).

Definition setIsSearching (v : bool) (st : State) : State :=
  mkState (searchQuery st) (searchResults st) (documents st) v (isLoadingDocs st)
          (stats st) (selectedFileType st) (searchInDoc st) (showFilters st).

Definition setIsLoadingDocs (v : bool) (st : State) : State :=
  mkState (searchQuery st) (searchResults st) (documents st) (isSearching st) v
          (stats st) (selectedFileType st) (searchInDoc st) (showFilters st).

Definition setStats (v : option Stats.t) (st : State) : State :=
  mkState (searchQuery st) (searchResults st) (documents st) (isSearching st)
          (isLoadingDocs st) v (selectedFileType st) (searchInDoc st) (showFilters st).

(** The arguments [handleSearch] gives to [knowledgeApi.search]. *)
Definition searchRequest (st : State) : SearchRequest.t :=
  {| SearchRequest.query := searchQuery st;
     SearchRequest.n_results := 10;
     SearchRequest.file_type :=
       if decide (selectedFileType st ≠ "all") then Some (selectedFileType st) else None |}.

Section handlers.
Context (w : World).

Definition fetchStats : Prog State unit :=
  try_catch
    (response ← request GetKnowledgeStatistics (knowledge_statistics w);
     update (setStats (Some response)))
    (λ error, console_error "Failed to fetch stats:").

Definition fetchDocuments : Prog State unit :=
  update (setIsLoadingDocs true);;
  finally
    (try_catch
       (response ← request (GetDocumentsList (Some (0, 100)))
                           (λ t, documents_list w t (Some (0, 100)));
        update (setDocuments response))
       (λ error,
          console_error "Failed to fetch documents:";;
          toast_error "Failed to load documents"))
    (update (setIsLoadingDocs false)).

Definition handleSearch : Prog State unit :=
  query ← gets searchQuery;
  if JsString.blank query then ret ()
  else
    update (setIsSearching true);;
    finally
      (try_catch
         (body ← gets searchRequest;
          results ← request (PostKnowledgeSearch body) (λ t, knowledge_search w t body);
          update (setSearchResults results);;
          if decide (length results = 0%nat)
          then toast "No results found. Try a different query."
          else ret ())
         (λ error,
            toast_error "Search failed. Please try again.";;
            console_error "Search error:"))
      (update (setIsSearching false)).

(** [fetchDocuments()] called and not awaited: the call runs to its
    first [await], which comes after [setIsLoadingDocs(true)], and the
    rest of it is detached.  [fetchStats()] writes nothing before its
    first [await]. *)
Definition fetchDocuments_detached : Prog State unit :=
  update (setIsLoadingDocs true);;
  spawn KnowledgeBase_fetchDocuments.

Definition deleteDocument (documentId : string) : Prog State unit :=
  confirmed ← ask (confirm w);
  if confirmed : bool then
    try_catch
      (request (DeleteDocument documentId) (λ t, documents_delete w t documentId);;
       toast_success "Document deleted successfully";;
       fetchDocuments_detached;;
       spawn KnowledgeBase_fetchStats;;
       documentEvents_emit DOCUMENT_EVENTS.DELETED)
      (λ error,
         toast_error "Failed to delete document";;
         console_error "Delete error:")
  else ret ().

(** The listener created by the mount effect. *)
Definition handleDocumentChange : Prog State unit :=
  fetchDocuments_detached;;
  spawn KnowledgeBase_fetchStats.

(** The mount effect and its cleanup; [closure] names the listener
    created by this run of the effect. *)
Definition mount (closure : nat) : Prog State unit :=
  spawn KnowledgeBase_fetchStats;;
  fetchDocuments_detached;;
  documentEvents_on DOCUMENT_EVENTS.UPLOADED (KnowledgeBase_handleDocumentChange closure);;
  documentEvents_on DOCUMENT_EVENTS.DELETED (KnowledgeBase_handleDocumentChange closure).

Definition unmount (closure : nat) : Prog State unit :=
  documentEvents_off DOCUMENT_EVENTS.UPLOADED (KnowledgeBase_handleDocumentChange closure);;
  documentEvents_off DOCUMENT_EVENTS.DELETED (KnowledgeBase_handleDocumentChange closure).

(** What a detached call of this component runs, and what a call of
    one of its listeners runs. *)
Definition start (task : Task) : Prog State unit :=
  match task with
  | KnowledgeBase_fetchDocuments => fetchDocuments
  | KnowledgeBase_fetchStats => fetchStats
  | _ => ret ()
  end.

Definition call (listener : Listener) : Prog State unit :=
  match listener with
  | KnowledgeBase_handleDocumentChange _ => handleDocumentChange
  | _ => ret ()
  end.

End handlers.
End KnowledgeBase.

(** ** components/ChatInterface.tsx *)

Module ChatInterface.

Record State := mkState {
  input : string;
  isLoading : bool;
  documents : list Document.t;
  selectedDocs : list string;
  showDocDropdown : bool
}.

Definition initial : State := mkState "" false [] [] false.

Definition setDocuments (v : list Document.t) (st : State) : State :=
  mkState (input st) (isLoading st) v (selectedDocs st) (showDocDropdown st).

Definition setSelectedDocs (f : list string → list string) (st : State) : State :=
  mkState (input st) (isLoading st) (documents st) (f (selectedDocs st)) (showDocDropdown st).

Section handlers.
Context (w : World).

Definition fetchDocuments : Prog State unit :=
  try_catch
    (response ← request (GetDocumentsList (Some (0, 100)))
                        (λ t, documents_list w t (Some (0, 100)));
     update (setDocuments (filter (λ doc, Document.processed doc = true) response)))
    (λ error, console_error "Failed to fetch documents:").

Definition toggleDocSelection (docId : string) : Prog State unit :=
  update (setSelectedDocs (λ prev,
    if decide (docId ∈ prev)
    then filter (λ id, id ≠ docId) prev
    else prev ++ [docId])).

Definition removeSelectedDoc (docId : string) : Prog State unit :=
  update (setSelectedDocs (λ prev, filter (λ id, id ≠ docId) prev)).

(** The listener created by the subscription effect; it closes over the
    [documents] of the render that created it. *)
Definition handleDocumentChange (documents : list Document.t) : Prog State unit :=
  spawn ChatInterface_fetchDocuments;;
  update (setSelectedDocs (λ prev,
    filter (λ id, Exists (λ doc, Document.id doc = id) documents) prev)).

End handlers.

(** What the user can do to the document list and the selection: the
    list is refetched (on mount and on each document event), and a
    check box of the drop-down, one per entry of [documents], is
    toggled, or a selected document is removed. *)
Inductive step (w : World) : State → State → Prop :=
| step_fetch rt st :
    step w st (state (fetchDocuments w rt st))
| step_toggle rt st doc :
    doc ∈ documents st →
    step w st (state (toggleDocSelection (Document.id doc) rt st))
| step_remove rt st docId :
    step w st (state (removeSelectedDoc docId rt st))
| step_change rt st docs :
    step w st (state (handleDocumentChange docs rt st)).

Inductive reachable (w : World) : State → Prop :=
| reachable_initial : reachable w initial
| reachable_step st st' : reachable w st → step w st st' → reachable w st'.

End ChatInterface.

(** ** The ingestion pipeline (backend) *)

Module Ingestion.

(** Modelled from the spec: the processing states of a document in the
    pipeline of section 4.4, which is backend code and not part of the
    sources. *)
Inductive Status :=
| pending | extracting | chunking | embedding | indexing | processed | failed.

(** Modelled from the spec: the errors of sections 4.4 and 7 that end
    an ingestion, and the cancellation of section 5. *)
Inductive Failure :=
| ExtractionFailed (cause : string)
| EmbeddingUnavailable
| IndexWriteFailed
| DimensionMismatch
| Cancelled.

(** Modelled from the spec: the Fragment of section 3 (its document,
    its sequence index, its text and its character span). *)
Record Fragment := mkFragment {
  document_id : string;
  seq : nat;
  text : string;
  span : nat * nat
}.

(** Modelled from the spec: an entry of the index, a vector with the
    fragment it was computed from. *)
Record Entry := mkEntry { vector : list Qc; metadata : Fragment }.

(** Modelled from the spec: the VectorIndex of section 4.3, which is
    backend code and not part of the sources.  Entries are keyed by
    fragment identifier (the document and the sequence index of the
    fragment in it); [upsert] inserts or replaces one entry and rejects
    a vector of the wrong dimension; [delete] removes every entry that
    belongs to a document and succeeds when there is none; [clear]
    removes all entries. *)
Record VectorIndex := mkIndex {
  dimension : nat;
  entries : gmap (string * nat) Entry
}.

(** Modelled from the spec: [upsert(fragment_id, vector, metadata)]. *)
Definition upsert (fragment_id : string * nat) (v : list Qc) (meta : Fragment)
    (ix : VectorIndex) : Failure + VectorIndex :=
  if decide (length v = dimension ix)
  then inr (mkIndex (dimension ix) (<[fragment_id := mkEntry v meta]> (entries ix)))
  else inl DimensionMismatch.

(** Modelled from the spec: [delete(document_id)]. *)
Definition delete (doc : string) (ix : VectorIndex) : VectorIndex :=
  mkIndex (dimension ix)
          (filter (λ kv, document_id (metadata (snd kv)) ≠ doc) (entries ix)).

(** Modelled from the spec: [clear()]. *)
Definition clear (ix : VectorIndex) : VectorIndex :=
  mkIndex (dimension ix) ∅.

(** Modelled from the spec: the entries of the index that belong to a
    document. *)
Definition entries_of (doc : string) (ix : VectorIndex) : gmap (string * nat) Entry :=
  filter (λ kv, document_id (metadata (snd kv)) = doc) (entries ix).

(** Modelled from the spec: the external collaborators of the pipeline
    (sections 1, 4.2 and 5): the text extractor, the splitting policy
    of the chunker, the embedding provider (asked
    again, a bounded number of times, when it is unavailable), the
    storage under the index, whose writes can fail, and the client, who
    can cancel the ingestion in any state. *)
Record Capabilities := mkCapabilities {
  extract : string → string + string;
  split : string → list (string * (nat * nat));
  embed : nat → list string → option (list (list Qc));
  max_attempts : nat;
  write_ok : string * nat → bool;
  cancelled : Status → bool
}.

(** Modelled from the spec: [Chunker.chunk(text, document_id)] of
    section 4.1, as far as the pipeline depends on it: the fragments of
    a document carry its identity and their sequence index. *)
Definition chunk (caps : Capabilities) (txt : string) (doc : string) : list Fragment :=
  imap (λ i piece, mkFragment doc i (fst piece) (snd piece)) (split caps txt).

(** Modelled from the spec: the pipeline's record of one document
    being ingested, with the index it writes to. *)
Record Job := mkJob {
  status : Status;
  document : string;
  raw : string;
  extracted : string;
  fragments : list Fragment;
  vectors : list (list Qc);
  index : VectorIndex;
  error : option Failure
}.

(** Modelled from the spec: ingesting a document (section 6); the job
    starts [pending]. *)
Definition submit (doc raw : string) (ix : VectorIndex) : Job :=
  mkJob pending doc raw "" [] [] ix None.

(** Modelled from the spec: the transition to [failed] of section 4.4.
    What was written to the index for the document is deleted. *)
Definition fail (f : Failure) (j : Job) : Job :=
  mkJob failed (document j) (raw j) (extracted j) (fragments j) (vectors j)
        (delete (document j) (index j)) (Some f).

(** Modelled from the spec: the bounded retry of section 4.2; the
    embedding stage asks the provider up to [n] more times. *)
Fixpoint embed_retry (caps : Capabilities) (attempt n : nat) (texts : list string)
  : option (list (list Qc)) :=
  match n with
  | O => None
  | S n' =>
      match embed caps attempt texts with
      | Some vs => Some vs
      | None => embed_retry caps (S attempt) n' texts
      end
  end.

(** Modelled from the spec: the indexing stage of section 4.4.  It
    writes the fragments in order and stops at the first write that
    fails; the index it returns holds the writes made so far. *)
Fixpoint write_all (caps : Capabilities) (items : list (Fragment * list Qc))
    (ix : VectorIndex) : option Failure * VectorIndex :=
  match items with
  | [] => (None, ix)
  | (frag, v) :: rest =>
      let fragment_id := (document_id frag, seq frag) in
      if write_ok caps fragment_id then
        match upsert fragment_id v frag ix with
        | inl f => (Some f, ix)
        | inr ix' => write_all caps rest ix'
        end
      else (Some IndexWriteFailed, ix)
  end.

(** Modelled from the spec: the state machine of section 4.4,
    [pending → extracting → chunking → embedding → indexing →
    processed], or [failed] from any state; [processed] and [failed] are
    terminal.  Leaving [pending] deletes what an earlier ingestion of
    the same document left in the index. *)
Definition stage (caps : Capabilities) (j : Job) : Job :=
  match status j with
  | pending =>
      mkJob extracting (document j) (raw j) (extracted j) (fragments j) (vectors j)
            (delete (document j) (index j)) (error j)
  | extracting =>
      match extract caps (raw j) with
      | inl cause => fail (ExtractionFailed cause) j
      | inr txt =>
          mkJob chunking (document j) (raw j) txt (fragments j) (vectors j)
                (index j) (error j)
      end
  | chunking =>
      mkJob embedding (document j) (raw j) (extracted j)
            (chunk caps (extracted j) (document j)) (vectors j) (index j) (error j)
  | embedding =>
      match embed_retry caps 0 (max_attempts caps) (text <$> fragments j) with
      | None => fail EmbeddingUnavailable j
      | Some vs =>
          mkJob indexing (document j) (raw j) (extracted j) (fragments j) vs
                (index j) (error j)
      end
  | indexing =>
      match write_all caps (zip (fragments j) (vectors j)) (index j) with
      | (Some f, ix) =>
          fail f (mkJob indexing (document j) (raw j) (extracted j) (fragments j)
                        (vectors j) ix (error j))
      | (None, ix) =>
          mkJob processed (document j) (raw j) (extracted j) (fragments j)
                (vectors j) ix (error j)
      end
  | processed => j
  | failed => j
  end.

(** Modelled from the spec: [processed] and [failed] are terminal. *)
Definition terminal (s : Status) : bool :=
  match s with
  | processed | failed => true
  | _ => false
  end.

(** Modelled from the spec: one transition; a terminal job stays as it
    is, a cancelled one fails (section 5), any other runs its stage. *)
Definition step (caps : Capabilities) (j : Job) : Job :=
  if terminal (status j) then j
  else if cancelled caps (status j) then fail Cancelled j
  else stage caps j.

(** Modelled from the spec: the job after [n] transitions. *)
Definition steps (caps : Capabilities) (n : nat) (j : Job) : Job :=
  Nat.iter n (step caps) j.

(** Modelled from the spec: the whole ingestion of a document, five
    transitions from [pending]. *)
Definition ingest (caps : Capabilities) (doc raw : string) (ix : VectorIndex) : Job :=
  steps caps 5 (submit doc raw ix).

End Ingestion.

(** ** Sample runs *)

(** Concrete environments and states on which the handlers are run in
    the examples below. *)
Module Scenario.

Definition doc (id : string) (processed : bool) : Document.t :=
  Document.mk id (id +:+ ".pdf") "pdf" 2048 processed "2024-05-01T10:00:00".

(** A backend on which every request succeeds. *)
Definition answering : World :=
  mkWorld (λ t, "uuid-" +:+ pretty t) (λ t, 1700000000000 + Z.of_nat t) (λ _, true)
    (λ _ _, inr (ChatResponse.mk "Hello!" (Some "s-1")))
    (λ _ _, inr [doc "d1" true; doc "d2" false; doc "d3" true])
    (λ _ _, inr ()) (λ _ _, inr ())
    (λ _ _, inr [])
    (λ _, inr (Stats.mk 12 3 "documents" "all-MiniLM-L6-v2")).

(** A backend on which every request times out. *)
Definition unavailable : World :=
  mkWorld (λ t, "uuid-" +:+ pretty t) (λ t, 1700000000000 + Z.of_nat t) (λ _, true)
    (λ _ _, inl "timeout of 30000ms exceeded")
    (λ _ _, inl "timeout of 30000ms exceeded")
    (λ _ _, inl "timeout of 30000ms exceeded")
    (λ _ _, inl "timeout of 30000ms exceeded")
    (λ _ _, inl "timeout of 30000ms exceeded")
    (λ _, inl "timeout of 30000ms exceeded").

(** The runtime when the page loads. *)
Definition boot : Runtime := mkRuntime 0 EventEmitter.new.

(** The runtime while the knowledge-base view is mounted. *)
Definition knowledge_view : Runtime :=
  runtime (KnowledgeBase.mount 1 boot KnowledgeBase.initial).

(** The knowledge-base view with a query typed in. *)
Definition searching : KnowledgeBase.State :=
  KnowledgeBase.mkState "quarterly budget" [] [] false false None "all" "" false.

(** The document view with four entries listed, one document twice. *)
Definition listing : DocumentUpload.State :=
  DocumentUpload.mkState ∅
    (DocumentContext.mkState [doc "d1" true; doc "d2" false; doc "d1" true; doc "d3" true]).

Definition report_pdf : File.t := File.mk "report.pdf" "application/pdf" 10485760.
Definition huge_pdf : File.t := File.mk "scan.pdf" "application/pdf" 10485761.
Definition setup_exe : File.t := File.mk "setup.exe" "application/x-msdownload" 4096.
Definition notes_md : File.t := File.mk "NOTES.MD" "" 120.

(** An ingestion whose second index write fails, into an index that
    holds a fragment of another document. *)
Definition second_write_fails : Ingestion.Capabilities :=
  Ingestion.mkCapabilities
    (λ raw, inr raw)
    (λ _, [("alpha", (0, 5)%nat); ("beta", (6, 10)%nat)])
    (λ _ texts, Some ((λ _, [Q2Qc 0; Q2Qc 1]) <$> texts))
    3
    (λ fragment_id, bool_decide (snd fragment_id = 0%nat))
    (λ _, false).

Definition shelf : Ingestion.VectorIndex :=
  Ingestion.mkIndex 2
    {[ ("other", 0%nat) :=
         Ingestion.mkEntry [Q2Qc 1; Q2Qc 0]
           (Ingestion.mkFragment "other" 0 "zeta" (0, 4)%nat) ]}.

(** A session with one finished turn. *)
Definition one_turn : ChatContext.State :=
  ChatContext.mkState
    [ Message.mk "m-0" Message.user "hi" 1699999999000;
      Message.mk "m-1" Message.assistant "hey" 1699999999500 ]
    None [].

End Scenario.

(** * Part I, continued: the rest of the contexts and of the views *)

(** ** The endpoints the handlers above do not use *)

(** A message as [GET /chat/sessions/:id/messages] returns it. *)
Module ServerMessage.
Record t := mk { role : Message.Role; content : string; timestamp : JsDate.Value }.
End ServerMessage.

(** The answers of [GET /chat/sessions], of
    [GET /chat/sessions/:id/messages], of [POST /chat/sessions] and of
    [DELETE /knowledge/clear], each as a function of the logical time of
    the call. *)
Record Backend := mkBackend {
  chat_sessions : nat → Err + list ChatSession.t;
  session_messages : nat → string → Err + list ServerMessage.t;
  create_session : nat → option string → Err + ChatSession.t;
  knowledge_clear : nat → Err + unit
}.

(** An awaited request to one of these endpoints: the backend answers
    at the current time.  The request itself is not recorded in the
    trace; the log of the response interceptor is. *)
Definition call {St A} (answer : nat → Err + A) : Prog St A :=
  λ rt st, mkResult (answer (clock rt)) (tick rt) st (intercepted (answer (clock rt))).

(** ** contexts/ChatContext.tsx: sessions *)

Module ChatSessions.

Definition setSessions (f : list ChatSession.t → list ChatSession.t)
    (st : ChatContext.State) : ChatContext.State :=
  ChatContext.mkState (ChatContext.messages st) (ChatContext.currentSession st)
                      (f (ChatContext.sessions st)).

Definition setCurrentSession (v : option ChatSession.t)
    (st : ChatContext.State) : ChatContext.State :=
  ChatContext.mkState (ChatContext.messages st) v (ChatContext.sessions st).

Section handlers.
Context (w : World) (b : Backend) (Date_parse : string → JsDate.t).

(** [msgs.map((msg) => ({ id: uuidv4(), role: msg.role, content:
    msg.content, timestamp: new Date(msg.timestamp) }))] *)
Fixpoint stamp (msgs : list ServerMessage.t) : Prog ChatContext.State (list Message.t) :=
  match msgs with
  | [] => ret []
  | msg :: rest =>
      bind (ask (uuidv4 w)) (λ id,
      bind (stamp rest) (λ stamped,
      ret (Message.mk id (ServerMessage.role msg) (ServerMessage.content msg)
                      (JsDate.make Date_parse (ServerMessage.timestamp msg)) :: stamped)))
  end.

(** The message that is made of the [i]-th message of an answer when
    the first [uuidv4()] is drawn at time [t]. *)
Definition stamped (t : nat) (i : nat) (msg : ServerMessage.t) : Message.t :=
  Message.mk (uuidv4 w (t + i)) (ServerMessage.role msg) (ServerMessage.content msg)
             (JsDate.make Date_parse (ServerMessage.timestamp msg)).

Definition loadSessionMessages (sessionId : string) : Prog ChatContext.State unit :=
  try_catch
    (response ← call (λ t, session_messages b t sessionId);
     stamped ← stamp response;
     update (ChatContext.setMessages (λ _, stamped)))
    (λ error, console_error "Failed to load messages:").

(** [fetchSessions].  [currentSession] is the constant of the render
    in which this [fetchSessions] was made: the test [!currentSession]
    reads what the closure captured, not the state at the time of the
    answer.  The call [loadSessionMessages(id)] it makes is not awaited;
    the result is the session whose messages it starts to load, if
    any. *)
Definition fetchSessions (currentSession : option ChatSession.t)
    : Prog ChatContext.State (option string) :=
  try_catch
    (response ← call (chat_sessions b);
     update (setSessions (λ _, response));;
     match response, currentSession with
     | first :: _, None =>
         update (setCurrentSession (Some first));;
         ret (Some (ChatSession.id first))
     | _, _ => ret None
     end)
    (λ error, console_error "Failed to fetch sessions:";; ret None).

(** The two calls of [fetchSessions]: the mount effect of the provider,
    which runs in the first render, where [currentSession] is [null];
    and [sendMessage], behind its own test [!currentSession]. *)
Definition fetchSessions_called : Prog ChatContext.State (option string) :=
  fetchSessions None.

Definition createSession (title : option string) : Prog ChatContext.State unit :=
  try_catch
    (newSession ← call (λ t, create_session b t title);
     update (setSessions (λ prev, newSession :: prev));;
     update (setCurrentSession (Some newSession));;
     update (ChatContext.setMessages (λ _, [])))
    (λ error, console_error "Failed to create session:";; throw error).

Definition switchSession (sessionId : string) : Prog ChatContext.State unit :=
  sessions ← gets ChatContext.sessions;
  match List.find (λ s, String.eqb (ChatSession.id s) sessionId) sessions with
  | Some session =>
      update (setCurrentSession (Some session));;
      loadSessionMessages sessionId
  | None => ret ()
  end.

End handlers.
End ChatSessions.

(** ** More strings *)

Module JsTrim.

(** [s.trimStart()] *)
Fixpoint trimStart (s : string) : string :=
  match s with
  | EmptyString => EmptyString
  | String c1 s1 =>
      if Ascii.is_space c1 then trimStart s1
      else
        match s1 with
        | EmptyString => s
        | String c2 s2 =>
            if (nat_of_ascii c1 =? 194)%nat && (nat_of_ascii c2 =? 160)%nat
            then trimStart s2
            else
              match s2 with
              | EmptyString => s
              | String c3 s3 =>
                  if JsString.space3 (nat_of_ascii c1) (nat_of_ascii c2) (nat_of_ascii c3)
                  then trimStart s3
                  else s
              end
        end
  end.

(** [s.trimEnd()]: the string up to its last character that is not
    white space. *)
Fixpoint trimEnd (s : string) : string :=
  match s with
  | EmptyString => EmptyString
  | String c s' => if JsString.blank s then EmptyString else String c (trimEnd s')
  end.

(** [s.trim()] *)
Definition trim (s : string) : string := trimEnd (trimStart s).

(** [s.includes(sub)] *)
Fixpoint includes (s sub : string) : bool :=
  String.prefix sub s
  || match s with
     | EmptyString => false
     | String _ s' => includes s' sub
     end.

End JsTrim.

(** ** components/ChatInterface.tsx: the form and the selection chips *)

Module ChatForm.

(** The state of the component with the state of the chat context it
    uses. *)
Record State := mkState {
  form : ChatInterface.State;
  chat : ChatContext.State
}.

Definition setInput (v : string) (st : ChatInterface.State) : ChatInterface.State :=
  ChatInterface.mkState v (ChatInterface.isLoading st) (ChatInterface.documents st)
    (ChatInterface.selectedDocs st) (ChatInterface.showDocDropdown st).

Definition setIsLoading (v : bool) (st : ChatInterface.State) : ChatInterface.State :=
  ChatInterface.mkState (ChatInterface.input st) v (ChatInterface.documents st)
    (ChatInterface.selectedDocs st) (ChatInterface.showDocDropdown st).

Definition onForm (f : ChatInterface.State → ChatInterface.State) (st : State) : State :=
  mkState (f (form st)) (chat st).

(** [useChat()]: the handlers of the context act on its state. *)
Definition useChat {A} (m : Prog ChatContext.State A) : Prog State A :=
  zoom chat (λ c st, mkState (form st) c) m.

(** [getSelectedDocNames] *)
Definition getSelectedDocNames (st : ChatInterface.State) : list string :=
  Document.filename
    <$> filter (λ doc, Document.id doc ∈ ChatInterface.selectedDocs st)
               (ChatInterface.documents st).

(** The argument the remove button of a chip passes to
    [removeSelectedDoc]: [documents.find(d => d.filename === name)?.id
    || ''] *)
Definition chipId (name : string) (st : ChatInterface.State) : string :=
  default ""
    (Document.id
       <$> List.find (λ d, String.eqb (Document.filename d) name)
                     (ChatInterface.documents st)).

Definition removeChip (name : string) : Prog ChatInterface.State unit :=
  bind (gets (chipId name)) (λ docId, ChatInterface.removeSelectedDoc docId).

Section handlers.
Context (w : World).

Definition handleSubmit : Prog State unit :=
  input ← gets (ChatInterface.input ∘ form);
  isLoading ← gets (ChatInterface.isLoading ∘ form);
  selectedDocs ← gets (ChatInterface.selectedDocs ∘ form);
  if JsString.blank input || isLoading then ret ()
  else
    let userMessage := JsTrim.trim input in
    update (onForm (setInput ""));;
    update (onForm (setIsLoading true));;
    finally
      (try_catch
         (useChat (ChatContext.sendMessage w userMessage (Some selectedDocs)))
         (λ error,
            toast_error "Failed to send message. Please try again.";;
            console_error "Error sending message:"))
      (update (onForm (setIsLoading false))).

(** [handleKeyDown]: the key pressed and whether shift is held. *)
Definition handleKeyDown (key : string) (shiftKey : bool) : Prog State unit :=
  if String.eqb key "Enter" && negb shiftKey then handleSubmit else ret ().

End handlers.

(** The subscription effect of the component and its cleanup;
    [closure] names the listener created by this run of the effect. *)
Definition subscribe (closure : nat) : Prog ChatInterface.State unit :=
  spawn ChatInterface_fetchDocuments;;
  documentEvents_on DOCUMENT_EVENTS.UPLOADED (ChatInterface_handleDocumentChange closure);;
  documentEvents_on DOCUMENT_EVENTS.DELETED (ChatInterface_handleDocumentChange closure).

Definition unsubscribe (closure : nat) : Prog ChatInterface.State unit :=
  documentEvents_off DOCUMENT_EVENTS.UPLOADED (ChatInterface_handleDocumentChange closure);;
  documentEvents_off DOCUMENT_EVENTS.DELETED (ChatInterface_handleDocumentChange closure).

End ChatForm.

(** ** components/KnowledgeBase.tsx: the document list and the reset *)

Module KnowledgeView.

(** [filteredDocuments]; the two strings are compared after
    [JsString.toLowerCase], which lowers the ASCII letters and leaves
    every other letter as it is. *)
Definition matchesSearch (searchInDoc : string) (doc : Document.t) : bool :=
  if String.eqb searchInDoc "" then true
  else JsTrim.includes (JsString.toLowerCase (Document.filename doc))
                       (JsString.toLowerCase searchInDoc).

Definition matchesType (selectedFileType : string) (doc : Document.t) : bool :=
  String.eqb selectedFileType "all" || String.eqb (Document.file_type doc) selectedFileType.

Definition filteredDocuments (st : KnowledgeBase.State) : list Document.t :=
  List.filter
    (λ doc, matchesSearch (KnowledgeBase.searchInDoc st) doc
            && matchesType (KnowledgeBase.selectedFileType st) doc)
    (KnowledgeBase.documents st).

(** [Array.from(new Set(xs))]: the elements of [xs] in the order of
    their first occurrence. *)
Definition distinct (xs : list string) : list string :=
  foldl (λ seen x, if decide (x ∈ seen) then seen else seen ++ [x]) [] xs.

(** [fileTypes] *)
Definition fileTypes (st : KnowledgeBase.State) : list string :=
  distinct (Document.file_type <$> KnowledgeBase.documents st).

Section handlers.
Context (w : World) (b : Backend).

Definition clearKnowledgeBase : Prog KnowledgeBase.State unit :=
  confirmed ← ask (confirm w);
  if confirmed : bool then
    try_catch
      (call (knowledge_clear b);;
       toast_success "Knowledge base cleared successfully";;
       update (KnowledgeBase.setSearchResults []);;
       spawn KnowledgeBase_fetchStats;;
       KnowledgeBase.fetchDocuments_detached)
      (λ error,
         toast_error "Failed to clear knowledge base";;
         console_error "Clear error:")
  else ret ().

End handlers.
End KnowledgeView.

(** ** app/page.tsx *)

Module Page.

Inductive View := chat | documents | knowledge.

#[global] Instance View_eq_dec : EqDecision View.
Proof. solve_decision. Defined.

(** [activeView] and [isSidebarOpen], with the number of subscription
    effects run so far, which names the listener of the view on
    display. *)
Record State := mkState {
  activeView : View;
  isSidebarOpen : bool;
  closure : nat
}.

Definition initial : State := mkState chat true 0.

(** Only the active view is rendered.  Rendering a view runs its
    subscription effect, on a component state that starts afresh;
    taking it off the page runs the cleanup of that effect.  The
    document view subscribes to nothing. *)
Definition shows {St St' A} (fresh : St') (m : Prog St' A) : Prog St A :=
  zoom (λ _, fresh) (λ _ st, st) m.

Definition render (v : View) (c : nat) : Prog State unit :=
  match v with
  | chat => shows ChatInterface.initial (ChatForm.subscribe c)
  | documents => ret ()
  | knowledge => shows KnowledgeBase.initial (KnowledgeBase.mount c)
  end.

Definition remove (v : View) (c : nat) : Prog State unit :=
  match v with
  | chat => shows ChatInterface.initial (ChatForm.unsubscribe c)
  | documents => ret ()
  | knowledge => shows KnowledgeBase.initial (KnowledgeBase.unmount c)
  end.

(** [onViewChange]: [setActiveView(view)]; choosing the view on display
    changes nothing. *)
Definition onViewChange (view : View) : Prog State unit :=
  bind (gets (λ st, st)) (λ st,
    if decide (view = activeView st) then ret ()
    else
      bind (remove (activeView st) (closure st)) (λ _,
      bind (update (λ st, mkState view (isSidebarOpen st) (S (closure st)))) (λ _,
      render view (S (closure st))))).

(** [onToggle]: [setIsSidebarOpen(!isSidebarOpen)] *)
Definition onToggle : Prog State unit :=
  update (λ st, mkState (activeView st) (negb (isSidebarOpen st)) (closure st)).

(** The subscription effect of the chat interface depends on its
    documents: when they change the cleanup runs and the effect runs
    again, with a new listener. *)
Definition resubscribe : Prog State unit :=
  bind (gets (λ st, st)) (λ st,
    match activeView st with
    | chat =>
        bind (remove chat (closure st)) (λ _,
        bind (update (λ st, mkState chat (isSidebarOpen st) (S (closure st)))) (λ _,
        render chat (S (closure st))))
    | _ => ret ()
    end).

(** The page after it loads: the chat view is on display. *)
Definition loaded : Result State unit :=
  render chat 0 (mkRuntime 0 EventEmitter.new) initial.

(** What can happen to the page and the emitter: a view is chosen, the
    sidebar is toggled, the chat interface subscribes again, or the
    handlers of the view on display run, which leave the emitter as it
    is. *)
Inductive step : Runtime * State → Runtime * State → Prop :=
| step_view view rt st :
    step (rt, st) (runtime (onViewChange view rt st), state (onViewChange view rt st))
| step_toggle rt st :
    step (rt, st) (runtime (onToggle rt st), state (onToggle rt st))
| step_resubscribe rt st :
    step (rt, st) (runtime (resubscribe rt st), state (resubscribe rt st))
| step_handlers rt st time :
    step (rt, st) (mkRuntime time (documentEvents rt), st).

Inductive reachable : Runtime * State → Prop :=
| reachable_loaded : reachable (runtime loaded, state loaded)
| reachable_step p q : reachable p → step p q → reachable q.

(** The listeners of the view on display. *)
Definition listeners (st : State) : list Listener :=
  match activeView st with
  | chat => [ChatInterface_handleDocumentChange (closure st)]
  | documents => []
  | knowledge => [KnowledgeBase_handleDocumentChange (closure st)]
  end.

End Page.

(** What the subscription effects and their cleanups of the views do to
    the emitter. *)
Module Subscription.

(** The listener a view registers when it is rendered with closure
    [c], if any. *)
Definition view_listener (v : Page.View) (c : nat) : option Listener :=
  match v with
  | Page.chat => Some (ChatInterface_handleDocumentChange c)
  | Page.documents => None
  | Page.knowledge => Some (KnowledgeBase_handleDocumentChange c)
  end.

Definition subscribed (l : option Listener) (em : EventEmitter.t Listener) :
    EventEmitter.t Listener :=
  match l with
  | Some l =>
      EventEmitter.on DOCUMENT_EVENTS.DELETED l (EventEmitter.on DOCUMENT_EVENTS.UPLOADED l em)
  | None => em
  end.

Definition unsubscribed (l : option Listener) (em : EventEmitter.t Listener) :
    EventEmitter.t Listener :=
  match l with
  | Some l =>
      EventEmitter.off DOCUMENT_EVENTS.DELETED l
        (EventEmitter.off DOCUMENT_EVENTS.UPLOADED l em)
  | None => em
  end.

(** The two events of [DOCUMENT_EVENTS] the views listen to. *)
Definition both (event : string) : Prop :=
  event = DOCUMENT_EVENTS.UPLOADED ∨ event = DOCUMENT_EVENTS.DELETED.

End Subscription.

(** ** More sample runs *)

Module Sample.

Definition sessions_backend : Backend :=
  mkBackend
    (λ _, inr [ChatSession.mk "s-2" "Budget" 1700000000500;
               ChatSession.mk "s-1" "Hello" 1700000000000])
    (λ _ _, inr [ServerMessage.mk Message.user "hi" (JsDate.Number 1700000000100.5);
                 ServerMessage.mk Message.assistant "hey"
                   (JsDate.Text "2023-11-14T22:13:20.200Z")])
    (λ _ title, inr (ChatSession.mk "s-3" (default "New Chat" title) 1700000000900))
    (λ _, inr ()).

(** A [Date.parse] that reads one string. *)
Definition Date_parse (s : string) : JsDate.t :=
  if String.eqb s "2023-11-14T22:13:20.200Z" then JsDate.valid 1700000000200
  else JsDate.Invalid.

Definition failing_backend : Backend :=
  mkBackend (λ _, inl "Network Error") (λ _ _, inl "Network Error")
            (λ _ _, inl "Network Error") (λ _, inl "Network Error").

(** A chat context with two sessions, the second one current. *)
Definition two_sessions : ChatContext.State :=
  ChatContext.mkState
    [Message.mk "m-0" Message.user "old question" 1699999999000]
    (Some (ChatSession.mk "s-1" "Hello" 1700000000000))
    [ChatSession.mk "s-2" "Budget" 1700000000500;
     ChatSession.mk "s-1" "Hello" 1700000000000].

(** A chat form with a message typed in and one document selected. *)
Definition typed : ChatForm.State :=
  ChatForm.mkState
    (ChatInterface.mkState "  what is the budget? " false
       [Scenario.doc "d1" true; Scenario.doc "d3" true] ["d3"] false)
    Scenario.one_turn.

(** A knowledge-base view listing documents of three types. *)
Definition library : KnowledgeBase.State :=
  KnowledgeBase.mkState "" []
    [ Document.mk "a" "Report.PDF" "pdf" 10 true "2024-05-01";
      Document.mk "b" "notes.md" "md" 20 true "2024-05-02";
      Document.mk "c" "annual report.pdf" "pdf" 30 false "2024-05-03";
      Document.mk "d" "scan.png" "png" 40 true "2024-05-04" ]
    false false None "pdf" "REPORT" false.

(** The page after the knowledge base and then the document view were
    chosen. *)
Definition documents_shown : Result Page.State unit :=
  Page.onViewChange Page.documents
    (runtime (Page.onViewChange Page.knowledge (runtime Page.loaded) (state Page.loaded)))
    (state (Page.onViewChange Page.knowledge (runtime Page.loaded) (state Page.loaded))).

End Sample.

(** * Part II: properties *)

(** ** The event emitter *)

Section emitter_facts.
Context {L : Type} `{EqDecision L} {Arg : Type}.
Implicit Types (this : EventEmitter.t L) (event : string) (listener : L).
Import EventEmitter.

Lemma registrations_new event : registrations event (new (L:=L)) = [].
Proof. unfold registrations, new. simpl. by rewrite lookup_empty. Qed.

Lemma registrations_on event listener this :
  registrations event (on event listener this) = registrations event this ++ [listener].
Proof.
  unfold registrations, on. simpl.
  destruct (events this !! event) as [ls|] eqn:E; simpl.
  - rewrite lookup_alter_eq, E. done.
  - rewrite lookup_alter_eq, lookup_insert_eq. done.
Qed.

Lemma registrations_on_ne event event' listener this :
  event ≠ event' →
  registrations event' (on event listener this) = registrations event' this.
Proof.
  intros Hne. unfold registrations, on. simpl.
  rewrite lookup_alter_ne by done.
  destruct (events this !! event); [done|].
  by rewrite lookup_insert_ne.
Qed.

Lemma registrations_off event listener this :
  registrations event (off event listener this)
  = filter (λ l, l ≠ listener) (registrations event this).
Proof.
  unfold registrations, off.
  destruct (events this !! event) as [ls|] eqn:E; simpl.
  - by rewrite lookup_insert_eq.
  - by rewrite E.
Qed.

Lemma registrations_off_ne event event' listener this :
  event ≠ event' →
  registrations event' (off event listener this) = registrations event' this.
Proof.
  intros Hne. unfold registrations, off.
  destruct (events this !! event); [|done]. simpl.
  by rewrite lookup_insert_ne.
Qed.

Lemma emit_registrations event (args : list Arg) this :
  emit event args this = (λ listener, (listener, args)) <$> registrations event this.
Proof.
  unfold emit, registrations. by destruct (events this !! event).
Qed.

Lemma registrations_foldl event (ops : list (Op L)) this :
  registrations event (foldl apply this ops)
  = foldl (λ acc o,
             match o with
             | On e l => if decide (e = event) then acc ++ [l] else acc
             | Off e l => if decide (e = event) then filter (λ x, x ≠ l) acc else acc
             end) (registrations event this) ops.
Proof.
  revert this. induction ops as [|o ops IH]; intros this; [done|].
  simpl. rewrite IH. f_equal.
  destruct o as [e l|e l]; simpl; case_decide; subst.
  - apply registrations_on.
  - by apply registrations_on_ne.
  - apply registrations_off.
  - by apply registrations_off_ne.
Qed.

Lemma registrations_run event (ops : list (Op L)) :
  registrations event (run ops) = registered_spec event ops.
Proof.
  unfold run, registered_spec. rewrite registrations_foldl.
  by rewrite registrations_new.
Qed.

Lemma emit_on event listener (args : list Arg) this :
  emit event args (on event listener this) = emit event args this ++ [(listener, args)].
Proof.
  rewrite !emit_registrations, registrations_on, fmap_app. done.
Qed.

Lemma emit_off_not_called event listener (args : list Arg) this :
  listener ∉ (fst <$> emit event args (off event listener this)).
Proof.
  rewrite emit_registrations, registrations_off.
  intros ([l' a] & Heq & Hin)%list_elem_of_fmap. simpl in Heq. subst l'.
  apply list_elem_of_fmap in Hin as (x & Heq & Hx).
  injection Heq as -> _.
  apply list_elem_of_filter in Hx as [Hne _]. done.
Qed.

(** *** The methods for every event name *)

Lemma get_own event this :
  event ∉ Object_prototype →
  get event this
  = match events this !! event with
    | Some ls => Array ls
    | None => Undefined
    end.
Proof.
  intros Hown. unfold get. destruct (events this !! event); [done|].
  by rewrite bool_decide_eq_false_2.
Qed.

Lemma get_inherited event this :
  event ∈ Object_prototype → events this !! event = None → get event this = Inherited.
Proof. intros Hin Hnone. unfold get. rewrite Hnone. by rewrite bool_decide_eq_true_2. Qed.

(** Away from the inherited names the methods are [on], [off] and, when
    no listener throws, [emit]. *)
Lemma on_call_own event listener this :
  event ∉ Object_prototype → on_call event listener this = inr (on event listener this).
Proof.
  intros Hown. unfold on_call, on. rewrite get_own by done.
  destruct (events this !! event) as [ls|] eqn:E; do 2 f_equal; apply map_eq; intros k;
    destruct (decide (k = event)) as [->|Hne].
  - by rewrite lookup_insert_eq, lookup_alter_eq, E.
  - by rewrite lookup_insert_ne, lookup_alter_ne.
  - by rewrite lookup_insert_eq, lookup_alter_eq, lookup_insert_eq.
  - by rewrite lookup_insert_ne, lookup_alter_ne, lookup_insert_ne.
Qed.

Lemma off_call_own event listener this :
  event ∉ Object_prototype → off_call event listener this = inr (off event listener this).
Proof.
  intros Hown. unfold off_call, off. rewrite get_own by done.
  by destruct (events this !! event).
Qed.

Lemma emit_call_own (raises : L → bool) event (args : list Arg) this :
  event ∉ Object_prototype →
  emit_call raises event args this = forEach raises args (registrations event this).
Proof.
  intros Hown. unfold emit_call, registrations. rewrite get_own by done.
  by destruct (events this !! event).
Qed.

Lemma forEach_prefix (raises : L → bool) (args : list Arg) (ls : list L) :
  (forEach raises args ls).1 `prefix_of` ((λ l, (l, args)) <$> ls).
Proof.
  induction ls as [|l ls IH]; simpl; [done|].
  destruct (raises l); simpl.
  - by apply prefix_cons, prefix_nil.
  - by apply prefix_cons.
Qed.

Lemma forEach_quiet (raises : L → bool) (args : list Arg) (ls : list L) :
  (∀ l, l ∈ ls → raises l = false) →
  forEach raises args ls = ((λ l, (l, args)) <$> ls, inr ()).
Proof.
  induction ls as [|l ls IH]; intros Hquiet; simpl; [done|].
  rewrite (Hquiet l) by apply list_elem_of_here.
  rewrite IH; [done|]. intros l' Hl'. by apply Hquiet, list_elem_of_further.
Qed.

Lemma forEach_raised (raises : L → bool) (args : list Arg) (quiet rest : list L) (l : L) :
  (∀ x, x ∈ quiet → raises x = false) →
  raises l = true →
  forEach raises args (quiet ++ l :: rest)
  = ((λ x, (x, args)) <$> quiet ++ [l], inl (Raised l)).
Proof.
  intros Hquiet Hl. induction quiet as [|x quiet IH]; simpl.
  - by rewrite Hl.
  - rewrite (Hquiet x) by apply list_elem_of_here.
    rewrite IH; [done|]. intros x' Hx'. by apply Hquiet, list_elem_of_further.
Qed.

Lemma run_call_own (ops : list (Op L)) this :
  (∀ o, o ∈ ops → event_of o ∉ Object_prototype) →
  run_call this ops = inr (foldl apply this ops).
Proof.
  revert this. induction ops as [|o ops IH]; intros this Hown; simpl; [done|].
  assert (Ho : apply_call o this = inr (apply this o)).
  { pose proof (Hown o (list_elem_of_here _ _)) as Hevent.
    destruct o as [e l|e l]; simpl in *; [by apply on_call_own | by apply off_call_own]. }
  rewrite Ho. apply IH. intros o' Ho'. by apply Hown, list_elem_of_further.
Qed.

End emitter_facts.

(** The events of [DOCUMENT_EVENTS] are not inherited names: on the
    shared emitter the methods are [on], [off] and [emit]. *)
Lemma DOCUMENT_EVENTS_own (event : string) :
  event ∈ [DOCUMENT_EVENTS.UPLOADED; DOCUMENT_EVENTS.DELETED; DOCUMENT_EVENTS.PROCESSED] →
  event ∉ EventEmitter.Object_prototype.
Proof.
  intros Hevent Hin.
  repeat (apply elem_of_cons in Hevent as [->|Hevent];
          [repeat (apply elem_of_cons in Hin as [Hin|Hin]; [discriminate|]);
           by apply not_elem_of_nil in Hin|]).
  by apply not_elem_of_nil in Hevent.
Qed.

(** C8 (as the claim states it, refuted).  [emit] on an event with no
    registered listener does not always return normally: for the name
    of a member every object inherits it throws.  And [emit] does not
    always call every registered listener: it stops at the first one
    that throws. *)
Lemma C8_emit_does_not_always_return :
  ¬ (∀ (this : EventEmitter.t nat) (e : string) (args : list unit),
       EventEmitter.registrations e this = [] →
       EventEmitter.emit_call (λ _, false) e args this = ([], inr ()))
  ∧ ¬ (∀ (raises : nat → bool) (this : EventEmitter.t nat) (e : string) (args : list unit),
         (EventEmitter.emit_call raises e args this).1
         = (λ l, (l, args)) <$> EventEmitter.registrations e this).
Proof.
  split.
  - intros Hclaim.
    specialize (Hclaim EventEmitter.new "toString" [] eq_refl). discriminate.
  - intros Hclaim.
    specialize (Hclaim (λ l, bool_decide (l = 1%nat))
                  (EventEmitter.run [EventEmitter.On "document:uploaded" 1%nat;
                                     EventEmitter.On "document:uploaded" 2%nat])
                  "document:uploaded" []).
    discriminate.
Qed.

(** C8 (amended).  For every emitter, listener [l] and event name [e]
    that is not the name of a member inherited from [Object.prototype]:
    [off e l] returns, removes every registration of [l] for [e] and
    keeps the others in order, so an [emit] that follows never calls
    [l]; [emit] on an event with no registration returns and performs
    no call; [on e l] returns and appends one registration; [emit]
    calls the registered listeners in the order of the array, once per
    entry, up to and including the first listener that throws, and all
    of them when none throws; and after any history of [on] and [off]
    calls on such names the array is the list of [on] registrations in
    the order they were made, less those an [off] removed.  For an
    inherited name that is no own key the three methods throw a
    [TypeError], and no listener is called. *)
Theorem C8_emitter_own_events
    (L : Type) (HL : EqDecision L) (Arg : Type) (raises : L → bool) :
  (∀ (this : EventEmitter.t L) (e : string) (l : L) (args : list Arg),
     e ∉ EventEmitter.Object_prototype →
     EventEmitter.off_call e l this = inr (EventEmitter.off e l this)
     ∧ EventEmitter.registrations e (EventEmitter.off e l this)
       = filter (λ x, x ≠ l) (EventEmitter.registrations e this)
     ∧ l ∉ (fst <$> (EventEmitter.emit_call raises e args (EventEmitter.off e l this)).1))
  ∧ (∀ (this : EventEmitter.t L) (e : string) (args : list Arg),
       e ∉ EventEmitter.Object_prototype →
       EventEmitter.registrations e this = [] →
       EventEmitter.emit_call raises e args this = ([], inr ()))
  ∧ (∀ (this : EventEmitter.t L) (e : string) (l : L) (args : list Arg),
       e ∉ EventEmitter.Object_prototype →
       EventEmitter.on_call e l this = inr (EventEmitter.on e l this)
       ∧ EventEmitter.registrations e (EventEmitter.on e l this)
         = EventEmitter.registrations e this ++ [l]
       ∧ (EventEmitter.emit_call raises e args this).1
         `prefix_of` ((λ x, (x, args)) <$> EventEmitter.registrations e this)
       ∧ ((∀ x, x ∈ EventEmitter.registrations e this → raises x = false) →
          EventEmitter.emit_call raises e args this
          = ((λ x, (x, args)) <$> EventEmitter.registrations e this, inr ())
          ∧ EventEmitter.emit_call raises e args this
            = (EventEmitter.emit e args this, inr ())))
  ∧ (∀ (this : EventEmitter.t L) (e : string) (quiet rest : list L) (l : L)
       (args : list Arg),
       e ∉ EventEmitter.Object_prototype →
       EventEmitter.registrations e this = quiet ++ l :: rest →
       (∀ x, x ∈ quiet → raises x = false) →
       raises l = true →
       EventEmitter.emit_call raises e args this
       = ((λ x, (x, args)) <$> quiet ++ [l], inl (EventEmitter.Raised l)))
  ∧ (∀ (ops : list (EventEmitter.Op L)) (e : string),
       (∀ o, o ∈ ops → EventEmitter.event_of o ∉ EventEmitter.Object_prototype) →
       EventEmitter.run_call EventEmitter.new ops = inr (EventEmitter.run ops)
       ∧ EventEmitter.registrations e (EventEmitter.run ops)
         = EventEmitter.registered_spec e ops)
  ∧ (∀ (this : EventEmitter.t L) (e : string) (l : L) (args : list Arg),
       e ∈ EventEmitter.Object_prototype →
       EventEmitter.events this !! e = None →
       EventEmitter.on_call e l this = inl EventEmitter.TypeError
       ∧ EventEmitter.off_call e l this = inl EventEmitter.TypeError
       ∧ EventEmitter.emit_call raises e args this = ([], inl EventEmitter.TypeError)).
Proof.
  repeat apply conj.
  - intros this e l args Hown. split; [by apply off_call_own|].
    split; [apply registrations_off|].
    rewrite emit_call_own by done. intros Hin.
    apply list_elem_of_fmap in Hin as ([l' a] & Heq & Hin). simpl in Heq. subst l'.
    eapply elem_of_prefix in Hin; [|apply forEach_prefix].
    apply list_elem_of_fmap in Hin as (x & Heq & Hx). injection Heq as -> _.
    rewrite registrations_off in Hx. by apply list_elem_of_filter in Hx as [Hne _].
  - intros this e args Hown Hnone. rewrite emit_call_own by done. by rewrite Hnone.
  - intros this e l args Hown. split; [by apply on_call_own|].
    split; [apply registrations_on|]. rewrite emit_call_own by done.
    split; [apply forEach_prefix|].
    intros Hquiet. rewrite emit_registrations. split; by apply forEach_quiet.
  - intros this e quiet rest l args Hown Hregs Hquiet Hl.
    rewrite emit_call_own by done. rewrite Hregs. by apply forEach_raised.
  - intros ops e Hown. split; [by apply run_call_own | apply registrations_run].
  - intros this e l args Hin Hnone.
    unfold EventEmitter.on_call, EventEmitter.off_call, EventEmitter.emit_call.
    by rewrite get_inherited.
Qed.

Lemma C8_emitter_own_events_witness :
  EventEmitter.emit_call (λ _ : nat, false) "document:processed" [()]
    (EventEmitter.off "document:uploaded" 7%nat
       (EventEmitter.on "document:uploaded" 7%nat EventEmitter.new))
  = ([], inr ())
  ∧ EventEmitter.on_call "toString" 7%nat EventEmitter.new = inl EventEmitter.TypeError.
Proof.
  split.
  - apply (proj1 (proj2 (C8_emitter_own_events nat _ unit (λ _, false)))); [|reflexivity].
    apply DOCUMENT_EVENTS_own. do 2 apply list_elem_of_further. apply list_elem_of_here.
  - apply (proj2 (proj2 (proj2 (proj2 (proj2
             (C8_emitter_own_events nat _ unit (λ _, false))))))
             EventEmitter.new "toString" 7%nat [()]); [|reflexivity].
    do 5 apply list_elem_of_further. apply list_elem_of_here.
Defined.

(** ** Running handlers *)

(** The equations by which a handler applied to a runtime and a state
    is run, one combinator at a time. *)
Section prog_facts.
Context {St : Type}.
Implicit Types (rt : Runtime) (st : St).

Lemma prepend_nil {A} (r : Result St A) : prepend [] r = r.
Proof. by destruct r. Qed.

Lemma prepend_prepend {A} (tr1 tr2 : list Effect) (r : Result St A) :
  prepend tr1 (prepend tr2 r) = prepend (tr1 ++ tr2) r.
Proof. unfold prepend. simpl. by rewrite app_assoc. Qed.

Lemma prepend_mkResult {A} (tr tr' : list Effect) (o : Err + A) rt st :
  prepend tr (mkResult o rt st tr') = mkResult o rt st (tr ++ tr').
Proof. done. Qed.

Lemma bind_ask {A B} (oracle : nat → A) (k : A → Prog St B) rt st :
  bind (ask oracle) k rt st = k (oracle (clock rt)) (tick rt) st.
Proof. unfold bind, ask. simpl. apply prepend_nil. Qed.

Lemma bind_gets {A B} (f : St → A) (k : A → Prog St B) rt st :
  bind (gets f) k rt st = k (f st) rt st.
Proof. unfold bind, gets. simpl. apply prepend_nil. Qed.

Lemma bind_update {B} (f : St → St) (k : unit → Prog St B) rt st :
  bind (update f) k rt st = k () rt (f st).
Proof. unfold bind, update. simpl. apply prepend_nil. Qed.

Lemma bind_ret {A B} (a : A) (k : A → Prog St B) rt st :
  bind (ret a) k rt st = k a rt st.
Proof. unfold bind, ret. simpl. apply prepend_nil. Qed.

Lemma bind_perform {B} (e : Effect) (k : unit → Prog St B) rt st :
  bind (perform e) k rt st = prepend [e] (k () rt st).
Proof. done. Qed.

Lemma bind_request {A B} (req : HttpRequest) (answer : nat → Err + A)
    (k : A → Prog St B) rt st :
  bind (request req answer) k rt st
  = match answer (clock rt) with
    | inl e => mkResult (inl e) (tick rt) st [Http req false; ConsoleError "API Error:"]
    | inr a => prepend [Http req true] (k a (tick rt) st)
    end.
Proof. unfold bind, request. simpl. by destruct (answer (clock rt)). Qed.

Lemma run_request {A} (req : HttpRequest) (answer : nat → Err + A) rt st :
  request req answer rt st
  = mkResult (answer (clock rt)) (tick rt) st
      (Http req (succeeded (answer (clock rt))) :: intercepted (answer (clock rt))).
Proof. done. Qed.

Lemma bind_emit {B} (event : string) (k : unit → Prog St B) rt st :
  bind (documentEvents_emit event) k rt st
  = prepend (Emitted event ::
             (Called <$> EventEmitter.registrations event (documentEvents rt)))
            (k () rt st).
Proof.
  unfold bind, documentEvents_emit. simpl.
  rewrite (emit_registrations (Arg:=unit)), <- list_fmap_compose. done.
Qed.

Lemma run_emit (event : string) rt st :
  documentEvents_emit event rt st
  = mkResult (inr ()) rt st
      (Emitted event :: (Called <$> EventEmitter.registrations event (documentEvents rt))).
Proof.
  unfold documentEvents_emit.
  rewrite (emit_registrations (Arg:=unit)), <- list_fmap_compose. done.
Qed.

(** A compound first part is run on its own. *)
Lemma bind_run {A B} (m : Prog St A) (k : A → Prog St B) rt st (r : Result St A) :
  m rt st = r →
  bind m k rt st
  = match outcome r with
    | inl e => mkResult (inl e) (runtime r) (state r) (trace r)
    | inr a => prepend (trace r) (k a (runtime r) (state r))
    end.
Proof. intros <-. done. Qed.

Lemma try_catch_run {A} (body : Prog St A) (handler : Err → Prog St A) rt st
    (r : Result St A) :
  body rt st = r →
  try_catch body handler rt st
  = match outcome r with
    | inl e => prepend (trace r) (handler e (runtime r) (state r))
    | inr _ => r
    end.
Proof. intros <-. done. Qed.

Lemma finally_run {A} (body : Prog St A) (cleanup : Prog St unit) rt st
    (r : Result St A) :
  body rt st = r →
  finally body cleanup rt st
  = let r' := cleanup (runtime r) (state r) in
    mkResult (match outcome r' with inl e => inl e | inr _ => outcome r end)
             (runtime r') (state r') (trace r ++ trace r').
Proof. intros <-. done. Qed.

End prog_facts.

Lemma run_fetchDocuments_detached rt (st : KnowledgeBase.State) :
  KnowledgeBase.fetchDocuments_detached rt st
  = mkResult (inr ()) rt (KnowledgeBase.setIsLoadingDocs true st)
      [Spawned KnowledgeBase_fetchDocuments].
Proof. done. Qed.

Lemma bind_fetchDocuments_detached {B} (k : unit → Prog KnowledgeBase.State B) rt st :
  bind KnowledgeBase.fetchDocuments_detached k rt st
  = prepend [Spawned KnowledgeBase_fetchDocuments]
      (k () rt (KnowledgeBase.setIsLoadingDocs true st)).
Proof. done. Qed.

(** One step of a run, and a run as far as the equations go. *)
Ltac prog_step :=
  first
    [ rewrite bind_ask | rewrite bind_gets | rewrite bind_update | rewrite bind_ret
    | rewrite bind_perform | rewrite bind_request | rewrite bind_emit ].

Ltac prog_simpl :=
  cbn [outcome runtime state trace prepend tick clock documentEvents app].

Ltac prog_run :=
  unfold mbind, Prog_bind, mret, Prog_ret, console_error, toast, toast_success,
    toast_error, spawn in *;
  repeat prog_step;
  prog_simpl.

(** A run of a handler of the knowledge-base view, which may start
    [fetchDocuments]. *)
Ltac kb_run :=
  prog_run;
  repeat (rewrite bind_fetchDocuments_detached; prog_run).

(** The last statement of a run. *)
Ltac prog_end :=
  rewrite ?run_emit, ?run_request, ?run_fetchDocuments_detached;
  unfold update, gets, ret, perform, throw;
  prog_simpl;
  rewrite ?app_nil_r.

(** An effect is, or is not, in a trace that is written out. *)
Ltac in_trace :=
  repeat first [apply list_elem_of_here | apply list_elem_of_further].

Ltac not_in_trace H :=
  repeat (apply elem_of_cons in H as [H|H]; [discriminate|]);
  by apply not_elem_of_nil in H.

(** ** ChatContext.sendMessage *)

Section chat_facts.
Context (w : World).
Implicit Types (rt : Runtime) (st : ChatContext.State) (content : string)
  (selectedDocIds : option (list string)).

(** What [sendMessage] leaves behind, whatever the backend answers. *)
Lemma sendMessage_run content selectedDocIds rt st :
  let t := clock rt in
  let body := ChatContext.chatRequest content selectedDocIds (ChatContext.currentSession st) in
  let userMessage := Message.mk (uuidv4 w t) Message.user content (Date_now w (S t)) in
  let r := ChatContext.sendMessage w content selectedDocIds rt st in
  match chat_message w (S (S t)) body with
  | inl error =>
      outcome r = inl error
      ∧ ChatContext.messages (state r) = ChatContext.messages st ++ [userMessage]
      ∧ trace r = [Http (PostChatMessage body) false;
                   ConsoleError "API Error:"; ConsoleError "Failed to send message:"]
  | inr response =>
      let assistantMessage :=
        Message.mk (uuidv4 w (S (S (S t)))) Message.assistant
                   (ChatResponse.response response) (Date_now w (S (S (S (S t))))) in
      outcome r = inr ()
      ∧ ChatContext.messages (state r)
        = ChatContext.messages st ++ [userMessage; assistantMessage]
      ∧ ∃ spawned, trace r = Http (PostChatMessage body) true :: spawned
                   ∧ (spawned = [] ∨ spawned = [Spawned ChatContext_fetchSessions])
  end
  ∧ ChatContext.currentSession (state r) = ChatContext.currentSession st
  ∧ ChatContext.sessions (state r) = ChatContext.sessions st.
Proof.
  intros t body userMessage r. subst t body userMessage r.
  unfold ChatContext.sendMessage. prog_run.
  erewrite try_catch_run; [|prog_run; reflexivity].
  destruct (chat_message w _ _) as [error|response]; prog_run.
  - unfold throw. simpl. done.
  - destruct (negb _ && _); unfold perform, ret; simpl; rewrite <- app_assoc; simpl;
      eauto 10.
Qed.

End chat_facts.

(** C1 (as the claim states it, refuted).  A failed chat request does
    not leave the message list as it was before the call: the user
    message appended before the request is still there. *)
Lemma C1_sendMessage_failure_not_rolled_back :
  ¬ (∀ (w : World) (content : string) (selectedDocIds : option (list string))
       (rt : Runtime) (st : ChatContext.State) (error : Err),
       chat_message w (S (S (clock rt)))
         (ChatContext.chatRequest content selectedDocIds (ChatContext.currentSession st))
       = inl error →
       ChatContext.messages (state (ChatContext.sendMessage w content selectedDocIds rt st))
       = ChatContext.messages st).
Proof.
  intros Hclaim.
  specialize (Hclaim Scenario.unavailable "hello" (Some ["d1"]) Scenario.boot
                     Scenario.one_turn "timeout of 30000ms exceeded" eq_refl).
  pose proof (sendMessage_run Scenario.unavailable "hello" (Some ["d1"]) Scenario.boot
                Scenario.one_turn) as [(_ & Hmsgs & _) _].
  rewrite Hmsgs in Hclaim.
  apply (f_equal length) in Hclaim. rewrite length_app in Hclaim.
  simpl in Hclaim. lia.
Qed.

(** C1 (amended).  When the chat request fails, [sendMessage] rejects
    with the error of the request, no assistant message is appended, and
    the message list is the list before the call followed by the user
    message alone; the current session and the session list are
    unchanged. *)
Theorem C1_sendMessage_failure_keeps_user_message
    (w : World) (content : string) (selectedDocIds : option (list string))
    (rt : Runtime) (st : ChatContext.State) (error : Err) :
  chat_message w (S (S (clock rt)))
    (ChatContext.chatRequest content selectedDocIds (ChatContext.currentSession st))
  = inl error →
  let r := ChatContext.sendMessage w content selectedDocIds rt st in
  outcome r = inl error
  ∧ ChatContext.messages (state r)
    = ChatContext.messages st
      ++ [Message.mk (uuidv4 w (clock rt)) Message.user content (Date_now w (S (clock rt)))]
  ∧ Forall (λ m, Message.role m = Message.assistant → m ∈ ChatContext.messages st)
           (ChatContext.messages (state r))
  ∧ ChatContext.currentSession (state r) = ChatContext.currentSession st
  ∧ ChatContext.sessions (state r) = ChatContext.sessions st.
Proof.
  intros Hfail r.
  pose proof (sendMessage_run w content selectedDocIds rt st) as Hrun.
  cbv zeta in Hrun. rewrite Hfail in Hrun.
  destruct Hrun as [(Hout & Hmsgs & _) [Hcur Hsess]].
  subst r. repeat split; try done.
  rewrite Hmsgs. apply Forall_app. split.
  - apply Forall_forall. intros m Hm _. done.
  - apply Forall_singleton. simpl. discriminate.
Qed.

Lemma C1_sendMessage_failure_keeps_user_message_witness :
  outcome (ChatContext.sendMessage Scenario.unavailable "hello" None Scenario.boot
             Scenario.one_turn)
  = inl "timeout of 30000ms exceeded"
  ∧ ChatContext.messages
      (state (ChatContext.sendMessage Scenario.unavailable "hello" None Scenario.boot
                Scenario.one_turn))
    = [ Message.mk "m-0" Message.user "hi" 1699999999000;
        Message.mk "m-1" Message.assistant "hey" 1699999999500;
        Message.mk "uuid-0" Message.user "hello" 1700000000001 ].
Proof.
  destruct (C1_sendMessage_failure_keeps_user_message Scenario.unavailable "hello" None
              Scenario.boot Scenario.one_turn "timeout of 30000ms exceeded" eq_refl)
    as (Hout & Hmsgs & _).
  split; [exact Hout | exact Hmsgs].
Defined.

(** C4.  [sendMessage] only appends to the message list: whatever the
    backend answers, the list after the call is the list before it
    followed by the user message and, when the request succeeded, by
    the assistant message.  The old list is a prefix of the new one, so
    no existing message is edited, removed or moved. *)
Theorem C4_sendMessage_appends_only
    (w : World) (content : string) (selectedDocIds : option (list string))
    (rt : Runtime) (st : ChatContext.State) :
  let t := clock rt in
  let r := ChatContext.sendMessage w content selectedDocIds rt st in
  let userMessage := Message.mk (uuidv4 w t) Message.user content (Date_now w (S t)) in
  ChatContext.messages st `prefix_of` ChatContext.messages (state r)
  ∧ ChatContext.messages (state r)
    = ChatContext.messages st ++ userMessage ::
        match chat_message w (S (S t))
                (ChatContext.chatRequest content selectedDocIds (ChatContext.currentSession st))
        with
        | inl _ => []
        | inr response =>
            [Message.mk (uuidv4 w (S (S (S t)))) Message.assistant
                        (ChatResponse.response response) (Date_now w (S (S (S (S t)))))]
        end
  ∧ (∀ i m, ChatContext.messages st !! i = Some m →
            ChatContext.messages (state r) !! i = Some m).
Proof.
  intros t r userMessage.
  pose proof (sendMessage_run w content selectedDocIds rt st) as [Hrun _].
  fold t r in Hrun.
  assert (Heq : ChatContext.messages (state r)
                = ChatContext.messages st ++ userMessage ::
                    match chat_message w (S (S t))
                            (ChatContext.chatRequest content selectedDocIds
                               (ChatContext.currentSession st))
                    with
                    | inl _ => []
                    | inr response =>
                        [Message.mk (uuidv4 w (S (S (S t)))) Message.assistant
                           (ChatResponse.response response)
                           (Date_now w (S (S (S (S t)))))]
                    end).
  { destruct (chat_message w _ _) as [error|response].
    - destruct Hrun as (_ & Hmsgs & _). exact Hmsgs.
    - destruct Hrun as (_ & Hmsgs & _). exact Hmsgs. }
  split; [|split].
  - rewrite Heq. by eexists.
  - exact Heq.
  - intros i m Hi. rewrite Heq. by apply lookup_app_l_Some.
Qed.

Lemma C4_sendMessage_appends_only_witness :
  ChatContext.messages
    (state (ChatContext.sendMessage Scenario.answering "hello" (Some ["d1"]) Scenario.boot
              Scenario.one_turn)) !! 1%nat
  = Some (Message.mk "m-1" Message.assistant "hey" 1699999999500).
Proof.
  apply (proj2 (proj2 (C4_sendMessage_appends_only Scenario.answering "hello" (Some ["d1"])
                         Scenario.boot Scenario.one_turn))).
  reflexivity.
Defined.

(** C9.  The one request [sendMessage] sends is the chat request whose
    [use_knowledge_base] field is [true] exactly when [selectedDocIds]
    is given and not empty, and whose [selected_documents] field is
    [selectedDocIds], or the empty list when it is absent; with no
    document selected the field is not [true]. *)
Theorem C9_sendMessage_request_fields
    (w : World) (content : string) (selectedDocIds : option (list string))
    (rt : Runtime) (st : ChatContext.State) :
  let r := ChatContext.sendMessage w content selectedDocIds rt st in
  let body := ChatContext.chatRequest content selectedDocIds (ChatContext.currentSession st) in
  (∃ ok rest, trace r = Http (PostChatMessage body) ok :: rest
              ∧ ∀ req ok', Http req ok' ∉ rest)
  ∧ (ChatRequest.use_knowledge_base body = Some true
     ↔ ∃ id ids, selectedDocIds = Some (id :: ids))
  ∧ ChatRequest.selected_documents body = default [] selectedDocIds
  ∧ (selectedDocIds = None ∨ selectedDocIds = Some [] →
     ChatRequest.use_knowledge_base body ≠ Some true
     ∧ ChatRequest.selected_documents body = []).
Proof.
  intros r body.
  pose proof (sendMessage_run w content selectedDocIds rt st) as [Hrun _].
  fold r body in Hrun.
  split; [|split; [|split]].
  - destruct (chat_message w _ _) as [error|response].
    + destruct Hrun as (_ & _ & Htr). eexists _, _. split; [exact Htr|].
      intros req ok' Hin.
      repeat (apply elem_of_cons in Hin as [Hin|Hin]; [discriminate|]).
      by apply not_elem_of_nil in Hin.
    + destruct Hrun as (_ & _ & spawned & Htr & Hsp). eexists _, _. split; [exact Htr|].
      intros req ok' Hin. destruct Hsp as [-> | ->].
      * by apply not_elem_of_nil in Hin.
      * apply list_elem_of_singleton in Hin. discriminate.
  - subst body. simpl. destruct selectedDocIds as [[|id ids]|]; simpl.
    + split; [discriminate | intros (? & ? & ?); discriminate].
    + split; [eauto | intros _; f_equal; apply bool_decide_eq_true; lia].
    + split; [discriminate | intros (? & ? & ?); discriminate].
  - done.
  - subst body. simpl. intros [-> | ->]; simpl; split; done.
Qed.

Lemma C9_sendMessage_request_fields_witness :
  (ChatRequest.use_knowledge_base (ChatContext.chatRequest "hello" (Some []) None) ≠ Some true
   ∧ ChatRequest.selected_documents (ChatContext.chatRequest "hello" (Some []) None) = [])
  ∧ ChatRequest.use_knowledge_base (ChatContext.chatRequest "hello" (Some ["d1"; "d3"]) None)
    = Some true.
Proof.
  split.
  - apply (proj2 (proj2 (proj2
      (C9_sendMessage_request_fields Scenario.answering "hello" (Some []) Scenario.boot
         Scenario.one_turn)))).
    right. reflexivity.
  - apply (proj1 (proj2
      (C9_sendMessage_request_fields Scenario.answering "hello" (Some ["d1"; "d3"])
         Scenario.boot Scenario.one_turn))).
    exists "d1", ["d3"]. reflexivity.
Defined.

(** The flag a chat with no document selected sends: [false] when the
    caller passes the empty selection, as the chat interface does, and
    [undefined] when the argument is left out. *)
Example chatRequest_no_selection :
  ChatRequest.use_knowledge_base (ChatContext.chatRequest "hello" (Some []) None) = Some false
  ∧ ChatRequest.use_knowledge_base (ChatContext.chatRequest "hello" None None) = None
  ∧ ChatRequest.use_knowledge_base (chatApi.sendMessage "hello" None None) = Some true.
Proof. repeat split. Qed.

(** ** DocumentContext *)

Section document_context_facts.
Context (w : World).
Implicit Types (rt : Runtime) (st : DocumentContext.State).
Import DocumentContext.

Lemma refreshDocuments_run rt st :
  refreshDocuments w rt st
  = match documents_list w (clock rt) None with
    | inl _ =>
        mkResult (inr ()) (tick rt) st
          [Http (GetDocumentsList None) false;
           ConsoleError "API Error:"; ConsoleError "Failed to fetch documents:"]
    | inr response =>
        mkResult (inr ()) (tick rt) (setDocuments (λ _, response) st)
          [Http (GetDocumentsList None) true]
    end.
Proof.
  unfold refreshDocuments. prog_run.
  erewrite try_catch_run; [|prog_run; reflexivity].
  by destruct (documents_list w (clock rt) None).
Qed.

Lemma deleteDocument_run documentId rt st :
  deleteDocument w documentId rt st
  = match documents_delete w (clock rt) documentId with
    | inl error =>
        mkResult (inl error) (tick rt) st
          [Http (DeleteDocument documentId) false;
           ConsoleError "API Error:"; ConsoleError "Failed to delete document:"]
    | inr _ =>
        mkResult (inr ()) (tick rt)
          (setDocuments (λ prev, filter (λ doc, Document.id doc ≠ documentId) prev) st)
          [Http (DeleteDocument documentId) true]
    end.
Proof.
  unfold deleteDocument. prog_run.
  erewrite try_catch_run; [|prog_run; reflexivity].
  by destruct (documents_delete w (clock rt) documentId).
Qed.

Lemma uploadDocument_run file rt st :
  uploadDocument w file rt st
  = match documents_upload w (clock rt) file with
    | inl error =>
        mkResult (inl error) (tick rt) st
          [Http (PostDocumentsUpload file) false;
           ConsoleError "API Error:"; ConsoleError "Failed to upload document:"]
    | inr _ =>
        prepend [Http (PostDocumentsUpload file) true] (refreshDocuments w (tick rt) st)
    end.
Proof.
  unfold uploadDocument. prog_run.
  erewrite try_catch_run; [|prog_run; reflexivity].
  destruct (documents_upload w (clock rt) file); [done|].
  rewrite refreshDocuments_run.
  by destruct (documents_list w _ None).
Qed.

End document_context_facts.

(** C6.  A successful [deleteDocument id] resolves and leaves the
    document list filtered: the entries whose id is the deleted id are
    gone and the others are kept as they were, in their order; a failed
    request rejects with its error and leaves the list as it was. *)
Theorem C6_deleteDocument_filters
    (w : World) (documentId : string) (rt : Runtime) (st : DocumentContext.State) :
  let r := DocumentContext.deleteDocument w documentId rt st in
  let prev := DocumentContext.documents st in
  let next := DocumentContext.documents (state r) in
  match documents_delete w (clock rt) documentId with
  | inr _ =>
      outcome r = inr ()
      ∧ next = filter (λ doc, Document.id doc ≠ documentId) prev
      ∧ (∀ doc, doc ∈ next ↔ doc ∈ prev ∧ Document.id doc ≠ documentId)
      ∧ next `sublist_of` prev
      ∧ (∀ before doc after, prev = before ++ doc :: after →
           Document.id doc ≠ documentId →
           next = filter (λ d, Document.id d ≠ documentId) before
                  ++ doc :: filter (λ d, Document.id d ≠ documentId) after)
  | inl error =>
      outcome r = inl error ∧ next = prev
  end.
Proof.
  intros r prev next. subst r prev next.
  rewrite deleteDocument_run.
  destruct (documents_delete w (clock rt) documentId) as [error|[]]; simpl.
  - done.
  - split; [done|]. split; [done|]. split; [|split].
    + intros doc. rewrite list_elem_of_filter. tauto.
    + apply sublist_filter.
    + intros before doc after -> Hne.
      rewrite filter_app, filter_cons_True by done. done.
Qed.

Lemma C6_deleteDocument_filters_witness :
  DocumentContext.documents
    (state (DocumentContext.deleteDocument Scenario.answering "d1" Scenario.boot
              (DocumentUpload.context Scenario.listing)))
  = [Scenario.doc "d2" false; Scenario.doc "d3" true].
Proof.
  pose proof (C6_deleteDocument_filters Scenario.answering "d1" Scenario.boot
                (DocumentUpload.context Scenario.listing)) as H.
  cbv zeta in H.
  change (documents_delete Scenario.answering (clock Scenario.boot) "d1") with (@inr Err () ()) in H.
  cbv iota in H.
  destruct H as (_ & _ & _ & _ & H).
  rewrite (H [Scenario.doc "d1" true] (Scenario.doc "d2" false)
             [Scenario.doc "d1" true; Scenario.doc "d3" true]).
  - reflexivity.
  - reflexivity.
  - vm_compute. discriminate.
Defined.

(** ** ChatInterface: the documents offered for selection *)

Section chat_interface_facts.
Context (w : World).
Implicit Types (rt : Runtime) (st : ChatInterface.State).
Import ChatInterface.

Lemma fetchDocuments_run rt st :
  fetchDocuments w rt st
  = match documents_list w (clock rt) (Some (0, 100)) with
    | inr response =>
        mkResult (inr ()) (tick rt)
          (setDocuments (filter (λ doc, Document.processed doc = true) response) st)
          [Http (GetDocumentsList (Some (0, 100))) true]
    | inl _ =>
        mkResult (inr ()) (tick rt) st
          [Http (GetDocumentsList (Some (0, 100))) false; ConsoleError "API Error:";
           ConsoleError "Failed to fetch documents:"]
    end.
Proof.
  unfold fetchDocuments. prog_run.
  erewrite try_catch_run; [|prog_run; reflexivity].
  by destruct (documents_list w (clock rt) (Some (0, 100))).
Qed.

Lemma step_documents_processed st st' :
  step w st st' →
  Forall (λ doc, Document.processed doc = true) (documents st) →
  Forall (λ doc, Document.processed doc = true) (documents st').
Proof.
  intros Hstep Hinv. inversion Hstep; subst; clear Hstep.
  - rewrite fetchDocuments_run.
    destruct (documents_list w (clock rt) (Some (0, 100))) as [error|response]; [done|].
    simpl. apply Forall_forall. intros doc Hdoc.
    by apply list_elem_of_filter in Hdoc as [Hp _].
  - done.
  - done.
  - done.
Qed.

Lemma reachable_documents_processed st :
  reachable w st → Forall (λ doc, Document.processed doc = true) (documents st).
Proof.
  induction 1 as [|st st' _ IH Hstep].
  - constructor.
  - by eapply step_documents_processed.
Qed.

End chat_interface_facts.

(** C10.  [fetchDocuments] of the chat interface stores the answer of
    the list endpoint with every unprocessed document filtered out (and
    stores nothing when the request fails), so in every state the chat
    interface can reach, each document offered for selection has its
    [processed] flag set. *)
Theorem C10_chat_documents_are_processed (w : World) :
  (∀ rt st,
     ChatInterface.documents (state (ChatInterface.fetchDocuments w rt st))
     = match documents_list w (clock rt) (Some (0, 100)) with
       | inr response => filter (λ doc, Document.processed doc = true) response
       | inl _ => ChatInterface.documents st
       end)
  ∧ (∀ rt st doc,
       doc ∈ ChatInterface.documents (state (ChatInterface.fetchDocuments w rt st)) →
       doc ∈ ChatInterface.documents st ∨ Document.processed doc = true)
  ∧ (∀ st doc,
       ChatInterface.reachable w st →
       doc ∈ ChatInterface.documents st →
       Document.processed doc = true).
Proof.
  split; [|split].
  - intros rt st. rewrite fetchDocuments_run.
    by destruct (documents_list w (clock rt) (Some (0, 100))).
  - intros rt st doc. rewrite fetchDocuments_run.
    destruct (documents_list w (clock rt) (Some (0, 100))) as [error|response]; simpl.
    + by left.
    + intros [Hp _]%list_elem_of_filter. by right.
  - intros st doc Hreach Hdoc.
    pose proof (reachable_documents_processed w st Hreach) as Hall.
    rewrite Forall_forall in Hall. by apply Hall.
Qed.

Lemma C10_chat_documents_are_processed_witness :
  ChatInterface.documents
    (state (ChatInterface.fetchDocuments Scenario.answering Scenario.boot ChatInterface.initial))
  = [Scenario.doc "d1" true; Scenario.doc "d3" true]
  ∧ Document.processed (Scenario.doc "d3" true) = true.
Proof.
  split; [reflexivity|].
  apply (proj2 (proj2 (C10_chat_documents_are_processed Scenario.answering))
           (state (ChatInterface.fetchDocuments Scenario.answering Scenario.boot
                     ChatInterface.initial))).
  - eapply ChatInterface.reachable_step; [apply ChatInterface.reachable_initial|].
    apply ChatInterface.step_fetch.
  - change (Scenario.doc "d3" true ∈ [Scenario.doc "d1" true; Scenario.doc "d3" true]).
    apply list_elem_of_further, list_elem_of_here.
Defined.

(** ** KnowledgeBase.handleSearch *)

Section search_facts.
Context (w : World).
Implicit Types (rt : Runtime) (st : KnowledgeBase.State).
Import KnowledgeBase.

(** The three ways [handleSearch] can go. *)
Lemma handleSearch_run rt st :
  handleSearch w rt st
  = if JsString.blank (searchQuery st) then mkResult (inr ()) rt st []
    else
      match knowledge_search w (clock rt) (searchRequest st) with
      | inr results =>
          mkResult (inr ()) (tick rt)
            (setIsSearching false (setSearchResults results (setIsSearching true st)))
            (Http (PostKnowledgeSearch (searchRequest st)) true ::
             (if decide (length results = 0%nat)
              then [Toast ToastPlain "No results found. Try a different query."]
              else []))
      | inl error =>
          mkResult (inr ()) (tick rt)
            (setIsSearching false (setIsSearching true st))
            [ Http (PostKnowledgeSearch (searchRequest st)) false; ConsoleError "API Error:";
              Toast ToastError "Search failed. Please try again.";
              ConsoleError "Search error:" ]
      end.
Proof.
  unfold handleSearch. prog_run.
  destruct (JsString.blank (searchQuery st)); [done|].
  prog_run.
  erewrite finally_run;
    [|erewrite try_catch_run; [|prog_run; reflexivity]; reflexivity].
  change (searchRequest (setIsSearching true st)) with (searchRequest st).
  destruct (knowledge_search w (clock rt) (searchRequest st)) as [error|results].
  - reflexivity.
  - prog_run. destruct (decide (length results = 0%nat)); reflexivity.
Qed.

End search_facts.

(** C5.  A search that succeeds with no result is not an error: the
    displayed results become the empty list, the handler completes, and
    neither the error toast nor the error log is produced (the user sees
    the plain "No results found" toast).  The error toast appears only
    in a run whose search request failed. *)
Theorem C5_empty_search_is_not_an_error (w : World) (rt : Runtime) (st : KnowledgeBase.State) :
  let r := KnowledgeBase.handleSearch w rt st in
  (JsString.blank (KnowledgeBase.searchQuery st) = false →
   knowledge_search w (clock rt) (KnowledgeBase.searchRequest st) = inr [] →
   outcome r = inr ()
   ∧ KnowledgeBase.searchResults (state r) = []
   ∧ KnowledgeBase.isSearching (state r) = false
   ∧ (∀ text, Toast ToastError text ∉ trace r)
   ∧ (∀ label, ConsoleError label ∉ trace r)
   ∧ trace r = [ Http (PostKnowledgeSearch (KnowledgeBase.searchRequest st)) true;
                 Toast ToastPlain "No results found. Try a different query." ])
  ∧ (∀ text, Toast ToastError text ∈ trace r →
       JsString.blank (KnowledgeBase.searchQuery st) = false
       ∧ ∃ error,
           knowledge_search w (clock rt) (KnowledgeBase.searchRequest st) = inl error).
Proof.
  intros r. subst r. rewrite handleSearch_run.
  split.
  - intros Hq Hempty. rewrite Hq, Hempty. simpl.
    repeat split; try done.
    + intros text Hin. apply elem_of_cons in Hin as [Heq|Hin]; [discriminate|].
      apply list_elem_of_singleton in Hin. discriminate.
    + intros label Hin. apply elem_of_cons in Hin as [Heq|Hin]; [discriminate|].
      apply list_elem_of_singleton in Hin. discriminate.
  - intros text Hin.
    destruct (JsString.blank (KnowledgeBase.searchQuery st)).
    + simpl in Hin. by apply not_elem_of_nil in Hin.
    + split; [done|].
      destruct (knowledge_search w (clock rt) (KnowledgeBase.searchRequest st))
        as [error|results]; [by eexists|].
      simpl in Hin.
      apply elem_of_cons in Hin as [Heq|Hin]; [discriminate|].
      destruct (decide (length results = 0%nat)).
      * apply list_elem_of_singleton in Hin. discriminate.
      * by apply not_elem_of_nil in Hin.
Qed.

Lemma C5_empty_search_is_not_an_error_witness :
  outcome (KnowledgeBase.handleSearch Scenario.answering Scenario.boot Scenario.searching)
  = inr ()
  ∧ KnowledgeBase.searchResults
      (state (KnowledgeBase.handleSearch Scenario.answering Scenario.boot Scenario.searching))
    = []
  ∧ (∃ error,
       knowledge_search Scenario.unavailable (clock Scenario.boot)
         (KnowledgeBase.searchRequest Scenario.searching) = inl error).
Proof.
  destruct (proj1 (C5_empty_search_is_not_an_error Scenario.answering Scenario.boot
                     Scenario.searching) eq_refl eq_refl) as (Hout & Hres & _).
  split; [exact Hout|]. split; [exact Hres|].
  apply (proj2 (C5_empty_search_is_not_an_error Scenario.unavailable Scenario.boot
                  Scenario.searching) "Search failed. Please try again.").
  rewrite handleSearch_run. simpl.
  do 2 apply list_elem_of_further. apply list_elem_of_here.
Defined.

Example blank_examples :
  JsString.blank "" = true
  ∧ JsString.blank (String " " (String (ascii_of_nat 9) (String (ascii_of_nat 10) " "))) = true
  ∧ JsString.blank " budget " = false
  ∧ JsString.blank (String (ascii_of_nat 194) (String (ascii_of_nat 160) " ")) = true
  ∧ JsString.blank (String (ascii_of_nat 226) (String (ascii_of_nat 128)
                      (String (ascii_of_nat 168) ""))) = true
  ∧ JsString.blank (String (ascii_of_nat 226) (String (ascii_of_nat 130)
                      (String (ascii_of_nat 172) ""))) = false.
Proof. repeat split. Qed.

(** ** DocumentUpload: the drop zone, uploads and deletions *)

Section for_of_facts.
Context {St A : Type}.
Implicit Types (rt : Runtime) (st : St) (body : A → Prog St unit).

Lemma for_of_nil body rt st : for_of [] body rt st = mkResult (inr ()) rt st [].
Proof. done. Qed.

Lemma for_of_cons body x xs rt st (r : Result St unit) :
  body x rt st = r →
  outcome r = inr () →
  for_of (x :: xs) body rt st = prepend (trace r) (for_of xs body (runtime r) (state r)).
Proof. intros <- Hout. simpl. unfold bind. by rewrite Hout. Qed.

End for_of_facts.

Section document_upload_facts.
Context (w : World).
Implicit Types (rt : Runtime) (st : DocumentUpload.State) (file : File.t).
Import DocumentUpload.

(** One turn of the loop of [onDrop]. *)
Lemma uploadOne_run file rt st :
  uploadOne w file rt st
  = let fileId := File.name file +:+ "-" +:+ pretty (Date_now w (clock rt)) in
    let listeners :=
      EventEmitter.registrations DOCUMENT_EVENTS.UPLOADED (documentEvents rt) in
    match documents_upload w (S (clock rt)) file with
    | inl _ =>
        mkResult (inr ()) (tick (tick rt))
          (mkState ((uploadingFiles st ∪ {[fileId]}) ∖ {[fileId]}) (context st))
          [ Http (PostDocumentsUpload file) false; ConsoleError "API Error:";
            ConsoleError "Failed to upload document:";
            Toast ToastError ("Failed to upload " +:+ File.name file);
            ConsoleError "Upload error:" ]
    | inr _ =>
        match documents_list w (S (S (clock rt))) None with
        | inl _ =>
            mkResult (inr ()) (tick (tick (tick rt)))
              (mkState ((uploadingFiles st ∪ {[fileId]}) ∖ {[fileId]}) (context st))
              ([ Http (PostDocumentsUpload file) true;
                 Http (GetDocumentsList None) false; ConsoleError "API Error:";
                 ConsoleError "Failed to fetch documents:";
                 Toast ToastSuccess (File.name file +:+ " uploaded successfully");
                 Emitted DOCUMENT_EVENTS.UPLOADED ] ++ (Called <$> listeners))
        | inr response =>
            mkResult (inr ()) (tick (tick (tick rt)))
              (mkState ((uploadingFiles st ∪ {[fileId]}) ∖ {[fileId]})
                       (DocumentContext.mkState response))
              ([ Http (PostDocumentsUpload file) true;
                 Http (GetDocumentsList None) true;
                 Toast ToastSuccess (File.name file +:+ " uploaded successfully");
                 Emitted DOCUMENT_EVENTS.UPLOADED ] ++ (Called <$> listeners))
        end
    end.
Proof.
  unfold uploadOne. prog_run.
  erewrite finally_run.
  2:{ erewrite try_catch_run; [reflexivity|].
      erewrite bind_run; [reflexivity|].
      unfold useDocuments, zoom. rewrite uploadDocument_run, refreshDocuments_run.
      reflexivity. }
  cbn [context uploadingFiles setUploadingFiles clock tick].
  destruct (documents_upload w (S (clock rt)) file) as [error|[]].
  - prog_run. prog_end. reflexivity.
  - destruct (documents_list w (S (S (clock rt))) None) as [error|response].
    + prog_run. prog_end. reflexivity.
    + prog_run. prog_end. reflexivity.
Qed.

End document_upload_facts.

Section observation_facts.
Implicit Types (tr : list Effect) (ls : list Listener).

Lemma upload_requests_app tr1 tr2 :
  upload_requests (tr1 ++ tr2) = upload_requests tr1 ++ upload_requests tr2.
Proof. apply omap_app. Qed.

Lemma uploads_done_app tr1 tr2 :
  uploads_done (tr1 ++ tr2) = uploads_done tr1 ++ uploads_done tr2.
Proof. apply omap_app. Qed.

Lemma calls_app tr1 tr2 : calls (tr1 ++ tr2) = calls tr1 ++ calls tr2.
Proof. apply omap_app. Qed.

Lemma marks_app tr1 tr2 : marks (tr1 ++ tr2) = marks tr1 ++ marks tr2.
Proof. apply omap_app. Qed.

Lemma upload_requests_called ls : upload_requests (Called <$> ls) = [].
Proof. induction ls; [done|]. simpl. done. Qed.

Lemma uploads_done_called ls : uploads_done (Called <$> ls) = [].
Proof. induction ls; [done|]. simpl. done. Qed.

Lemma marks_called ls : marks (Called <$> ls) = [].
Proof. induction ls; [done|]. simpl. done. Qed.

Lemma calls_called ls : calls (Called <$> ls) = ls.
Proof. induction ls as [|l ls IH]; [done|]. simpl. f_equal. exact IH. Qed.

End observation_facts.

Section upload_loop_facts.
Context (w : World).
Implicit Types (rt : Runtime) (st : DocumentUpload.State) (file : File.t).
Import DocumentUpload.

Lemma uploadOne_observed file rt st :
  let r := uploadOne w file rt st in
  let ok := succeeded (documents_upload w (S (clock rt)) file) in
  outcome r = inr ()
  ∧ documentEvents (runtime r) = documentEvents rt
  ∧ upload_requests (trace r) = [file]
  ∧ uploads_done (trace r) = (if ok then [file] else [])
  ∧ marks (trace r)
    = (if ok then [Uploaded file; Notified DOCUMENT_EVENTS.UPLOADED] else [])
  ∧ calls (trace r)
    = (if ok
       then EventEmitter.registrations DOCUMENT_EVENTS.UPLOADED (documentEvents rt)
       else []).
Proof.
  intros r ok. subst r ok. rewrite uploadOne_run. cbv zeta.
  destruct (documents_upload w (S (clock rt)) file) as [error|[]]; [done|].
  destruct (documents_list w (S (S (clock rt))) None) as [error|response];
    cbn [outcome runtime trace state succeeded tick documentEvents];
    rewrite upload_requests_app, uploads_done_app, marks_app, calls_app,
      upload_requests_called, uploads_done_called, marks_called, calls_called;
    done.
Qed.

(** The loop of [onDrop]: one upload request per file, in order; each
    upload the backend accepted is followed by one emission of
    [UPLOADED], which calls the listeners registered for it. *)
Lemma upload_loop files rt st :
  let r := for_of files (uploadOne w) rt st in
  outcome r = inr ()
  ∧ documentEvents (runtime r) = documentEvents rt
  ∧ upload_requests (trace r) = files
  ∧ marks (trace r)
    = uploads_done (trace r) ≫= (λ f, [Uploaded f; Notified DOCUMENT_EVENTS.UPLOADED])
  ∧ calls (trace r)
    = uploads_done (trace r) ≫=
        (λ _, EventEmitter.registrations DOCUMENT_EVENTS.UPLOADED (documentEvents rt)).
Proof.
  revert rt st. induction files as [|file files IH]; intros rt st; [done|].
  destruct (uploadOne_observed file rt st) as (Hout & Hev & Hreq & Hdone & Hmarks & Hcalls).
  cbv zeta. erewrite for_of_cons; [|reflexivity|exact Hout].
  destruct (IH (runtime (uploadOne w file rt st)) (state (uploadOne w file rt st)))
    as (IHout & IHev & IHreq & IHdone & IHcalls).
  cbn [outcome runtime trace prepend].
  rewrite upload_requests_app, uploads_done_app, marks_app, calls_app, !bind_app.
  rewrite Hreq, IHreq, IHdone, IHcalls, Hmarks, Hcalls, Hdone, IHev, Hev.
  repeat split; try done.
  - by destruct (succeeded _).
  - by destruct (succeeded _); simpl; rewrite ?app_nil_r.
Qed.

Lemma onDrop_observed files rt st :
  let r := onDrop w files rt st in
  outcome r = inr ()
  ∧ upload_requests (trace r) = files
  ∧ marks (trace r)
    = uploads_done (trace r) ≫= (λ f, [Uploaded f; Notified DOCUMENT_EVENTS.UPLOADED])
  ∧ calls (trace r)
    = uploads_done (trace r) ≫=
        (λ _, EventEmitter.registrations DOCUMENT_EVENTS.UPLOADED (documentEvents rt)).
Proof.
  destruct (upload_loop files rt st) as (Hout & Hev & Hreq & Hmarks & Hcalls).
  cbv zeta. unfold onDrop. prog_run.
  erewrite bind_run; [|reflexivity]. rewrite Hout. prog_end.
  rewrite upload_requests_app, uploads_done_app, marks_app, calls_app, Hreq, Hmarks, Hcalls.
  simpl. rewrite !app_nil_r. done.
Qed.

Lemma handleDelete_run documentId rt st :
  handleDelete w documentId rt st
  = if confirm w (clock rt) then
      match documents_delete w (S (clock rt)) documentId with
      | inl _ =>
          mkResult (inr ()) (tick (tick rt)) st
            [ Http (DeleteDocument documentId) false; ConsoleError "API Error:";
              ConsoleError "Failed to delete document:";
              Toast ToastError "Failed to delete document";
              ConsoleError "Delete error:" ]
      | inr _ =>
          mkResult (inr ()) (tick (tick rt))
            (mkState (uploadingFiles st)
               (DocumentContext.setDocuments
                  (λ prev, filter (λ doc, Document.id doc ≠ documentId) prev) (context st)))
            ([ Http (DeleteDocument documentId) true;
               Toast ToastSuccess "Document deleted successfully";
               Spawned DocumentContext_refreshDocuments;
               Emitted DOCUMENT_EVENTS.DELETED ]
             ++ (Called <$> EventEmitter.registrations DOCUMENT_EVENTS.DELETED
                              (documentEvents rt)))
      end
    else mkResult (inr ()) (tick rt) st [].
Proof.
  unfold handleDelete. prog_run.
  destruct (confirm w (clock rt)); [|done].
  erewrite try_catch_run.
  2:{ erewrite bind_run; [reflexivity|].
      unfold useDocuments, zoom. rewrite deleteDocument_run. reflexivity. }
  cbn [clock tick].
  destruct (documents_delete w (S (clock rt)) documentId) as [error|[]].
  - prog_run. prog_end. by destruct st.
  - prog_run. prog_end. reflexivity.
Qed.

End upload_loop_facts.

(** ** KnowledgeBase: deletion, subscription and refetching *)

Section knowledge_base_facts.
Context (w : World).
Implicit Types (rt : Runtime) (st : KnowledgeBase.State).
Import KnowledgeBase.

Lemma kb_deleteDocument_run documentId rt st :
  deleteDocument w documentId rt st
  = if confirm w (clock rt) then
      match documents_delete w (S (clock rt)) documentId with
      | inl _ =>
          mkResult (inr ()) (tick (tick rt)) st
            [ Http (DeleteDocument documentId) false; ConsoleError "API Error:";
              Toast ToastError "Failed to delete document";
              ConsoleError "Delete error:" ]
      | inr _ =>
          mkResult (inr ()) (tick (tick rt)) (setIsLoadingDocs true st)
            ([ Http (DeleteDocument documentId) true;
               Toast ToastSuccess "Document deleted successfully";
               Spawned KnowledgeBase_fetchDocuments;
               Spawned KnowledgeBase_fetchStats;
               Emitted DOCUMENT_EVENTS.DELETED ]
             ++ (Called <$> EventEmitter.registrations DOCUMENT_EVENTS.DELETED
                              (documentEvents rt)))
      end
    else mkResult (inr ()) (tick rt) st [].
Proof.
  unfold deleteDocument. kb_run.
  destruct (confirm w (clock rt)); [|done].
  erewrite try_catch_run; [|kb_run; reflexivity].
  cbn [clock tick].
  destruct (documents_delete w (S (clock rt)) documentId) as [error|[]].
  - kb_run. prog_end. reflexivity.
  - kb_run. prog_end. reflexivity.
Qed.

Lemma kb_fetchDocuments_run rt st :
  fetchDocuments w rt st
  = match documents_list w (clock rt) (Some (0, 100)) with
    | inr response =>
        mkResult (inr ()) (tick rt)
          (setIsLoadingDocs false (setDocuments response (setIsLoadingDocs true st)))
          [Http (GetDocumentsList (Some (0, 100))) true]
    | inl _ =>
        mkResult (inr ()) (tick rt) (setIsLoadingDocs false (setIsLoadingDocs true st))
          [ Http (GetDocumentsList (Some (0, 100))) false; ConsoleError "API Error:";
            ConsoleError "Failed to fetch documents:";
            Toast ToastError "Failed to load documents" ]
    end.
Proof.
  unfold fetchDocuments. prog_run.
  erewrite finally_run;
    [|erewrite try_catch_run; [|prog_run; reflexivity]; reflexivity].
  destruct (documents_list w (clock rt) (Some (0, 100))) as [error|response].
  - prog_run. prog_end. reflexivity.
  - prog_end. reflexivity.
Qed.

Lemma kb_fetchStats_run rt st :
  fetchStats w rt st
  = match knowledge_statistics w (clock rt) with
    | inr response =>
        mkResult (inr ()) (tick rt) (setStats (Some response) st)
          [Http GetKnowledgeStatistics true]
    | inl _ =>
        mkResult (inr ()) (tick rt) st
          [Http GetKnowledgeStatistics false;
           ConsoleError "API Error:"; ConsoleError "Failed to fetch stats:"]
    end.
Proof.
  unfold fetchStats. prog_run.
  erewrite try_catch_run; [|prog_run; reflexivity].
  by destruct (knowledge_statistics w (clock rt)).
Qed.

(** The mount effect registers the listener at the end of the arrays of
    both events. *)
Lemma kb_mount_registrations closure rt st :
  let rt' := runtime (mount closure rt st) in
  EventEmitter.registrations DOCUMENT_EVENTS.UPLOADED (documentEvents rt')
  = EventEmitter.registrations DOCUMENT_EVENTS.UPLOADED (documentEvents rt)
    ++ [KnowledgeBase_handleDocumentChange closure]
  ∧ EventEmitter.registrations DOCUMENT_EVENTS.DELETED (documentEvents rt')
    = EventEmitter.registrations DOCUMENT_EVENTS.DELETED (documentEvents rt)
      ++ [KnowledgeBase_handleDocumentChange closure].
Proof.
  unfold mount. kb_run. unfold documentEvents_on, bind. prog_simpl.
  split.
  - rewrite registrations_on_ne by done. apply registrations_on.
  - rewrite registrations_on. by rewrite registrations_on_ne.
Qed.

(** The cleanup of the effect removes it from both. *)
Lemma kb_unmount_registrations closure rt st :
  let rt' := runtime (unmount closure rt st) in
  KnowledgeBase_handleDocumentChange closure
  ∉ EventEmitter.registrations DOCUMENT_EVENTS.UPLOADED (documentEvents rt')
    ++ EventEmitter.registrations DOCUMENT_EVENTS.DELETED (documentEvents rt').
Proof.
  unfold unmount. kb_run. unfold documentEvents_off, bind. prog_simpl.
  rewrite registrations_off_ne by done. rewrite !registrations_off.
  intros [Hin|Hin]%elem_of_app; by apply list_elem_of_filter in Hin as [Hne _].
Qed.

End knowledge_base_facts.

(** C7.  Document changes are announced on the shared [documentEvents]
    emitter.  In a run of [onDrop], every upload the backend accepted
    is followed by one emission of [UPLOADED], and nothing else is
    emitted; a deletion the backend accepted, from the document view or
    from the knowledge-base view, is followed by one emission of
    [DELETED]; each emission calls the listeners registered for the
    event.  Once the knowledge-base view is mounted its listener is
    registered for both events, so each such emission calls it, and a
    call of it starts [fetchDocuments] and [fetchStats], which request
    the document list and the statistics and store the answers. *)
Theorem C7_document_events_flow (w : World) :
  (∀ files rt st,
     let tr := trace (DocumentUpload.onDrop w files rt st) in
     marks tr = uploads_done tr ≫= (λ f, [Uploaded f; Notified DOCUMENT_EVENTS.UPLOADED])
     ∧ calls tr
       = uploads_done tr ≫=
           (λ _, EventEmitter.registrations DOCUMENT_EVENTS.UPLOADED (documentEvents rt)))
  ∧ (∀ documentId rt st,
       let ok := confirm w (clock rt)
                 && succeeded (documents_delete w (S (clock rt)) documentId) in
       let listeners :=
         EventEmitter.registrations DOCUMENT_EVENTS.DELETED (documentEvents rt) in
       (marks (trace (DocumentUpload.handleDelete w documentId rt st))
        = (if ok then [Deleted documentId; Notified DOCUMENT_EVENTS.DELETED] else [])
        ∧ calls (trace (DocumentUpload.handleDelete w documentId rt st))
          = (if ok then listeners else []))
       ∧ ∀ st',
           marks (trace (KnowledgeBase.deleteDocument w documentId rt st'))
           = (if ok then [Deleted documentId; Notified DOCUMENT_EVENTS.DELETED] else [])
           ∧ calls (trace (KnowledgeBase.deleteDocument w documentId rt st'))
             = (if ok then listeners else []))
  ∧ (∀ closure rt st event (St : Type) (st' : St),
       event = DOCUMENT_EVENTS.UPLOADED ∨ event = DOCUMENT_EVENTS.DELETED →
       Called (KnowledgeBase_handleDocumentChange closure)
       ∈ trace (documentEvents_emit event (runtime (KnowledgeBase.mount closure rt st)) st'))
  ∧ (∀ closure rt st,
       trace (KnowledgeBase.call (KnowledgeBase_handleDocumentChange closure) rt st)
       = [Spawned KnowledgeBase_fetchDocuments; Spawned KnowledgeBase_fetchStats])
  ∧ (∀ rt st,
       let r := KnowledgeBase.start w KnowledgeBase_fetchDocuments rt st in
       match documents_list w (clock rt) (Some (0, 100)) with
       | inr response =>
           trace r = [Http (GetDocumentsList (Some (0, 100))) true]
           ∧ KnowledgeBase.documents (state r) = response
       | inl _ =>
           (∃ rest, trace r = Http (GetDocumentsList (Some (0, 100))) false :: rest)
           ∧ KnowledgeBase.documents (state r) = KnowledgeBase.documents st
       end)
  ∧ (∀ rt st,
       let r := KnowledgeBase.start w KnowledgeBase_fetchStats rt st in
       match knowledge_statistics w (clock rt) with
       | inr response =>
           trace r = [Http GetKnowledgeStatistics true]
           ∧ KnowledgeBase.stats (state r) = Some response
       | inl _ =>
           (∃ rest, trace r = Http GetKnowledgeStatistics false :: rest)
           ∧ KnowledgeBase.stats (state r) = KnowledgeBase.stats st
       end).
Proof.
  repeat apply conj.
  - intros files rt st.
    destruct (onDrop_observed w files rt st) as (_ & _ & Hmarks & Hcalls). done.
  - intros documentId rt st ok listeners. subst ok listeners. split.
    + rewrite handleDelete_run.
      destruct (confirm w (clock rt)); [|done].
      destruct (documents_delete w (S (clock rt)) documentId) as [error|[]]; [done|].
      cbn [trace andb succeeded].
      by rewrite marks_app, calls_app, marks_called, calls_called.
    + intros st'. rewrite kb_deleteDocument_run.
      destruct (confirm w (clock rt)); [|done].
      destruct (documents_delete w (S (clock rt)) documentId) as [error|[]]; [done|].
      cbn [trace andb succeeded].
      by rewrite marks_app, calls_app, marks_called, calls_called.
  - intros closure rt st event St st' Hevent.
    destruct (kb_mount_registrations closure rt st) as [Hup Hdel].
    rewrite run_emit. cbn [trace].
    apply list_elem_of_further, list_elem_of_fmap.
    exists (KnowledgeBase_handleDocumentChange closure). split; [done|].
    destruct Hevent as [-> | ->].
    + rewrite Hup. apply elem_of_app. right. apply list_elem_of_here.
    + rewrite Hdel. apply elem_of_app. right. apply list_elem_of_here.
  - done.
  - intros rt st. cbn [KnowledgeBase.start]. rewrite kb_fetchDocuments_run.
    destruct (documents_list w (clock rt) (Some (0, 100))); [|done].
    split; [by eexists | done].
  - intros rt st. cbn [KnowledgeBase.start]. rewrite kb_fetchStats_run.
    destruct (knowledge_statistics w (clock rt)); [|done].
    split; [by eexists | done].
Qed.

Lemma C7_document_events_flow_witness :
  Called (KnowledgeBase_handleDocumentChange 1)
  ∈ trace (documentEvents_emit DOCUMENT_EVENTS.UPLOADED Scenario.knowledge_view
             Scenario.listing)
  ∧ marks (trace (DocumentUpload.onDrop Scenario.answering [Scenario.report_pdf]
                    Scenario.knowledge_view Scenario.listing))
    = [Uploaded Scenario.report_pdf; Notified DOCUMENT_EVENTS.UPLOADED]
  ∧ calls (trace (DocumentUpload.onDrop Scenario.answering [Scenario.report_pdf]
                    Scenario.knowledge_view Scenario.listing))
    = [KnowledgeBase_handleDocumentChange 1].
Proof.
  split.
  - apply (proj1 (proj2 (proj2 (C7_document_events_flow Scenario.answering)))
             1%nat Scenario.boot KnowledgeBase.initial DOCUMENT_EVENTS.UPLOADED).
    left. reflexivity.
  - destruct (proj1 (C7_document_events_flow Scenario.answering) [Scenario.report_pdf]
                Scenario.knowledge_view Scenario.listing) as [Hmarks Hcalls].
    split.
    + rewrite Hmarks. reflexivity.
    + rewrite Hcalls. reflexivity.
Defined.

(** ** The drop zone *)

Section dropzone_facts.
Implicit Types (file : File.t) (files : list File.t).

(** The accepted types, read off the [accept] table of the drop zone:
    the six MIME types and the seven extensions. *)
Lemma fileAccepted_table file :
  Dropzone.fileAccepted file (Dropzone.accept DocumentUpload.dropzoneOptions)
  = existsb (String.eqb (JsString.toLowerCase (File.type file)))
      [ "application/pdf";
        "application/vnd.openxmlformats-officedocument.wordprocessingml.document";
        "text/plain"; "text/markdown"; "image/jpeg"; "image/png" ]
    || existsb (JsString.endsWith (JsString.toLowerCase (File.name file)))
         [ ".pdf"; ".docx"; ".txt"; ".md"; ".jpg"; ".jpeg"; ".png" ].
Proof.
  unfold Dropzone.fileAccepted.
  cbn [existsb Dropzone.accept DocumentUpload.dropzoneOptions fst snd].
  change (JsString.toLowerCase "application/pdf") with "application/pdf".
  change (JsString.toLowerCase
            "application/vnd.openxmlformats-officedocument.wordprocessingml.document")
    with "application/vnd.openxmlformats-officedocument.wordprocessingml.document".
  change (JsString.toLowerCase "text/plain") with "text/plain".
  change (JsString.toLowerCase "text/markdown") with "text/markdown".
  change (JsString.toLowerCase "image/jpeg") with "image/jpeg".
  change (JsString.toLowerCase "image/png") with "image/png".
  change (JsString.toLowerCase ".pdf") with ".pdf".
  change (JsString.toLowerCase ".docx") with ".docx".
  change (JsString.toLowerCase ".txt") with ".txt".
  change (JsString.toLowerCase ".md") with ".md".
  change (JsString.toLowerCase ".jpg") with ".jpg".
  change (JsString.toLowerCase ".jpeg") with ".jpeg".
  change (JsString.toLowerCase ".png") with ".png".
  repeat match goal with
         | |- context [ (?a =? ?b)%string ] => destruct (a =? b)%string; simpl
         end;
  rewrite ?orb_true_r; try reflexivity.
  repeat match goal with
         | |- context [ JsString.endsWith ?a ?b ] => destruct (JsString.endsWith a b); simpl
         end; reflexivity.
Qed.

Lemma accepted_spec file :
  Dropzone.accepted DocumentUpload.dropzoneOptions file = true
  ↔ Dropzone.fileAccepted file (Dropzone.accept DocumentUpload.dropzoneOptions) = true
    ∧ File.size file ≤ 10485760.
Proof.
  unfold Dropzone.accepted, Dropzone.fileMatchSize. cbn [Dropzone.maxSize DocumentUpload.dropzoneOptions].
  rewrite andb_true_iff, negb_true_iff, Z.ltb_ge. done.
Qed.

Lemma acceptedFiles_spec file files :
  file ∈ Dropzone.acceptedFiles DocumentUpload.dropzoneOptions files
  ↔ file ∈ files
    ∧ Dropzone.fileAccepted file (Dropzone.accept DocumentUpload.dropzoneOptions) = true
    ∧ File.size file ≤ 10485760.
Proof.
  unfold Dropzone.acceptedFiles.
  rewrite !list_elem_of_In, List.filter_In, accepted_spec. done.
Qed.

Lemma fileRejections_spec file files :
  file ∈ Dropzone.fileRejections DocumentUpload.dropzoneOptions files
  ↔ file ∈ files
    ∧ (Dropzone.fileAccepted file (Dropzone.accept DocumentUpload.dropzoneOptions) = false
       ∨ 10485760 < File.size file).
Proof.
  unfold Dropzone.fileRejections.
  rewrite !list_elem_of_In, List.filter_In, negb_true_iff.
  pose proof (accepted_spec file) as Hacc.
  destruct (Dropzone.accepted DocumentUpload.dropzoneOptions file);
    destruct (Dropzone.fileAccepted file _); intuition (try discriminate; try lia).
Qed.

End dropzone_facts.

(** C3.  The upload requests sent when files are offered to the drop
    zone are those for the accepted files, in order: the files whose
    type is in the [accept] table (PDF, DOCX, plain text, Markdown, JPEG
    or PNG, by MIME type or by extension) and whose size is at most
    10485760 bytes.  A file that is larger, or of another type, is among
    the rejections and no request is sent for it; a file of an accepted
    type and of at most 10485760 bytes is not rejected, and its upload
    is requested. *)
Theorem C3_dropzone_gate (w : World) (files : list File.t) (rt : Runtime)
    (st : DocumentUpload.State) :
  let r := DocumentUpload.drop w files rt st in
  let accept := Dropzone.accept DocumentUpload.dropzoneOptions in
  upload_requests (trace r) = Dropzone.acceptedFiles DocumentUpload.dropzoneOptions files
  ∧ (∀ file,
       10485760 < File.size file ∨ Dropzone.fileAccepted file accept = false →
       (file ∉ upload_requests (trace r))
       ∧ (file ∈ files → file ∈ Dropzone.fileRejections DocumentUpload.dropzoneOptions files))
  ∧ (∀ file,
       file ∈ files →
       Dropzone.fileAccepted file accept = true →
       File.size file ≤ 10485760 →
       file ∈ upload_requests (trace r)
       ∧ file ∉ Dropzone.fileRejections DocumentUpload.dropzoneOptions files)
  ∧ (∀ file,
       Dropzone.fileAccepted file accept
       = existsb (String.eqb (JsString.toLowerCase (File.type file)))
           [ "application/pdf";
             "application/vnd.openxmlformats-officedocument.wordprocessingml.document";
             "text/plain"; "text/markdown"; "image/jpeg"; "image/png" ]
         || existsb (JsString.endsWith (JsString.toLowerCase (File.name file)))
              [ ".pdf"; ".docx"; ".txt"; ".md"; ".jpg"; ".jpeg"; ".png" ]).
Proof.
  intros r accept. subst r accept.
  assert (Hreq : upload_requests (trace (DocumentUpload.drop w files rt st))
                 = Dropzone.acceptedFiles DocumentUpload.dropzoneOptions files).
  { unfold DocumentUpload.drop.
    by destruct (onDrop_observed w
                   (Dropzone.acceptedFiles DocumentUpload.dropzoneOptions files) rt st)
      as (_ & Hreq & _). }
  split; [exact Hreq|]. rewrite Hreq. split; [|split].
  - intros file Hbad. split.
    + rewrite acceptedFiles_spec. intros (_ & Hok & Hsize).
      destruct Hbad as [Hbig|Htype]; [lia|congruence].
    + intros Hin. apply fileRejections_spec. tauto.
  - intros file Hin Hok Hsize. split.
    + by apply acceptedFiles_spec.
    + rewrite fileRejections_spec. intros (_ & [Htype|Hbig]); [congruence|lia].
  - apply fileAccepted_table.
Qed.

Lemma C3_dropzone_gate_witness :
  upload_requests
    (trace (DocumentUpload.drop Scenario.answering
              [Scenario.report_pdf; Scenario.huge_pdf; Scenario.setup_exe; Scenario.notes_md]
              Scenario.boot Scenario.listing))
  = [Scenario.report_pdf; Scenario.notes_md]
  ∧ (Scenario.huge_pdf
     ∉ upload_requests
         (trace (DocumentUpload.drop Scenario.answering
                   [Scenario.report_pdf; Scenario.huge_pdf; Scenario.setup_exe;
                    Scenario.notes_md]
                   Scenario.boot Scenario.listing)))
  ∧ (Scenario.setup_exe
     ∉ upload_requests
         (trace (DocumentUpload.drop Scenario.answering
                   [Scenario.report_pdf; Scenario.huge_pdf; Scenario.setup_exe;
                    Scenario.notes_md]
                   Scenario.boot Scenario.listing)))
  ∧ Scenario.report_pdf
    ∈ upload_requests
        (trace (DocumentUpload.drop Scenario.answering
                  [Scenario.report_pdf; Scenario.huge_pdf; Scenario.setup_exe;
                   Scenario.notes_md]
                  Scenario.boot Scenario.listing)).
Proof.
  pose proof (C3_dropzone_gate Scenario.answering
                [Scenario.report_pdf; Scenario.huge_pdf; Scenario.setup_exe; Scenario.notes_md]
                Scenario.boot Scenario.listing) as (Hreq & Hbad & Hgood & _).
  split; [|split; [|split]].
  - rewrite Hreq. reflexivity.
  - apply Hbad. left. reflexivity.
  - apply Hbad. right. reflexivity.
  - apply Hgood.
    + apply list_elem_of_here.
    + reflexivity.
    + discriminate.
Defined.

(** ** The ingestion pipeline *)

Section ingestion_facts.
Import Ingestion.
Implicit Types (caps : Capabilities) (j : Job) (ix : VectorIndex) (doc : string).

Lemma entries_of_delete doc ix : entries_of doc (delete doc ix) = ∅.
Proof.
  unfold entries_of, delete. simpl. apply map_empty. intros fid.
  apply map_lookup_filter_None. right. intros e He Hdoc.
  apply map_lookup_filter_Some in He as [_ Hne]. done.
Qed.

Lemma delete_other doc ix fid e :
  entries ix !! fid = Some e →
  document_id (metadata e) ≠ doc →
  entries (delete doc ix) !! fid = Some e.
Proof.
  intros He Hne. unfold delete. simpl. by apply map_lookup_filter_Some.
Qed.

Lemma step_document caps j : document (step caps j) = document j.
Proof.
  unfold step. destruct (terminal (status j)); [done|].
  destruct (cancelled caps (status j)); [done|].
  unfold stage. destruct (status j); simpl; try done.
  - by destruct (extract caps (raw j)).
  - by destruct (embed_retry caps 0 (max_attempts caps) (text <$> fragments j)).
  - by destruct (write_all caps (zip (fragments j) (vectors j)) (index j)) as [[f|] ix].
Qed.

Lemma step_terminal caps j : terminal (status j) = true → step caps j = j.
Proof. intros Hterm. unfold step. by rewrite Hterm. Qed.

Lemma steps_document caps n j : document (steps caps n j) = document j.
Proof.
  induction n as [|n IH]; [done|].
  unfold steps in *. simpl. by rewrite step_document.
Qed.

(** A transition into [failed] leaves no entry of the document. *)
Lemma step_failed caps j :
  status (step caps j) = failed →
  status j = failed ∨ entries_of (document j) (index (step caps j)) = ∅.
Proof.
  unfold step. destruct (terminal (status j)) eqn:Hterm; [by left|].
  destruct (cancelled caps (status j)).
  { intros _. right. apply entries_of_delete. }
  unfold stage. destruct (status j); simpl; try done.
  - destruct (extract caps (raw j)); simpl; [|done].
    intros _. right. apply entries_of_delete.
  - destruct (embed_retry caps 0 (max_attempts caps) (text <$> fragments j)); simpl; [done|].
    intros _. right. apply entries_of_delete.
  - destruct (write_all caps (zip (fragments j) (vectors j)) (index j)) as [[f|] ix];
      simpl; [|done].
    intros _. right. apply entries_of_delete.
Qed.

Lemma steps_failed caps n j :
  status j ≠ failed →
  status (steps caps n j) = failed →
  entries_of (document j) (index (steps caps n j)) = ∅.
Proof.
  intros Hstart. induction n as [|n IH]; [done|].
  unfold steps in *. simpl. intros Hfailed.
  destruct (step_failed caps _ Hfailed) as [Hbefore|Hnow].
  - rewrite step_terminal by (by rewrite Hbefore). by apply IH.
  - pose proof (steps_document caps n j) as Hdoc. unfold steps in Hdoc.
    by rewrite Hdoc in Hnow.
Qed.

(** Every ingestion ends: after five transitions the job is
    [processed] or [failed]. *)
Lemma step_progress caps j :
  match status j with
  | pending => status (step caps j) = extracting ∨ status (step caps j) = failed
  | extracting => status (step caps j) = chunking ∨ status (step caps j) = failed
  | chunking => status (step caps j) = embedding ∨ status (step caps j) = failed
  | embedding => status (step caps j) = indexing ∨ status (step caps j) = failed
  | indexing => status (step caps j) = processed ∨ status (step caps j) = failed
  | processed => status (step caps j) = processed
  | failed => status (step caps j) = failed
  end.
Proof.
  unfold step, stage.
  destruct (status j) eqn:Hs; simpl; try done;
    destruct (cancelled caps _); simpl; rewrite ?Hs; auto.
  - destruct (extract caps (raw j)); simpl; auto.
  - destruct (embed_retry caps 0 (max_attempts caps) (text <$> fragments j)); simpl; auto.
  - destruct (write_all caps (zip (fragments j) (vectors j)) (index j)) as [[f|] ix];
      simpl; auto.
Qed.

Lemma ingest_terminal caps doc raw ix :
  terminal (status (ingest caps doc raw ix)) = true.
Proof.
  unfold ingest, steps. simpl.
  set (j0 := submit doc raw ix).
  pose proof (step_progress caps j0) as H1. change (status j0) with pending in H1.
  set (j1 := step caps j0) in *.
  pose proof (step_progress caps j1) as H2. set (j2 := step caps j1) in *.
  pose proof (step_progress caps j2) as H3. set (j3 := step caps j2) in *.
  pose proof (step_progress caps j3) as H4. set (j4 := step caps j3) in *.
  pose proof (step_progress caps j4) as H5. set (j5 := step caps j4) in *.
  destruct H1 as [E1|E1]; rewrite E1 in H2;
    [destruct H2 as [E2|E2]|]; try rewrite E2 in H3; try rewrite H2 in H3;
    [destruct H3 as [E3|E3]| |]; try rewrite E3 in H4; try rewrite H3 in H4;
    [destruct H4 as [E4|E4]| | |]; try rewrite E4 in H5; try rewrite H4 in H5;
    [destruct H5 as [E5|E5]| | | |]; try rewrite E5; try rewrite H5; done.
Qed.

End ingestion_facts.

(** C2.  When the ingestion of a document reaches [failed], after any
    number of transitions and whatever stage failed, the index holds no
    entry that belongs to the document: what was written for it has
    been deleted.  Every ingestion ends [processed] or [failed]. *)
Theorem C2_failed_ingestion_leaves_no_entries
    (caps : Ingestion.Capabilities) (doc raw : string) (ix : Ingestion.VectorIndex)
    (n : nat) :
  Ingestion.status (Ingestion.steps caps n (Ingestion.submit doc raw ix)) = Ingestion.failed →
  Ingestion.entries_of doc
    (Ingestion.index (Ingestion.steps caps n (Ingestion.submit doc raw ix))) = ∅
  ∧ (∀ fragment_id e,
       Ingestion.entries
         (Ingestion.index (Ingestion.steps caps n (Ingestion.submit doc raw ix)))
       !! fragment_id = Some e →
       Ingestion.document_id (Ingestion.metadata e) ≠ doc)
  ∧ Ingestion.terminal (Ingestion.status (Ingestion.ingest caps doc raw ix)) = true.
Proof.
  intros Hfailed.
  pose proof (steps_failed caps n (Ingestion.submit doc raw ix)) as Hnone.
  simpl in Hnone. specialize (Hnone ltac:(discriminate) Hfailed).
  split; [exact Hnone|]. split; [|apply ingest_terminal].
  intros fragment_id e He Hdoc.
  assert (Hin : Ingestion.entries_of doc
                  (Ingestion.index (Ingestion.steps caps n (Ingestion.submit doc raw ix)))
                !! fragment_id = Some e).
  { unfold Ingestion.entries_of. by apply map_lookup_filter_Some. }
  rewrite Hnone in Hin. by rewrite lookup_empty in Hin.
Qed.

Lemma C2_failed_ingestion_leaves_no_entries_witness :
  Ingestion.status
    (Ingestion.steps Scenario.second_write_fails 5
       (Ingestion.submit "doc-9" "alpha beta" Scenario.shelf)) = Ingestion.failed
  ∧ Ingestion.entries_of "doc-9"
      (Ingestion.index
         (Ingestion.steps Scenario.second_write_fails 5
            (Ingestion.submit "doc-9" "alpha beta" Scenario.shelf))) = ∅.
Proof.
  split; [vm_compute; reflexivity|].
  apply (C2_failed_ingestion_leaves_no_entries Scenario.second_write_fails
           "doc-9" "alpha beta" Scenario.shelf 5).
  vm_compute. reflexivity.
Defined.

(** In that run the first fragment is written before the second write
    fails; after the failure it is gone, and the fragment of the other
    document is still there. *)
Example partial_write_is_rolled_back :
  let before := Ingestion.steps Scenario.second_write_fails 4
                  (Ingestion.submit "doc-9" "alpha beta" Scenario.shelf) in
  let after := Ingestion.ingest Scenario.second_write_fails "doc-9" "alpha beta"
                 Scenario.shelf in
  Ingestion.status before = Ingestion.indexing
  ∧ fst (Ingestion.write_all Scenario.second_write_fails
           (zip (Ingestion.fragments before) (Ingestion.vectors before))
           (Ingestion.index before))
    = Some Ingestion.IndexWriteFailed
  ∧ is_Some (Ingestion.entries
               (snd (Ingestion.write_all Scenario.second_write_fails
                       (zip (Ingestion.fragments before) (Ingestion.vectors before))
                       (Ingestion.index before)))
             !! ("doc-9", 0%nat))
  ∧ Ingestion.error after = Some Ingestion.IndexWriteFailed
  ∧ Ingestion.entries (Ingestion.index after) !! ("doc-9", 0%nat) = None
  ∧ is_Some (Ingestion.entries (Ingestion.index after) !! ("other", 0%nat)).
Proof.
  vm_compute. repeat split; eauto.
Qed.

(** * Part III: further properties of the code *)

(** ** The event emitter: independent events, subscribing and unsubscribing *)

(** X1.  Subscribing to or unsubscribing from one event leaves the
    listeners of every other event as they were: an [emit] of another
    event makes the same calls before and after. *)
Theorem X1_emitter_events_are_independent
    (L : Type) (HL : EqDecision L) (Arg : Type)
    (this : EventEmitter.t L) (e e' : string) (l : L) (args : list Arg) :
  e ≠ e' →
  EventEmitter.emit e' args (EventEmitter.on e l this) = EventEmitter.emit e' args this
  ∧ EventEmitter.emit e' args (EventEmitter.off e l this) = EventEmitter.emit e' args this.
Proof.
  intros Hne. rewrite !emit_registrations.
  by rewrite registrations_on_ne, registrations_off_ne.
Qed.

Lemma X1_emitter_events_are_independent_witness :
  EventEmitter.emit "document:deleted" [()]
    (EventEmitter.on "document:uploaded" 2%nat
       (EventEmitter.on "document:deleted" 1%nat EventEmitter.new))
  = [(1%nat, [()])].
Proof.
  rewrite (proj1 (X1_emitter_events_are_independent nat _ unit
                    (EventEmitter.on "document:deleted" 1%nat EventEmitter.new)
                    "document:uploaded" "document:deleted" 2%nat [()] ltac:(discriminate))).
  reflexivity.
Defined.

(** X2.  Unsubscribing a listener right after subscribing it restores
    the listeners of the event when the listener was not subscribed
    before; when it was, its earlier subscriptions are removed too.
    Unsubscribing from an event that never had a listener changes
    nothing, and unsubscribing twice is the same as once. *)
Theorem X2_emitter_on_off_round_trip
    (L : Type) (HL : EqDecision L) (Arg : Type)
    (this : EventEmitter.t L) (e : string) (l : L) (args : list Arg) :
  EventEmitter.registrations e (EventEmitter.off e l (EventEmitter.on e l this))
  = filter (λ x, x ≠ l) (EventEmitter.registrations e this)
  ∧ (l ∉ EventEmitter.registrations e this →
     EventEmitter.emit e args (EventEmitter.off e l (EventEmitter.on e l this))
     = EventEmitter.emit e args this)
  ∧ (EventEmitter.events this !! e = None → EventEmitter.off e l this = this)
  ∧ EventEmitter.registrations e (EventEmitter.off e l (EventEmitter.off e l this))
    = EventEmitter.registrations e (EventEmitter.off e l this).
Proof.
  assert (Hround : EventEmitter.registrations e
                     (EventEmitter.off e l (EventEmitter.on e l this))
                   = filter (λ x, x ≠ l) (EventEmitter.registrations e this)).
  { rewrite registrations_off, registrations_on, filter_app.
    rewrite (filter_cons_False _ l) by (intros Hl; by apply Hl).
    by rewrite filter_nil, app_nil_r. }
  split; [exact Hround|]. split; [|split].
  - intros Hfresh. rewrite !emit_registrations, Hround. f_equal.
    clear Hround. induction (EventEmitter.registrations e this) as [|x xs IH]; [done|].
    apply not_elem_of_cons in Hfresh as [Hx Hxs].
    rewrite filter_cons_True by done. f_equal. by apply IH.
  - intros Hnone. unfold EventEmitter.off. by rewrite Hnone.
  - rewrite !registrations_off. apply list_filter_filter_l. tauto.
Qed.

Lemma X2_emitter_on_off_round_trip_witness :
  EventEmitter.emit "document:deleted" [()]
    (EventEmitter.off "document:deleted" 2%nat
       (EventEmitter.on "document:deleted" 2%nat
          (EventEmitter.on "document:deleted" 1%nat EventEmitter.new)))
  = [(1%nat, [()])].
Proof.
  rewrite (proj1 (proj2 (X2_emitter_on_off_round_trip nat _ unit
                           (EventEmitter.on "document:deleted" 1%nat EventEmitter.new)
                           "document:deleted" 2%nat [()]))).
  - reflexivity.
  - vm_compute. intros Hin. apply list_elem_of_singleton in Hin. discriminate.
Defined.

(** ** DocumentContext and DocumentUpload: uploads and deletions *)

(** X3.  [uploadDocument] rejects exactly when the upload request
    rejects; the document list is then untouched, no list request is
    sent, and the failure is logged twice, by the response interceptor
    and then by the handler.  When the upload succeeds it resolves, and
    the list becomes the answer of the list endpoint, or stays as it
    was when that request fails.  [refreshDocuments] never rejects. *)
Theorem X3_uploadDocument_outcomes
    (w : World) (file : File.t) (rt : Runtime) (st : DocumentContext.State) :
  let r := DocumentContext.uploadDocument w file rt st in
  match documents_upload w (clock rt) file with
  | inl error =>
      outcome r = inl error
      ∧ state r = st
      ∧ trace r = [ Http (PostDocumentsUpload file) false; ConsoleError "API Error:";
                    ConsoleError "Failed to upload document:" ]
  | inr _ =>
      outcome r = inr ()
      ∧ DocumentContext.documents (state r)
        = match documents_list w (S (clock rt)) None with
          | inr response => response
          | inl _ => DocumentContext.documents st
          end
      ∧ ∃ ok rest, trace r = [Http (PostDocumentsUpload file) true;
                              Http (GetDocumentsList None) ok] ++ rest
  end
  ∧ outcome (DocumentContext.refreshDocuments w rt st) = inr ().
Proof.
  intros r. subst r. rewrite uploadDocument_run, !refreshDocuments_run. split.
  - destruct (documents_upload w (clock rt) file) as [error|[]]; [done|].
    cbn [tick clock].
    destruct (documents_list w (S (clock rt)) None); simpl; eauto 10.
  - by destruct (documents_list w (clock rt) None).
Qed.

Section upload_spinner_facts.
Context (w : World).
Implicit Types (rt : Runtime) (st : DocumentUpload.State).

Lemma spinner_restored (uploading : gset string) (fileId : string) :
  (uploading ∪ {[fileId]}) ∖ {[fileId]} ⊆ uploading.
Proof.
  intros x [Hin Hne]%elem_of_difference.
  apply elem_of_union in Hin as [Hin|Hin]; [done|]. contradiction.
Qed.

Lemma uploadOne_spinner file rt st :
  DocumentUpload.uploadingFiles (state (DocumentUpload.uploadOne w file rt st))
  ⊆ DocumentUpload.uploadingFiles st.
Proof.
  rewrite uploadOne_run. cbv zeta.
  destruct (documents_upload w (S (clock rt)) file) as [error|[]].
  - apply spinner_restored.
  - destruct (documents_list w (S (S (clock rt))) None); apply spinner_restored.
Qed.

Lemma upload_loop_spinner files rt st :
  DocumentUpload.uploadingFiles (state (for_of files (DocumentUpload.uploadOne w) rt st))
  ⊆ DocumentUpload.uploadingFiles st.
Proof.
  revert rt st. induction files as [|file files IH]; intros rt st; [done|].
  destruct (uploadOne_observed w file rt st) as (Hout & _).
  erewrite for_of_cons; [|reflexivity|exact Hout].
  cbn [state prepend]. etrans; [apply IH|]. apply uploadOne_spinner.
Qed.

End upload_spinner_facts.

(** X4.  [onDrop] never rejects.  It sends one upload request per file
    it is given, in their order, whether or not earlier uploads failed;
    it marks no file as uploading that was not so marked before, so the
    set of uploading files is empty afterwards when it was empty before;
    and it ends by starting [refreshDocuments]. *)
Theorem X4_onDrop_tries_every_file
    (w : World) (files : list File.t) (rt : Runtime) (st : DocumentUpload.State) :
  let r := DocumentUpload.onDrop w files rt st in
  outcome r = inr ()
  ∧ upload_requests (trace r) = files
  ∧ DocumentUpload.uploadingFiles (state r) ⊆ DocumentUpload.uploadingFiles st
  ∧ (DocumentUpload.uploadingFiles st = ∅ → DocumentUpload.uploadingFiles (state r) = ∅)
  ∧ last (trace r) = Some (Spawned DocumentContext_refreshDocuments).
Proof.
  intros r.
  destruct (onDrop_observed w files rt st) as (Hout & Hreq & _).
  destruct (upload_loop w files rt st) as (Hloop & _).
  assert (Hsub : DocumentUpload.uploadingFiles (state r)
                 ⊆ DocumentUpload.uploadingFiles st).
  { subst r. unfold DocumentUpload.onDrop. prog_run.
    erewrite bind_run; [|reflexivity]. rewrite Hloop. prog_end.
    apply upload_loop_spinner. }
  split; [exact Hout|]. split; [exact Hreq|]. split; [exact Hsub|]. split.
  - intros Hempty. rewrite Hempty in Hsub. apply leibniz_equiv.
    by apply equiv_empty.
  - subst r. unfold DocumentUpload.onDrop. prog_run.
    erewrite bind_run; [|reflexivity]. rewrite Hloop. prog_end.
    apply last_snoc.
Qed.

Lemma X4_onDrop_tries_every_file_witness :
  DocumentUpload.uploadingFiles
    (state (DocumentUpload.onDrop Scenario.unavailable
              [Scenario.report_pdf; Scenario.notes_md] Scenario.boot Scenario.listing))
  = ∅
  ∧ upload_requests
      (trace (DocumentUpload.onDrop Scenario.unavailable
                [Scenario.report_pdf; Scenario.notes_md] Scenario.boot Scenario.listing))
    = [Scenario.report_pdf; Scenario.notes_md].
Proof.
  destruct (X4_onDrop_tries_every_file Scenario.unavailable
              [Scenario.report_pdf; Scenario.notes_md] Scenario.boot Scenario.listing)
    as (_ & Hreq & _ & Hempty & _).
  split; [apply Hempty; reflexivity | exact Hreq].
Defined.

(** X5.  [handleDelete] of the document view never rejects.  When the
    user does not confirm, nothing is requested and nothing changes.
    Otherwise the listed documents change only if the delete request
    succeeded, and then by losing the entries with the deleted id; a
    failed request shows the error toast and leaves the list as it
    was. *)
Theorem X5_handleDelete_outcomes
    (w : World) (documentId : string) (rt : Runtime) (st : DocumentUpload.State) :
  let r := DocumentUpload.handleDelete w documentId rt st in
  let docs := DocumentContext.documents (DocumentUpload.context st) in
  outcome r = inr ()
  ∧ DocumentUpload.uploadingFiles (state r) = DocumentUpload.uploadingFiles st
  ∧ (if confirm w (clock rt) then
       match documents_delete w (S (clock rt)) documentId with
       | inr _ =>
           DocumentContext.documents (DocumentUpload.context (state r))
           = filter (λ doc, Document.id doc ≠ documentId) docs
           ∧ Toast ToastSuccess "Document deleted successfully" ∈ trace r
       | inl _ =>
           state r = st
           ∧ Toast ToastError "Failed to delete document" ∈ trace r
           ∧ marks (trace r) = []
       end
     else state r = st ∧ trace r = []).
Proof.
  intros r docs. subst r docs. rewrite handleDelete_run.
  destruct (confirm w (clock rt)); [|done].
  destruct (documents_delete w (S (clock rt)) documentId) as [error|[]]; simpl.
  - repeat split; try done. do 3 apply list_elem_of_further. apply list_elem_of_here.
  - repeat split; try done. apply list_elem_of_further, list_elem_of_here.
Qed.

(** ** KnowledgeBase: searching, loading, deleting and resetting *)

(** X6.  [handleSearch] never rejects.  A query of white space only
    sends no request and changes nothing.  Otherwise one search request
    is sent, for ten results, with the selected file type unless it is
    ["all"]; the searching flag is off again afterwards whatever the
    answer; and a failed search leaves the results of the previous
    search on display. *)
Theorem X6_handleSearch_failure_keeps_results
    (w : World) (rt : Runtime) (st : KnowledgeBase.State) :
  let r := KnowledgeBase.handleSearch w rt st in
  let body := KnowledgeBase.searchRequest st in
  outcome r = inr ()
  ∧ (if JsString.blank (KnowledgeBase.searchQuery st)
     then state r = st ∧ trace r = [] ∧ runtime r = rt
     else
       KnowledgeBase.isSearching (state r) = false
       ∧ (∃ ok rest, trace r = Http (PostKnowledgeSearch body) ok :: rest
                     ∧ upload_requests rest = [] ∧ marks rest = [])
       ∧ KnowledgeBase.searchResults (state r)
         = match knowledge_search w (clock rt) body with
           | inr results => results
           | inl _ => KnowledgeBase.searchResults st
           end
       ∧ KnowledgeBase.documents (state r) = KnowledgeBase.documents st
       ∧ KnowledgeBase.stats (state r) = KnowledgeBase.stats st)
  ∧ SearchRequest.query body = KnowledgeBase.searchQuery st
  ∧ SearchRequest.n_results body = 10
  ∧ SearchRequest.file_type body
    = (if decide (KnowledgeBase.selectedFileType st = "all") then None
       else Some (KnowledgeBase.selectedFileType st)).
Proof.
  intros r body. subst r body. rewrite handleSearch_run.
  split; [|split; [|split; [done|split; [done|]]]].
  - destruct (JsString.blank _); [done|]. by destruct (knowledge_search w _ _).
  - destruct (JsString.blank _); [done|].
    destruct (knowledge_search w _ _) as [error|results]; simpl.
    + repeat split; try done. by eexists _, _.
    + repeat split; try done. eexists _, _. split; [done|].
      by destruct (decide (length results = 0%nat)).
  - unfold KnowledgeBase.searchRequest. simpl.
    by destruct (decide (KnowledgeBase.selectedFileType st = "all")),
                (decide (KnowledgeBase.selectedFileType st ≠ "all")).
Qed.

(** X7.  [fetchDocuments] and [fetchStats] of the knowledge-base view
    never reject.  After [fetchDocuments] the loading flag is off,
    whatever the answer; a failed list request keeps the documents shown
    and raises the error toast, while a failed statistics request keeps
    the statistics shown and raises no toast. *)
Theorem X7_knowledge_fetches_never_reject
    (w : World) (rt : Runtime) (st : KnowledgeBase.State) :
  let docs := KnowledgeBase.fetchDocuments w rt st in
  let stats := KnowledgeBase.fetchStats w rt st in
  outcome docs = inr ()
  ∧ KnowledgeBase.isLoadingDocs (state docs) = false
  ∧ KnowledgeBase.searchResults (state docs) = KnowledgeBase.searchResults st
  ∧ match documents_list w (clock rt) (Some (0, 100)) with
    | inr response =>
        KnowledgeBase.documents (state docs) = response
        ∧ (∀ kind text, Toast kind text ∉ trace docs)
    | inl _ =>
        KnowledgeBase.documents (state docs) = KnowledgeBase.documents st
        ∧ Toast ToastError "Failed to load documents" ∈ trace docs
    end
  ∧ outcome stats = inr ()
  ∧ (∀ kind text, Toast kind text ∉ trace stats)
  ∧ match knowledge_statistics w (clock rt) with
    | inr response => KnowledgeBase.stats (state stats) = Some response
    | inl _ => state stats = st
    end.
Proof.
  intros docs stats. subst docs stats.
  rewrite kb_fetchDocuments_run, kb_fetchStats_run.
  split; [|split; [|split; [|split; [|split; [|split]]]]].
  - by destruct (documents_list w _ _).
  - by destruct (documents_list w _ _).
  - by destruct (documents_list w _ _).
  - destruct (documents_list w _ _); simpl.
    + split; [done|]. in_trace.
    + split; [done|]. intros kind text Hin. not_in_trace Hin.
  - by destruct (knowledge_statistics w _).
  - intros kind text Hin. destruct (knowledge_statistics w _); simpl in Hin;
      not_in_trace Hin.
  - by destruct (knowledge_statistics w _).
Qed.

(** X8.  [deleteDocument] of the knowledge-base view never rejects and
    never changes the documents it lists: the list is updated only by
    the refetch it starts.  Without confirmation no request is sent and
    nothing changes; after a failed delete nothing changes and nothing
    is started; after a successful one [fetchDocuments] and
    [fetchStats] are started, and the only change to the view is the
    loading flag, which the started [fetchDocuments] has raised, so the
    view shows the spinner in place of the list until the refetch
    ends. *)
Theorem X8_knowledge_delete_raises_only_the_loading_flag
    (w : World) (documentId : string) (rt : Runtime) (st : KnowledgeBase.State) :
  let r := KnowledgeBase.deleteDocument w documentId rt st in
  outcome r = inr ()
  ∧ KnowledgeBase.documents (state r) = KnowledgeBase.documents st
  ∧ (if confirm w (clock rt) then
       match documents_delete w (S (clock rt)) documentId with
       | inr _ =>
           state r = KnowledgeBase.setIsLoadingDocs true st
           ∧ KnowledgeBase.isLoadingDocs (state r) = true
           ∧ Spawned KnowledgeBase_fetchDocuments ∈ trace r
           ∧ Spawned KnowledgeBase_fetchStats ∈ trace r
       | inl _ =>
           state r = st
           ∧ (∀ task, Spawned task ∉ trace r)
           ∧ Toast ToastError "Failed to delete document" ∈ trace r
       end
     else state r = st ∧ trace r = []).
Proof.
  intros r. subst r. rewrite kb_deleteDocument_run.
  destruct (confirm w (clock rt)); [|done].
  destruct (documents_delete w (S (clock rt)) documentId) as [error|[]]; simpl.
  - repeat split; try done.
    + intros task Hin. not_in_trace Hin.
    + in_trace.
  - repeat split; try done; in_trace.
Qed.

(** X9.  Mounting the knowledge-base view and unmounting it again
    leaves the listeners of every event as they were before, provided
    the listener the mount creates was not registered before. *)
Theorem X9_knowledge_mount_unmount_round_trip
    (closure : nat) (rt : Runtime) (st st' : KnowledgeBase.State) (e : string) :
  KnowledgeBase_handleDocumentChange closure
  ∉ EventEmitter.registrations e (documentEvents rt) →
  EventEmitter.registrations e
    (documentEvents
       (runtime (KnowledgeBase.unmount closure
                   (runtime (KnowledgeBase.mount closure rt st)) st')))
  = EventEmitter.registrations e (documentEvents rt).
Proof.
  intros Hfresh.
  unfold KnowledgeBase.unmount, KnowledgeBase.mount. kb_run.
  unfold documentEvents_on, documentEvents_off, bind. prog_simpl.
  assert (Hkeep : filter (λ x, x ≠ KnowledgeBase_handleDocumentChange closure)
                    (EventEmitter.registrations e (documentEvents rt))
                  = EventEmitter.registrations e (documentEvents rt)).
  { induction (EventEmitter.registrations e (documentEvents rt)) as [|x xs IH]; [done|].
    apply not_elem_of_cons in Hfresh as [Hx Hxs].
    rewrite filter_cons_True by done. f_equal. by apply IH. }
  destruct (decide (e = DOCUMENT_EVENTS.DELETED)) as [->|Hdel].
  - rewrite registrations_off, registrations_off_ne by done.
    rewrite registrations_on, registrations_on_ne by done.
    rewrite filter_app, Hkeep.
    rewrite (filter_cons_False _ (KnowledgeBase_handleDocumentChange closure))
      by (intros Hl; by apply Hl).
    by rewrite filter_nil, app_nil_r.
  - rewrite registrations_off_ne by done.
    destruct (decide (e = DOCUMENT_EVENTS.UPLOADED)) as [->|Hup].
    + rewrite registrations_off, registrations_on_ne by done.
      rewrite registrations_on, filter_app, Hkeep.
      rewrite (filter_cons_False _ (KnowledgeBase_handleDocumentChange closure))
        by (intros Hl; by apply Hl).
      by rewrite filter_nil, app_nil_r.
    + rewrite registrations_off_ne by done.
      by rewrite !registrations_on_ne by done.
Qed.

Lemma X9_knowledge_mount_unmount_round_trip_witness :
  EventEmitter.registrations "document:deleted"
    (documentEvents
       (runtime (KnowledgeBase.unmount 2
                   (runtime (KnowledgeBase.mount 2 Scenario.knowledge_view
                               KnowledgeBase.initial))
                   KnowledgeBase.initial)))
  = [KnowledgeBase_handleDocumentChange 1].
Proof.
  rewrite (X9_knowledge_mount_unmount_round_trip 2 Scenario.knowledge_view
             KnowledgeBase.initial KnowledgeBase.initial "document:deleted").
  - reflexivity.
  - vm_compute. intros Hin. apply list_elem_of_singleton in Hin. discriminate.
Defined.

(** ** KnowledgeBase: the document list, the type menu and the reset *)

Section distinct_facts.
Implicit Types (xs seen : list string).

Lemma distinct_foldl xs seen :
  NoDup seen →
  let out := foldl (λ seen x, if decide (x ∈ seen) then seen else seen ++ [x]) seen xs in
  NoDup out
  ∧ (∀ x, x ∈ out ↔ x ∈ seen ∨ x ∈ xs)
  ∧ seen `prefix_of` out.
Proof.
  revert seen. induction xs as [|x xs IH]; intros seen Hseen; simpl.
  - split; [done|]. split; [|done]. intros y. rewrite elem_of_nil. tauto.
  - destruct (decide (x ∈ seen)) as [Hin|Hnew].
    + destruct (IH seen Hseen) as (Hnd & Hel & Hpre).
      split; [done|]. split; [|done].
      intros y. rewrite Hel, elem_of_cons.
      split; [tauto|]. intros [Hy|[->|Hy]]; tauto.
    + assert (Hseen' : NoDup (seen ++ [x])).
      { apply NoDup_app. split; [done|]. split; [|apply NoDup_singleton].
        intros y Hy ->%list_elem_of_singleton. done. }
      destruct (IH (seen ++ [x]) Hseen') as (Hnd & Hel & Hpre).
      split; [done|]. split.
      * intros y. rewrite Hel, elem_of_app, list_elem_of_singleton, elem_of_cons.
        tauto.
      * etrans; [|exact Hpre]. by apply prefix_app_r.
Qed.

Lemma distinct_NoDup_id xs : NoDup xs → KnowledgeView.distinct xs = xs.
Proof.
  unfold KnowledgeView.distinct.
  assert (Hgen : ∀ seen, NoDup (seen ++ xs) →
            foldl (λ seen x, if decide (x ∈ seen) then seen else seen ++ [x]) seen xs
            = seen ++ xs).
  { induction xs as [|x xs IH]; intros seen Hnd; simpl; [by rewrite app_nil_r|].
    apply NoDup_app in Hnd as Hparts. destruct Hparts as (_ & Hdisj & _).
    destruct (decide (x ∈ seen)) as [Hin|_].
    - exfalso. apply (Hdisj x Hin). apply list_elem_of_here.
    - rewrite IH; [|by rewrite <- app_assoc]. by rewrite <- app_assoc. }
  intros Hnd. by apply (Hgen []).
Qed.

Lemma distinct_elem_of xs x : x ∈ KnowledgeView.distinct xs ↔ x ∈ xs.
Proof.
  unfold KnowledgeView.distinct.
  destruct (distinct_foldl xs [] (NoDup_nil_2)) as (_ & Hel & _).
  rewrite Hel, elem_of_nil. tauto.
Qed.

Lemma distinct_snoc xs x :
  KnowledgeView.distinct (xs ++ [x])
  = if decide (x ∈ KnowledgeView.distinct xs) then KnowledgeView.distinct xs
    else KnowledgeView.distinct xs ++ [x].
Proof. unfold KnowledgeView.distinct. by rewrite foldl_snoc. Qed.

(** The order of the distinct elements is the order of their first
    occurrences: when [a] comes before [b], the first [a] of the list
    has no [b] before it. *)
Lemma distinct_order xs (i j : nat) a b :
  KnowledgeView.distinct xs !! i = Some a →
  KnowledgeView.distinct xs !! j = Some b →
  (i < j)%nat →
  ∃ before after, xs = before ++ (a :: after) ∧ (a ∉ before) ∧ b ∉ before.
Proof.
  revert i j a b. induction xs as [|x xs IH] using rev_ind; intros i j a b.
  - unfold KnowledgeView.distinct. simpl. by rewrite lookup_nil.
  - rewrite distinct_snoc.
    assert (Hold : KnowledgeView.distinct xs !! i = Some a →
                   KnowledgeView.distinct xs !! j = Some b →
                   (i < j)%nat →
                   ∃ before after, xs ++ [x] = before ++ (a :: after)
                                   ∧ (a ∉ before) ∧ b ∉ before).
    { intros Ha Hb Hlt. destruct (IH i j a b Ha Hb Hlt) as (before & after & -> & Hna & Hnb).
      exists before, (after ++ [x]). by rewrite <- app_assoc. }
    destruct (decide (x ∈ KnowledgeView.distinct xs)) as [Hin|Hnew]; [exact Hold|].
    intros Ha Hb Hlt.
    apply lookup_app_Some in Hb as [Hb|[Hlen Hb]].
    + apply lookup_app_Some in Ha as [Ha|[Hlen' _]]; [by apply Hold|].
      apply lookup_lt_Some in Hb. lia.
    + apply list_lookup_singleton_Some in Hb as [Hj <-].
      apply lookup_app_Some in Ha as [Ha|[Hlen' _]]; [|lia].
      assert (Haxs : a ∈ xs) by (apply distinct_elem_of; by eapply list_elem_of_lookup_2).
      apply list_elem_of_split_l in Haxs as (before & after & -> & Hna).
      exists before, (after ++ [x]). split; [by rewrite <- app_assoc|]. split; [done|].
      intros Hx. apply Hnew, distinct_elem_of, elem_of_app. by left.
Qed.

End distinct_facts.

(** X10.  The file types offered by the type filter are the file types
    of the listed documents, each once, in the order of their first
    documents: no type is listed twice, every type listed belongs to a
    document, every document's type is listed, and when one type is
    listed before another, the first document of the one comes before
    every document of the other.  So the menu starts with the type of
    the first document, and when no two documents share a type it
    follows the list. *)
Theorem X10_fileTypes_distinct (st : KnowledgeBase.State) :
  NoDup (KnowledgeView.fileTypes st)
  ∧ (∀ type, type ∈ KnowledgeView.fileTypes st
             ↔ ∃ doc, doc ∈ KnowledgeBase.documents st ∧ Document.file_type doc = type)
  ∧ (∀ (i j : nat) a b,
       KnowledgeView.fileTypes st !! i = Some a →
       KnowledgeView.fileTypes st !! j = Some b →
       (i < j)%nat →
       ∃ before after,
         Document.file_type <$> KnowledgeBase.documents st = before ++ (a :: after)
         ∧ (a ∉ before) ∧ b ∉ before)
  ∧ (NoDup (Document.file_type <$> KnowledgeBase.documents st) →
     KnowledgeView.fileTypes st = Document.file_type <$> KnowledgeBase.documents st)
  ∧ (∀ doc docs, KnowledgeBase.documents st = doc :: docs →
       head (KnowledgeView.fileTypes st) = Some (Document.file_type doc)).
Proof.
  split; [|split; [|split; [apply distinct_order|]]];
    unfold KnowledgeView.fileTypes, KnowledgeView.distinct;
    destruct (distinct_foldl (Document.file_type <$> KnowledgeBase.documents st) []
                (NoDup_nil_2)) as (Hnd & Hel & _).
  { exact Hnd. }
  2: split.
  - intros type. rewrite Hel, elem_of_nil, list_elem_of_fmap. split.
    + intros [[]|(doc & -> & Hdoc)]. by exists doc.
    + intros (doc & Hdoc & <-). right. by exists doc.
  - apply distinct_NoDup_id.
  - intros doc docs ->. rewrite fmap_cons. cbn [foldl].
    destruct (decide (Document.file_type doc ∈ [])) as [Hin|_];
      [by apply not_elem_of_nil in Hin|].
    cbn [app].
    destruct (distinct_foldl (Document.file_type <$> docs) [Document.file_type doc])
      as (_ & _ & [rest Hrest]).
    { apply NoDup_singleton. }
    by rewrite Hrest.
Qed.

Lemma X10_fileTypes_distinct_witness :
  KnowledgeView.fileTypes Sample.library = ["pdf"; "md"; "png"]
  ∧ KnowledgeView.fileTypes
      (KnowledgeBase.setDocuments
         [Document.mk "a" "x.pdf" "pdf" 1 true ""; Document.mk "b" "y.md" "md" 1 true ""]
         KnowledgeBase.initial)
    = ["pdf"; "md"].
Proof.
  split; [reflexivity|].
  rewrite (proj1 (proj2 (proj2 (proj2 (X10_fileTypes_distinct
             (KnowledgeBase.setDocuments
                [Document.mk "a" "x.pdf" "pdf" 1 true "";
                 Document.mk "b" "y.md" "md" 1 true ""]
                KnowledgeBase.initial)))))).
  - reflexivity.
  - simpl. apply NoDup_cons. split.
    + intros Hin. apply list_elem_of_singleton in Hin. discriminate.
    + apply NoDup_singleton.
Defined.

Section filter_facts.

Lemma List_filter_sublist {A} (f : A → bool) (l : list A) : List.filter f l `sublist_of` l.
Proof.
  induction l as [|x l IH]; simpl; [done|].
  destruct (f x); [by apply sublist_skip | by apply sublist_cons].
Qed.

Lemma List_filter_all {A} (f : A → bool) (l : list A) :
  (∀ x, f x = true) → List.filter f l = l.
Proof.
  intros Hall. induction l as [|x l IH]; simpl; [done|]. by rewrite Hall, IH.
Qed.

End filter_facts.

(** X11.  The documents shown by the knowledge-base view are listed
    documents, in the order of the list; with an empty search box and
    the type ["all"] every listed document is shown; with an empty
    search box and another type, exactly the documents of that type are
    shown; and a document that is shown always has the selected type,
    unless the type is ["all"]. *)
Theorem X11_filteredDocuments (st : KnowledgeBase.State) :
  KnowledgeView.filteredDocuments st `sublist_of` KnowledgeBase.documents st
  ∧ (KnowledgeBase.searchInDoc st = "" → KnowledgeBase.selectedFileType st = "all" →
     KnowledgeView.filteredDocuments st = KnowledgeBase.documents st)
  ∧ (KnowledgeBase.searchInDoc st = "" →
     ∀ doc, doc ∈ KnowledgeView.filteredDocuments st
            ↔ doc ∈ KnowledgeBase.documents st
              ∧ (KnowledgeBase.selectedFileType st = "all"
                 ∨ Document.file_type doc = KnowledgeBase.selectedFileType st))
  ∧ (∀ doc, doc ∈ KnowledgeView.filteredDocuments st →
       KnowledgeBase.selectedFileType st = "all"
       ∨ Document.file_type doc = KnowledgeBase.selectedFileType st).
Proof.
  unfold KnowledgeView.filteredDocuments, KnowledgeView.matchesSearch,
    KnowledgeView.matchesType.
  split; [apply List_filter_sublist|]. split; [|split].
  - intros -> ->. by apply List_filter_all.
  - intros -> doc. rewrite !list_elem_of_In, List.filter_In. simpl.
    rewrite orb_true_iff, !String.eqb_eq. done.
  - intros doc. rewrite !list_elem_of_In, List.filter_In.
    rewrite andb_true_iff, orb_true_iff, !String.eqb_eq. tauto.
Qed.

Lemma X11_filteredDocuments_witness :
  KnowledgeView.filteredDocuments
    (KnowledgeBase.setDocuments [Scenario.doc "d1" true; Scenario.doc "d2" false]
       KnowledgeBase.initial)
  = [Scenario.doc "d1" true; Scenario.doc "d2" false]
  ∧ (Document.filename <$> KnowledgeView.filteredDocuments Sample.library)
    = ["Report.PDF"; "annual report.pdf"].
Proof.
  split; [|reflexivity].
  apply (proj1 (proj2 (X11_filteredDocuments
           (KnowledgeBase.setDocuments [Scenario.doc "d1" true; Scenario.doc "d2" false]
              KnowledgeBase.initial)))); reflexivity.
Defined.

Section clear_facts.
Context (w : World) (b : Backend).

Lemma call_bind {St A B} (answer : nat → Err + A) (k : A → Prog St B) (rt : Runtime)
    (st : St) :
  bind (call answer) k rt st
  = match answer (clock rt) with
    | inl e => mkResult (inl e) (tick rt) st [ConsoleError "API Error:"]
    | inr a => k a (tick rt) st
    end.
Proof.
  unfold bind, call. simpl. destruct (answer (clock rt)); [done|]. apply prepend_nil.
Qed.

Lemma clearKnowledgeBase_run (rt : Runtime) (st : KnowledgeBase.State) :
  KnowledgeView.clearKnowledgeBase w b rt st
  = if confirm w (clock rt) then
      match knowledge_clear b (S (clock rt)) with
      | inl _ =>
          mkResult (inr ()) (tick (tick rt)) st
            [ ConsoleError "API Error:";
              Toast ToastError "Failed to clear knowledge base";
              ConsoleError "Clear error:" ]
      | inr _ =>
          mkResult (inr ()) (tick (tick rt))
            (KnowledgeBase.setIsLoadingDocs true (KnowledgeBase.setSearchResults [] st))
            [ Toast ToastSuccess "Knowledge base cleared successfully";
              Spawned KnowledgeBase_fetchStats;
              Spawned KnowledgeBase_fetchDocuments ]
      end
    else mkResult (inr ()) (tick rt) st [].
Proof.
  unfold KnowledgeView.clearKnowledgeBase. kb_run.
  destruct (confirm w (clock rt)); [|done].
  erewrite try_catch_run; [|rewrite call_bind; reflexivity].
  cbn [clock tick].
  destruct (knowledge_clear b (S (clock rt))) as [error|[]].
  - kb_run. prog_end. reflexivity.
  - kb_run. prog_end. reflexivity.
Qed.

End clear_facts.

(** X12.  [clearKnowledgeBase] never rejects.  Without confirmation,
    or when the request fails, the view is unchanged.  After a
    successful reset the search results are emptied and [fetchStats]
    and [fetchDocuments] are started; the started [fetchDocuments] has
    raised the loading flag, so the view shows the spinner in place of
    the list, while the documents it holds are replaced only by the
    answer of that refetch.  No document event is emitted and no
    listener is called, so no other view is told of the reset. *)
Theorem X12_clearKnowledgeBase
    (w : World) (b : Backend) (rt : Runtime) (st : KnowledgeBase.State) :
  let r := KnowledgeView.clearKnowledgeBase w b rt st in
  outcome r = inr ()
  ∧ marks (trace r) = []
  ∧ calls (trace r) = []
  ∧ KnowledgeBase.documents (state r) = KnowledgeBase.documents st
  ∧ (if confirm w (clock rt) then
       match knowledge_clear b (S (clock rt)) with
       | inr _ =>
           state r
           = KnowledgeBase.setIsLoadingDocs true (KnowledgeBase.setSearchResults [] st)
           ∧ KnowledgeBase.searchResults (state r) = []
           ∧ KnowledgeBase.isLoadingDocs (state r) = true
           ∧ Spawned KnowledgeBase_fetchStats ∈ trace r
           ∧ Spawned KnowledgeBase_fetchDocuments ∈ trace r
       | inl _ =>
           state r = st ∧ Toast ToastError "Failed to clear knowledge base" ∈ trace r
       end
     else state r = st ∧ trace r = []).
Proof.
  intros r. subst r. rewrite clearKnowledgeBase_run.
  destruct (confirm w (clock rt)); [|done].
  destruct (knowledge_clear b (S (clock rt))) as [error|[]]; simpl.
  - repeat split; try done. in_trace.
  - repeat split; try done; in_trace.
Qed.

(** ** Trimming *)

Section trim_facts.

Lemma trimStart_blank_aux (n : nat) (s : string) :
  (String.length s ≤ n)%nat →
  JsString.blank (JsTrim.trimStart s) = JsString.blank s
  ∧ (JsString.blank s = true → JsTrim.trimStart s = "").
Proof.
  revert s. induction n as [|n IH]; intros s Hlen.
  { destruct s; [done|]. simpl in Hlen. lia. }
  destruct s as [|c1 s1]; [done|]. simpl in Hlen.
  cbn [JsTrim.trimStart JsString.blank].
  destruct (Ascii.is_space c1) eqn:Hc1.
  { apply IH. lia. }
  destruct s1 as [|c2 s2].
  { cbn [JsString.blank]. rewrite Hc1. done. }
  simpl in Hlen.
  destruct ((nat_of_ascii c1 =? 194)%nat && (nat_of_ascii c2 =? 160)%nat) eqn:Hnbsp.
  { apply IH. lia. }
  destruct s2 as [|c3 s3].
  { cbn [JsString.blank]. rewrite Hc1, Hnbsp. done. }
  simpl in Hlen.
  destruct (JsString.space3 (nat_of_ascii c1) (nat_of_ascii c2) (nat_of_ascii c3)) eqn:Hsp.
  { apply IH. lia. }
  cbn [JsString.blank]. rewrite Hc1, Hnbsp, Hsp. done.
Qed.

Lemma blank_trimStart (s : string) :
  JsString.blank (JsTrim.trimStart s) = JsString.blank s.
Proof. by apply (trimStart_blank_aux (String.length s)). Qed.

Lemma trim_blank (s : string) : JsString.blank s = true → JsTrim.trim s = "".
Proof.
  intros Hblank. unfold JsTrim.trim.
  by rewrite (proj2 (trimStart_blank_aux (String.length s) s ltac:(done)) Hblank).
Qed.

Lemma trim_nonblank (s : string) : JsString.blank s = false → JsTrim.trim s ≠ "".
Proof.
  intros Hs. unfold JsTrim.trim.
  pose proof (blank_trimStart s) as Hstart. rewrite Hs in Hstart.
  destruct (JsTrim.trimStart s) as [|c t]; [done|].
  cbn [JsTrim.trimEnd]. by rewrite Hstart.
Qed.

End trim_facts.

(** ** ChatInterface: the selection, the chips and the form *)

Section selection_facts.
Context (w : World).
Implicit Types (rt : Runtime) (st : ChatInterface.State).


Lemma step_selection_NoDup st st' :
  ChatInterface.step w st st' →
  NoDup (ChatInterface.selectedDocs st) →
  NoDup (ChatInterface.selectedDocs st').
Proof.
  intros Hstep Hnd. inversion Hstep; subst; clear Hstep.
  - rewrite fetchDocuments_run.
    by destruct (documents_list w (clock rt) (Some (0, 100))).
  - cbn. destruct (decide (Document.id doc ∈ ChatInterface.selectedDocs st)).
    + by apply NoDup_filter.
    + apply NoDup_app. split; [done|]. split; [|apply NoDup_singleton].
      intros x Hx ->%list_elem_of_singleton. done.
  - cbn. by apply NoDup_filter.
  - cbn. by apply NoDup_filter.
Qed.

End selection_facts.

(** X13.  In every state the chat interface can reach, no document is
    selected twice: the selection is a list without repetition, so the
    number shown in "Using n documents" counts distinct documents. *)
Theorem X13_selection_has_no_duplicates (w : World) (st : ChatInterface.State) :
  ChatInterface.reachable w st → NoDup (ChatInterface.selectedDocs st).
Proof.
  induction 1 as [|st st' _ IH Hstep].
  - apply NoDup_nil_2.
  - by eapply step_selection_NoDup.
Qed.

Lemma X13_selection_has_no_duplicates_witness :
  NoDup (ChatInterface.selectedDocs
           (state (ChatInterface.toggleDocSelection "d1" Scenario.boot
                     (state (ChatInterface.fetchDocuments Scenario.answering Scenario.boot
                               ChatInterface.initial))))).
Proof.
  apply (X13_selection_has_no_duplicates Scenario.answering).
  eapply ChatInterface.reachable_step.
  - eapply ChatInterface.reachable_step; [apply ChatInterface.reachable_initial|].
    apply ChatInterface.step_fetch.
  - apply (ChatInterface.step_toggle Scenario.answering Scenario.boot _
             (Scenario.doc "d1" true)).
    change (Scenario.doc "d1" true ∈ [Scenario.doc "d1" true; Scenario.doc "d3" true]).
    apply list_elem_of_here.
Defined.



Section chip_facts.

Lemma find_first (name : string) (before after : list Document.t) (doc : Document.t) :
  Document.filename doc = name →
  (∀ d, d ∈ before → Document.filename d ≠ name) →
  List.find (λ d, String.eqb (Document.filename d) name) (before ++ doc :: after)
  = Some doc.
Proof.
  intros Hname Hbefore. induction before as [|d before IH]; simpl.
  - by rewrite (proj2 (String.eqb_eq _ _) Hname).
  - rewrite (proj2 (String.eqb_neq _ _)) by (apply Hbefore, list_elem_of_here).
    apply IH. intros d' Hd'. by apply Hbefore, list_elem_of_further.
Qed.

Lemma find_none (name : string) (docs : list Document.t) :
  (∀ d, d ∈ docs → Document.filename d ≠ name) →
  List.find (λ d, String.eqb (Document.filename d) name) docs = None.
Proof.
  intros Hnone. induction docs as [|d docs IH]; simpl; [done|].
  rewrite (proj2 (String.eqb_neq _ _)) by (apply Hnone, list_elem_of_here).
  apply IH. intros d' Hd'. by apply Hnone, list_elem_of_further.
Qed.

End chip_facts.

(** X15.  The remove button of a chip finds its document by file name:
    it removes from the selection the first listed document that has
    the name on the chip, and nothing else.  So when two listed
    documents share a file name, the chip of either removes the earlier
    one. *)
Theorem X15_chip_removes_first_document_of_that_name
    (rt : Runtime) (st : ChatInterface.State)
    (before after : list Document.t) (doc : Document.t) (name : string) :
  ChatInterface.documents st = before ++ doc :: after →
  Document.filename doc = name →
  (∀ d, d ∈ before → Document.filename d ≠ name) →
  let r := ChatForm.removeChip name rt st in
  ChatInterface.selectedDocs (state r)
  = filter (λ id, id ≠ Document.id doc) (ChatInterface.selectedDocs st)
  ∧ ChatInterface.documents (state r) = ChatInterface.documents st
  ∧ outcome r = inr ().
Proof.
  intros Hdocs Hname Hfirst r. subst r.
  unfold ChatForm.removeChip. rewrite bind_gets.
  unfold ChatForm.chipId. rewrite Hdocs, (find_first name before after doc) by done.
  done.
Qed.

Lemma X15_chip_removes_first_document_of_that_name_witness :
  ChatInterface.selectedDocs
    (state (ChatForm.removeChip "notes.md" Scenario.boot
              (ChatInterface.mkState "" false
                 [ Document.mk "a" "notes.md" "md" 1 true "";
                   Document.mk "b" "notes.md" "md" 2 true "" ]
                 ["b"; "a"] false)))
  = ["b"].
Proof.
  apply (X15_chip_removes_first_document_of_that_name Scenario.boot
           (ChatInterface.mkState "" false
              [ Document.mk "a" "notes.md" "md" 1 true "";
                Document.mk "b" "notes.md" "md" 2 true "" ]
              ["b"; "a"] false)
           [] [Document.mk "b" "notes.md" "md" 2 true ""]
           (Document.mk "a" "notes.md" "md" 1 true "") "notes.md").
  - reflexivity.
  - reflexivity.
  - intros d Hd. by apply not_elem_of_nil in Hd.
Defined.

(** X16.  The names on the chips are the file names of the listed
    documents whose id is selected, in the order of the list.  A
    selected id that is not in the list has no chip; there are never
    more chips than listed documents, and when the listed documents
    have distinct ids there are never more chips than selected
    documents. *)
Theorem X16_chip_names (st : ChatInterface.State) :
  (∀ name, name ∈ ChatForm.getSelectedDocNames st
           ↔ ∃ doc, doc ∈ ChatInterface.documents st
                    ∧ Document.id doc ∈ ChatInterface.selectedDocs st
                    ∧ Document.filename doc = name)
  ∧ ChatForm.getSelectedDocNames st
    `sublist_of` (Document.filename <$> ChatInterface.documents st)
  ∧ (length (ChatForm.getSelectedDocNames st) ≤ length (ChatInterface.documents st))%nat
  ∧ (NoDup (Document.id <$> ChatInterface.documents st) →
     (length (ChatForm.getSelectedDocNames st) ≤ length (ChatInterface.selectedDocs st))%nat).
Proof.
  unfold ChatForm.getSelectedDocNames.
  set (docs := ChatInterface.documents st). set (sel := ChatInterface.selectedDocs st).
  split; [|split; [|split]].
  - intros name. rewrite list_elem_of_fmap. split.
    + intros (doc & -> & [Hsel Hdoc]%list_elem_of_filter). by exists doc.
    + intros (doc & Hdoc & Hsel & <-). exists doc. split; [done|].
      by apply list_elem_of_filter.
  - apply fmap_sublist, sublist_filter.
  - rewrite length_fmap. apply length_filter.
  - intros Hids. rewrite length_fmap.
    rewrite <- (length_fmap Document.id (filter _ docs)).
    apply submseteq_length, NoDup_submseteq.
    + apply (sublist_NoDup _ (Document.id <$> docs)); [exact Hids|].
      apply fmap_sublist, sublist_filter.
    + intros id (doc & -> & [Hsel _]%list_elem_of_filter)%list_elem_of_fmap. done.
Qed.

Lemma X16_chip_names_witness :
  ChatForm.getSelectedDocNames
    (ChatInterface.mkState "" false [Scenario.doc "d1" true; Scenario.doc "d3" true]
       ["d3"; "gone"] false)
  = ["d3.pdf"]
  ∧ (length (ChatForm.getSelectedDocNames
               (ChatInterface.mkState "" false
                  [Scenario.doc "d1" true; Scenario.doc "d3" true] ["d3"; "gone"] false))
     ≤ 2)%nat.
Proof.
  split; [reflexivity|].
  apply (proj2 (proj2 (proj2 (X16_chip_names
           (ChatInterface.mkState "" false
              [Scenario.doc "d1" true; Scenario.doc "d3" true] ["d3"; "gone"] false))))).
  simpl. apply NoDup_cons. split.
  - intros Hin. apply list_elem_of_singleton in Hin. discriminate.
  - apply NoDup_singleton.
Defined.

(** X17.  The listener of the chat interface starts a refetch of the
    documents and prunes the selection against the documents it was
    created with, not against the refetched ones: an id stays selected
    exactly when one of those documents has it.  A selection made from
    those documents is therefore left as it is, whatever was uploaded
    or deleted. *)
Theorem X17_chat_listener_prunes_against_captured_documents
    (documents : list Document.t) (rt : Runtime) (st : ChatInterface.State) :
  let r := ChatInterface.handleDocumentChange documents rt st in
  outcome r = inr ()
  ∧ trace r = [Spawned ChatInterface_fetchDocuments]
  ∧ ChatInterface.documents (state r) = ChatInterface.documents st
  ∧ (∀ id, id ∈ ChatInterface.selectedDocs (state r)
           ↔ id ∈ ChatInterface.selectedDocs st
             ∧ ∃ doc, doc ∈ documents ∧ Document.id doc = id)
  ∧ ((∀ id, id ∈ ChatInterface.selectedDocs st →
            ∃ doc, doc ∈ documents ∧ Document.id doc = id) →
     ChatInterface.selectedDocs (state r) = ChatInterface.selectedDocs st).
Proof.
  cbv zeta.
  change (ChatInterface.selectedDocs
            (state (ChatInterface.handleDocumentChange documents rt st)))
    with (filter (λ id, Exists (λ doc, Document.id doc = id) documents)
            (ChatInterface.selectedDocs st)).
  split; [done|]. split; [done|]. split; [done|]. split.
  - intros id. rewrite list_elem_of_filter, Exists_exists. tauto.
  - intros Hall. induction (ChatInterface.selectedDocs st) as [|x xs IH]; [done|].
    rewrite filter_cons_True.
    + f_equal. apply IH. intros id Hid. by apply Hall, list_elem_of_further.
    + apply Exists_exists, Hall, list_elem_of_here.
Qed.

Lemma X17_chat_listener_prunes_against_captured_documents_witness :
  ChatInterface.selectedDocs
    (state (ChatInterface.handleDocumentChange
              [Scenario.doc "d1" true; Scenario.doc "d3" true] Scenario.boot
              (ChatForm.form Sample.typed)))
  = ["d3"].
Proof.
  apply (proj2 (proj2 (proj2 (proj2
           (X17_chat_listener_prunes_against_captured_documents
              [Scenario.doc "d1" true; Scenario.doc "d3" true] Scenario.boot
              (ChatForm.form Sample.typed)))))).
  intros id Hid. apply list_elem_of_singleton in Hid as ->.
  exists (Scenario.doc "d3" true). split; [|reflexivity].
  apply list_elem_of_further, list_elem_of_here.
Defined.

Section submit_facts.
Context (w : World).
Implicit Types (rt : Runtime) (st : ChatForm.State).

(** [handleSubmit] in terms of the [sendMessage] it calls. *)
Lemma handleSubmit_run rt st :
  ChatForm.handleSubmit w rt st
  = if JsString.blank (ChatInterface.input (ChatForm.form st))
       || ChatInterface.isLoading (ChatForm.form st)
    then mkResult (inr ()) rt st []
    else
      let sent :=
        ChatContext.sendMessage w (JsTrim.trim (ChatInterface.input (ChatForm.form st)))
          (Some (ChatInterface.selectedDocs (ChatForm.form st))) rt (ChatForm.chat st) in
      mkResult (inr ()) (runtime sent)
        (ChatForm.mkState
           (ChatForm.setIsLoading false
              (ChatForm.setIsLoading true (ChatForm.setInput "" (ChatForm.form st))))
           (state sent))
        (trace sent
         ++ match outcome sent with
            | inl _ => [ Toast ToastError "Failed to send message. Please try again.";
                         ConsoleError "Error sending message:" ]
            | inr _ => []
            end).
Proof.
  unfold ChatForm.handleSubmit. prog_run. unfold compose.
  destruct (JsString.blank _ || _); [done|].
  prog_run.
  generalize (ChatContext.sendMessage w (JsTrim.trim (ChatInterface.input (ChatForm.form st)))
                (Some (ChatInterface.selectedDocs (ChatForm.form st)))).
  intros send.
  erewrite finally_run;
    [|erewrite try_catch_run; [|unfold ChatForm.useChat, zoom; reflexivity]; reflexivity].
  cbv zeta. cbn [outcome runtime state trace ChatForm.chat ChatForm.form ChatForm.onForm].
  destruct (outcome (send rt (ChatForm.chat st))) as [error|[]].
  - prog_run. prog_end. reflexivity.
  - prog_end. reflexivity.
Qed.

End submit_facts.

(** X18.  [handleSubmit] never rejects.  With an input of white space
    only, or while a message is being sent, it does nothing: no request,
    no change.  Otherwise it clears the input, sends the trimmed input,
    which is not empty, with the selected documents (so the
    knowledge-base flag is [true] or [false], never absent, and [true]
    exactly when a document is selected), leaves the chat messages as
    [sendMessage] leaves them, shows the error toast exactly when the
    request failed, and ends with the loading flag off. *)
Theorem X18_handleSubmit (w : World) (rt : Runtime) (st : ChatForm.State) :
  let r := ChatForm.handleSubmit w rt st in
  let input := ChatInterface.input (ChatForm.form st) in
  let selected := ChatInterface.selectedDocs (ChatForm.form st) in
  let body := ChatContext.chatRequest (JsTrim.trim input) (Some selected)
                (ChatContext.currentSession (ChatForm.chat st)) in
  outcome r = inr ()
  ∧ (if JsString.blank input || ChatInterface.isLoading (ChatForm.form st)
     then state r = st ∧ trace r = [] ∧ runtime r = rt
     else
       ChatInterface.input (ChatForm.form (state r)) = ""
       ∧ ChatInterface.isLoading (ChatForm.form (state r)) = false
       ∧ ChatInterface.selectedDocs (ChatForm.form (state r)) = selected
       ∧ ChatForm.chat (state r)
         = state (ChatContext.sendMessage w (JsTrim.trim input) (Some selected) rt
                    (ChatForm.chat st))
       ∧ (∃ ok rest, trace r = Http (PostChatMessage body) ok :: rest)
       ∧ ChatRequest.message body ≠ ""
       ∧ (ChatRequest.use_knowledge_base body = Some true ↔ selected ≠ [])
       ∧ (ChatRequest.use_knowledge_base body = Some false ↔ selected = [])
       ∧ (Toast ToastError "Failed to send message. Please try again." ∈ trace r
          ↔ ∃ error, chat_message w (S (S (clock rt))) body = inl error)).
Proof.
  intros r input selected body. subst r. rewrite handleSubmit_run.
  fold input selected.
  destruct (JsString.blank input) eqn:Hblank; cbn [orb]; [done|].
  destruct (ChatInterface.isLoading (ChatForm.form st)); [done|].
  cbv zeta. cbn [outcome state trace runtime ChatForm.form ChatForm.chat].
  pose proof (sendMessage_run w (JsTrim.trim input) (Some selected) rt (ChatForm.chat st))
    as [Hrun _].
  cbv zeta in Hrun. fold body in Hrun.
  split; [done|]. split; [done|]. split; [done|]. split; [done|]. split; [done|].
  split; [|split; [|split; [|split]]].
  - destruct (chat_message w (S (S (clock rt))) body) as [error|response].
    + destruct Hrun as (_ & _ & ->). by eexists _, _.
    + destruct Hrun as (_ & _ & spawned & -> & _). by eexists _, _.
  - by apply trim_nonblank.
  - subst body. simpl. destruct selected as [|id ids]; simpl.
    + split; [discriminate|done].
    + split; [done|]. intros _. f_equal; try (apply bool_decide_eq_true; lia).
  - subst body. simpl. destruct selected as [|id ids]; simpl.
    + split; [done|]. intros _. reflexivity.
    + split; [|discriminate]. intros Hfalse. exfalso.
      assert (Htrue : bool_decide (0 < Z.of_nat (length (id :: ids))) = true)
        by (apply bool_decide_eq_true; simpl; lia).
      simpl in Htrue. congruence.
  - destruct (chat_message w (S (S (clock rt))) body) as [error|response].
    + destruct Hrun as (-> & _ & ->). split; [by eexists|]. intros _.
      cbn [app]. in_trace.
    + destruct Hrun as (-> & _ & spawned & -> & Hsp). rewrite app_nil_r.
      split; [|intros [error Herr]; discriminate].
      intros Hin. apply elem_of_cons in Hin as [Heq|Hin]; [discriminate|].
      destruct Hsp as [-> | ->].
      * by apply not_elem_of_nil in Hin.
      * apply list_elem_of_singleton in Hin. discriminate.
Qed.

Lemma X18_handleSubmit_witness :
  ChatInterface.input
    (ChatForm.form (state (ChatForm.handleSubmit Scenario.answering Scenario.boot
                             Sample.typed))) = ""
  ∧ (Message.content
       <$> ChatContext.messages
             (ChatForm.chat (state (ChatForm.handleSubmit Scenario.answering Scenario.boot
                                      Sample.typed))))
    = ["hi"; "hey"; "what is the budget?"; "Hello!"].
Proof.
  pose proof (X18_handleSubmit Scenario.answering Scenario.boot Sample.typed) as [_ H].
  cbv zeta in H.
  change (JsString.blank (ChatInterface.input (ChatForm.form Sample.typed))
          || ChatInterface.isLoading (ChatForm.form Sample.typed)) with false in H.
  destruct H as (Hinput & _ & _ & Hchat & _).
  split; [exact Hinput|]. rewrite Hchat.
  pose proof (sendMessage_run Scenario.answering
                (JsTrim.trim (ChatInterface.input (ChatForm.form Sample.typed)))
                (Some (ChatInterface.selectedDocs (ChatForm.form Sample.typed)))
                Scenario.boot (ChatForm.chat Sample.typed)) as [(_ & Hmsgs & _) _].
  rewrite Hmsgs. reflexivity.
Defined.

(** ** ChatContext: sessions *)

Section session_facts.
Context (w : World) (b : Backend) (Date_parse : string → JsDate.t).
Implicit Types (rt : Runtime) (st : ChatContext.State).

(** Stamping the messages of the server: one [uuidv4()] each, in
    order. *)
Lemma stamp_run (msgs : list ServerMessage.t) rt st :
  ChatSessions.stamp w Date_parse msgs rt st
  = mkResult (inr (imap (ChatSessions.stamped w Date_parse (clock rt)) msgs))
      (mkRuntime (clock rt + length msgs) (documentEvents rt)) st [].
Proof.
  revert rt. induction msgs as [|msg msgs IH]; intros rt.
  - simpl. unfold ret. destruct rt as [t em]. simpl. by rewrite Nat.add_0_r.
  - cbn [ChatSessions.stamp]. rewrite bind_ask.
    erewrite bind_run; [|apply IH]. cbn [outcome runtime state trace prepend]. unfold ret.
    cbn [outcome runtime state trace app tick clock documentEvents].
    rewrite imap_cons, prepend_nil. unfold ChatSessions.stamped at 2. rewrite Nat.add_0_r.
    replace (clock rt + length (msg :: msgs))%nat with (S (clock rt) + length msgs)%nat
      by (simpl; lia).
    do 3 f_equal. apply imap_ext. intros i x _. unfold ChatSessions.stamped. simpl.
    by replace (clock rt + S i)%nat with (S (clock rt + i)) by lia.
Qed.

Lemma loadSessionMessages_run (sessionId : string) rt st :
  ChatSessions.loadSessionMessages w b Date_parse sessionId rt st
  = match session_messages b (clock rt) sessionId with
    | inl _ =>
        mkResult (inr ()) (tick rt) st
          [ConsoleError "API Error:"; ConsoleError "Failed to load messages:"]
    | inr msgs =>
        mkResult (inr ())
          (mkRuntime (S (clock rt) + length msgs) (documentEvents rt))
          (ChatContext.setMessages
             (λ _, imap (ChatSessions.stamped w Date_parse (S (clock rt))) msgs) st)
          []
    end.
Proof.
  unfold ChatSessions.loadSessionMessages. prog_run.
  erewrite try_catch_run; [|rewrite call_bind; reflexivity].
  destruct (session_messages b (clock rt) sessionId) as [error|msgs].
  - prog_end. reflexivity.
  - erewrite bind_run; [|apply stamp_run]. prog_end. reflexivity.
Qed.

Lemma fetchSessions_run (currentSession : option ChatSession.t) rt st :
  ChatSessions.fetchSessions b currentSession rt st
  = match chat_sessions b (clock rt) with
    | inl _ =>
        mkResult (inr None) (tick rt) st
          [ConsoleError "API Error:"; ConsoleError "Failed to fetch sessions:"]
    | inr response =>
        match response, currentSession with
        | first :: _, None =>
            mkResult (inr (Some (ChatSession.id first))) (tick rt)
              (ChatSessions.setCurrentSession (Some first)
                 (ChatSessions.setSessions (λ _, response) st)) []
        | _, _ =>
            mkResult (inr None) (tick rt) (ChatSessions.setSessions (λ _, response) st) []
        end
    end.
Proof.
  unfold ChatSessions.fetchSessions. prog_run.
  erewrite try_catch_run; [|rewrite call_bind; reflexivity].
  destruct (chat_sessions b (clock rt)) as [error|response].
  - prog_end. reflexivity.
  - prog_run. destruct response as [|first rest]; [reflexivity|].
    destruct currentSession; [reflexivity|].
    prog_run. reflexivity.
Qed.

Lemma createSession_run (title : option string) rt st :
  ChatSessions.createSession b title rt st
  = match create_session b (clock rt) title with
    | inl error =>
        mkResult (inl error) (tick rt) st
          [ConsoleError "API Error:"; ConsoleError "Failed to create session:"]
    | inr newSession =>
        mkResult (inr ()) (tick rt)
          (ChatContext.mkState [] (Some newSession) (newSession :: ChatContext.sessions st))
          []
    end.
Proof.
  unfold ChatSessions.createSession. prog_run.
  erewrite try_catch_run; [|rewrite call_bind; reflexivity].
  destruct (create_session b (clock rt) title) as [error|newSession].
  - prog_end. reflexivity.
  - prog_run. prog_end. reflexivity.
Qed.

Lemma switchSession_run (sessionId : string) rt st :
  ChatSessions.switchSession w b Date_parse sessionId rt st
  = match List.find (λ s, String.eqb (ChatSession.id s) sessionId)
                    (ChatContext.sessions st) with
    | Some session =>
        ChatSessions.loadSessionMessages w b Date_parse sessionId rt
          (ChatSessions.setCurrentSession (Some session) st)
    | None => mkResult (inr ()) rt st []
    end.
Proof.
  unfold ChatSessions.switchSession. prog_run.
  destruct (List.find _ _); [|done]. prog_run. reflexivity.
Qed.

End session_facts.

(** X19.  [loadSessionMessages] never rejects.  When the request fails
    the messages on display stay; the failure is logged by the response
    interceptor and then by the handler, and nothing else happens.
    When it succeeds the messages on display are replaced, not
    extended, by the messages of the server, in their order and with
    their roles and contents, each under a new [uuidv4()] id and with
    the [Date] that [new Date] makes of its timestamp: a number loses
    its fraction, and a number out of the range of dates, or a string
    [Date.parse] does not read, gives [Invalid Date].  The sessions and
    the current session are untouched either way. *)
Theorem X19_loadSessionMessages_replaces
    (w : World) (b : Backend) (Date_parse : string → JsDate.t) (sessionId : string)
    (rt : Runtime) (st : ChatContext.State) :
  let r := ChatSessions.loadSessionMessages w b Date_parse sessionId rt st in
  let shown := ChatContext.messages (state r) in
  outcome r = inr ()
  ∧ ChatContext.currentSession (state r) = ChatContext.currentSession st
  ∧ ChatContext.sessions (state r) = ChatContext.sessions st
  ∧ match session_messages b (clock rt) sessionId with
    | inl _ =>
        shown = ChatContext.messages st
        ∧ trace r = [ConsoleError "API Error:"; ConsoleError "Failed to load messages:"]
    | inr msgs =>
        length shown = length msgs
        ∧ Message.role <$> shown = ServerMessage.role <$> msgs
        ∧ Message.content <$> shown = ServerMessage.content <$> msgs
        ∧ Message.timestamp <$> shown
          = JsDate.make Date_parse ∘ ServerMessage.timestamp <$> msgs
        ∧ (∀ i m, shown !! i = Some m → Message.id m = uuidv4 w (S (clock rt) + i))
        ∧ (∀ i m time,
             shown !! i = Some m →
             ServerMessage.timestamp <$> msgs !! i = Some (JsDate.Number time) →
             Message.timestamp m = JsDate.TimeClip time)
    end.
Proof.
  intros r shown. subst r shown. rewrite loadSessionMessages_run.
  destruct (session_messages b (clock rt) sessionId) as [error|msgs]; [done|].
  cbn [outcome state ChatContext.setMessages ChatContext.messages
       ChatContext.currentSession ChatContext.sessions].
  split; [done|]. split; [done|]. split; [done|].
  split; [apply length_imap|].
  split; [|split; [|split; [|split]]].
  - apply list_eq. intros i. rewrite !list_lookup_fmap, list_lookup_imap.
    by destruct (msgs !! i).
  - apply list_eq. intros i. rewrite !list_lookup_fmap, list_lookup_imap.
    by destruct (msgs !! i).
  - apply list_eq. intros i. rewrite !list_lookup_fmap, list_lookup_imap.
    by destruct (msgs !! i).
  - intros i m. rewrite list_lookup_imap. destruct (msgs !! i); [|done].
    simpl. by intros [= <-].
  - intros i m time. rewrite list_lookup_imap. destruct (msgs !! i) as [msg|]; [|done].
    simpl. intros [= <-] [= Htime]. simpl. by rewrite Htime.
Qed.

Example TimeClip_examples :
  JsDate.TimeClip 1700000000100.5 = JsDate.valid 1700000000100
  ∧ JsDate.TimeClip (-0.5) = JsDate.valid 0
  ∧ JsDate.TimeClip (-1700000000100.5) = JsDate.valid (-1700000000100)
  ∧ JsDate.TimeClip 8640000000000000 = JsDate.valid 8640000000000000
  ∧ JsDate.TimeClip 8640000000000000.5 = JsDate.Invalid
  ∧ JsDate.TimeClip (-8640000000000001) = JsDate.Invalid.
Proof. repeat split; reflexivity. Qed.

Example loadSessionMessages_dates :
  Message.timestamp
    <$> ChatContext.messages
          (state (ChatSessions.loadSessionMessages Scenario.answering Sample.sessions_backend
                    Sample.Date_parse "s-2" Scenario.boot Sample.two_sessions))
  = [JsDate.valid 1700000000100; JsDate.valid 1700000000200].
Proof. reflexivity. Qed.

(** X20.  [createSession] rejects exactly when the request fails, and
    then changes nothing.  When it succeeds the new session is put at
    the head of the session list and becomes the current session, and
    the messages on display are cleared. *)
Theorem X20_createSession
    (b : Backend) (title : option string) (rt : Runtime)
    (st : ChatContext.State) :
  let r := ChatSessions.createSession b title rt st in
  match create_session b (clock rt) title with
  | inl error => outcome r = inl error ∧ state r = st
  | inr newSession =>
      outcome r = inr ()
      ∧ ChatContext.sessions (state r) = newSession :: ChatContext.sessions st
      ∧ ChatContext.currentSession (state r) = Some newSession
      ∧ ChatContext.messages (state r) = []
  end.
Proof.
  intros r. subst r. rewrite createSession_run.
  by destruct (create_session b (clock rt) title).
Qed.

(** X21.  [switchSession] never rejects.  For an id that no session of
    the list has it does nothing.  Otherwise the first session with
    that id becomes the current session before its messages are
    requested: when that request fails the current session has changed
    while the messages on display are still those of the session that
    was current before. *)
Theorem X21_switchSession
    (w : World) (b : Backend) (Date_parse : string → JsDate.t) (sessionId : string)
    (rt : Runtime) (st : ChatContext.State) :
  let r := ChatSessions.switchSession w b Date_parse sessionId rt st in
  outcome r = inr ()
  ∧ ChatContext.sessions (state r) = ChatContext.sessions st
  ∧ ((∀ s, s ∈ ChatContext.sessions st → ChatSession.id s ≠ sessionId) →
     state r = st ∧ trace r = [] ∧ runtime r = rt)
  ∧ (∀ before session after,
       ChatContext.sessions st = before ++ session :: after →
       ChatSession.id session = sessionId →
       (∀ s, s ∈ before → ChatSession.id s ≠ sessionId) →
       ChatContext.currentSession (state r) = Some session
       ∧ match session_messages b (clock rt) sessionId with
         | inl _ => ChatContext.messages (state r) = ChatContext.messages st
         | inr msgs =>
             Message.content <$> ChatContext.messages (state r)
             = ServerMessage.content <$> msgs
         end).
Proof.
  intros r. subst r. rewrite switchSession_run.
  split; [|split; [|split]].
  - destruct (List.find _ _); [|done]. rewrite loadSessionMessages_run.
    by destruct (session_messages b (clock rt) sessionId).
  - destruct (List.find _ _); [|done]. rewrite loadSessionMessages_run.
    by destruct (session_messages b (clock rt) sessionId).
  - intros Hnone.
    assert (Hfind : List.find (λ s, String.eqb (ChatSession.id s) sessionId)
                      (ChatContext.sessions st) = None).
    { induction (ChatContext.sessions st) as [|s ss IH]; simpl; [done|].
      rewrite (proj2 (String.eqb_neq _ _)) by (apply Hnone, list_elem_of_here).
      apply IH. intros s' Hs'. by apply Hnone, list_elem_of_further. }
    by rewrite Hfind.
  - intros before session after Hsessions Hid Hfirst.
    assert (Hfind : List.find (λ s, String.eqb (ChatSession.id s) sessionId)
                      (ChatContext.sessions st) = Some session).
    { rewrite Hsessions. clear Hsessions.
      induction before as [|s before IH]; simpl.
      - by rewrite (proj2 (String.eqb_eq _ _) Hid).
      - rewrite (proj2 (String.eqb_neq _ _)) by (apply Hfirst, list_elem_of_here).
        apply IH. intros s' Hs'. by apply Hfirst, list_elem_of_further. }
    rewrite Hfind, loadSessionMessages_run.
    destruct (session_messages b (clock rt) sessionId) as [error|msgs]; [done|].
    split; [done|]. cbn [state ChatContext.setMessages ChatContext.messages].
    apply list_eq. intros i. rewrite !list_lookup_fmap, list_lookup_imap.
    by destruct (msgs !! i).
Qed.

Lemma X21_switchSession_witness :
  ChatContext.currentSession
    (state (ChatSessions.switchSession Scenario.answering Sample.failing_backend
              Sample.Date_parse "s-2" Scenario.boot Sample.two_sessions))
  = Some (ChatSession.mk "s-2" "Budget" 1700000000500)
  ∧ (Message.content
       <$> ChatContext.messages
             (state (ChatSessions.switchSession Scenario.answering Sample.failing_backend
                       Sample.Date_parse "s-2" Scenario.boot Sample.two_sessions)))
    = ["old question"]
  ∧ state (ChatSessions.switchSession Scenario.answering Sample.sessions_backend
             Sample.Date_parse "s-9" Scenario.boot Sample.two_sessions)
    = Sample.two_sessions.
Proof.
  pose proof (X21_switchSession Scenario.answering Sample.failing_backend
                Sample.Date_parse "s-2" Scenario.boot Sample.two_sessions)
    as (_ & _ & _ & Hknown).
  pose proof (X21_switchSession Scenario.answering Sample.sessions_backend
                Sample.Date_parse "s-9" Scenario.boot Sample.two_sessions)
    as (_ & _ & Hunknown & _).
  destruct (Hknown [] (ChatSession.mk "s-2" "Budget" 1700000000500)
              [ChatSession.mk "s-1" "Hello" 1700000000000] eq_refl eq_refl)
    as [Hcur Hmsgs].
  { intros s Hs. by apply not_elem_of_nil in Hs. }
  split; [exact Hcur|]. split.
  - cbn in Hmsgs. rewrite Hmsgs. reflexivity.
  - apply Hunknown.
    intros s Hs. repeat (apply elem_of_cons in Hs as [->|Hs]; [discriminate|]).
    by apply not_elem_of_nil in Hs.
Defined.

(** X22.  [fetchSessions] never rejects, and a failed request changes
    nothing.  On success the session list becomes the answer, and the
    messages on display are not touched by [fetchSessions] itself.
    Whether a current session is chosen depends on the [currentSession]
    the closure captured, not on the state when the answer arrives:
    called as the code calls it, from the first render or from a
    [sendMessage] that saw no current session, it makes the first
    session of a non-empty answer the current one and starts to load
    its messages, replacing whatever session has become current in the
    meantime.  Only a [fetchSessions] made in a render that had a
    current session would leave the current session alone. *)
Theorem X22_fetchSessions
    (b : Backend) (captured : option ChatSession.t) (rt : Runtime)
    (st : ChatContext.State) :
  let r := ChatSessions.fetchSessions b captured rt st in
  let called := ChatSessions.fetchSessions_called b rt st in
  (∃ loading, outcome r = inr loading
     ∧ match chat_sessions b (clock rt) with
       | inl _ => loading = None ∧ state r = st
       | inr response =>
           ChatContext.sessions (state r) = response
           ∧ ChatContext.currentSession (state r)
             = match captured, response with
               | None, first :: _ => Some first
               | _, _ => ChatContext.currentSession st
               end
           ∧ loading
             = match captured, response with
               | None, first :: _ => Some (ChatSession.id first)
               | _, _ => None
               end
       end)
  ∧ ChatContext.messages (state r) = ChatContext.messages st
  ∧ (∀ first rest,
       chat_sessions b (clock rt) = inr (first :: rest) →
       outcome called = inr (Some (ChatSession.id first))
       ∧ ChatContext.currentSession (state called) = Some first).
Proof.
  intros r called. subst r called. unfold ChatSessions.fetchSessions_called.
  rewrite !fetchSessions_run.
  destruct (chat_sessions b (clock rt)) as [error|response].
  - split; [|split; [reflexivity|discriminate]].
    eexists. split; [reflexivity|]. split; reflexivity.
  - split; [|split].
    + destruct response as [|first rest], captured as [current|];
        (eexists; split; [reflexivity|]); repeat split; reflexivity.
    + by destruct response as [|first rest], captured as [current|].
    + by intros first rest [= ->].
Qed.

(** The current session "s-1" is replaced by the first session of the
    answer, "s-2". *)
Lemma X22_fetchSessions_witness :
  ChatContext.currentSession Sample.two_sessions
  = Some (ChatSession.mk "s-1" "Hello" 1700000000000)
  ∧ ChatContext.currentSession
      (state (ChatSessions.fetchSessions_called Sample.sessions_backend Scenario.boot
                Sample.two_sessions))
    = Some (ChatSession.mk "s-2" "Budget" 1700000000500).
Proof.
  split; [reflexivity|].
  apply (proj2 (proj2 (proj2 (X22_fetchSessions Sample.sessions_backend None Scenario.boot
                                Sample.two_sessions))
           (ChatSession.mk "s-2" "Budget" 1700000000500)
           [ChatSession.mk "s-1" "Hello" 1700000000000] eq_refl)).
Defined.

(** ** app/page.tsx: one view at a time *)

Section page_facts.
Implicit Types (rt : Runtime) (st : Page.State) (v : Page.View).
Import Page.

Import Subscription.

Lemma render_run v c rt st :
  state (render v c rt st) = st
  ∧ clock (runtime (render v c rt st)) = clock rt
  ∧ documentEvents (runtime (render v c rt st))
    = subscribed (view_listener v c) (documentEvents rt).
Proof.
  destruct v; cbn [render view_listener subscribed]; [| done |].
  - unfold shows, zoom, ChatForm.subscribe. kb_run.
    unfold documentEvents_on, bind. prog_simpl. done.
  - unfold shows, zoom, KnowledgeBase.mount. kb_run.
    unfold documentEvents_on, bind. prog_simpl. done.
Qed.

Lemma remove_run v c rt st :
  state (remove v c rt st) = st
  ∧ clock (runtime (remove v c rt st)) = clock rt
  ∧ documentEvents (runtime (remove v c rt st))
    = unsubscribed (view_listener v c) (documentEvents rt).
Proof.
  destruct v; cbn [remove view_listener unsubscribed]; [| done |].
  - unfold shows, zoom, ChatForm.unsubscribe. kb_run.
    unfold documentEvents_off, bind. prog_simpl. done.
  - unfold shows, zoom, KnowledgeBase.unmount. kb_run.
    unfold documentEvents_off, bind. prog_simpl. done.
Qed.

Lemma listeners_view st : listeners st = option_list (view_listener (activeView st) (closure st)).
Proof. unfold listeners. by destruct (activeView st). Qed.

Lemma registrations_subscribed event l em :
  both event →
  EventEmitter.registrations event (subscribed l em)
  = EventEmitter.registrations event em ++ option_list l.
Proof.
  intros Hevent. destruct l as [l|]; simpl; [|by rewrite app_nil_r].
  destruct Hevent as [-> | ->].
  - rewrite registrations_on_ne by done. apply registrations_on.
  - rewrite registrations_on. by rewrite registrations_on_ne.
Qed.

Lemma registrations_unsubscribed event l em :
  both event →
  EventEmitter.registrations event em = option_list l →
  EventEmitter.registrations event (unsubscribed l em) = [].
Proof.
  intros Hevent Hregs. destruct l as [l|]; simpl in *; [|done].
  destruct Hevent as [-> | ->].
  - rewrite registrations_off_ne by done. rewrite registrations_off, Hregs.
    rewrite filter_cons_False; [done|]. by intros ?.
  - rewrite registrations_off. rewrite registrations_off_ne by done. rewrite Hregs.
    rewrite filter_cons_False; [done|]. by intros ?.
Qed.

(** Taking the view off the page and rendering another one leaves
    exactly the listener of the new view. *)
Lemma swap_registrations event v v' c c' rt st st' :
  both event →
  EventEmitter.registrations event (documentEvents rt) = option_list (view_listener v c) →
  EventEmitter.registrations event
    (documentEvents (runtime (render v' c' (runtime (remove v c rt st)) st')))
  = option_list (view_listener v' c').
Proof.
  intros Hevent Hregs.
  destruct (render_run v' c' (runtime (remove v c rt st)) st') as (_ & _ & ->).
  destruct (remove_run v c rt st) as (_ & _ & ->).
  rewrite registrations_subscribed by done.
  by rewrite (registrations_unsubscribed event _ _ Hevent Hregs).
Qed.

Lemma onViewChange_run view rt st :
  state (onViewChange view rt st)
  = (if decide (view = activeView st) then st
     else mkState view (isSidebarOpen st) (S (closure st)))
  ∧ ∀ event, both event →
      EventEmitter.registrations event (documentEvents rt) = listeners st →
      EventEmitter.registrations event (documentEvents (runtime (onViewChange view rt st)))
      = listeners (state (onViewChange view rt st)).
Proof.
  unfold onViewChange. rewrite bind_gets.
  destruct (decide (view = activeView st)) as [->|Hne]; [done|].
  pose proof (remove_run (activeView st) (closure st) rt st) as (Hst & _ & Hem).
  erewrite bind_run; [|reflexivity]. rewrite Hst.
  destruct (outcome (remove (activeView st) (closure st) rt st)) as [e|[]] eqn:Hout.
  { exfalso. revert Hout. destruct (activeView st); cbn [remove]; try done;
      unfold shows, zoom, ChatForm.unsubscribe, KnowledgeBase.unmount; prog_run;
      unfold documentEvents_off, bind; prog_simpl; done. }
  rewrite bind_update.
  pose proof (render_run view (S (closure st))
                (runtime (remove (activeView st) (closure st) rt st))
                (mkState view (isSidebarOpen st) (S (closure st)))) as (Hst' & _ & Hem').
  unfold prepend. cbn [state runtime]. rewrite Hst'. split; [done|].
  intros event Hevent Hregs. rewrite listeners_view in Hregs |- *. cbn [activeView closure].
  by apply swap_registrations.
Qed.

Lemma resubscribe_run rt st :
  state (resubscribe rt st)
  = (if decide (activeView st = chat) then mkState chat (isSidebarOpen st) (S (closure st))
     else st)
  ∧ ∀ event, both event →
      EventEmitter.registrations event (documentEvents rt) = listeners st →
      EventEmitter.registrations event (documentEvents (runtime (resubscribe rt st)))
      = listeners (state (resubscribe rt st)).
Proof.
  unfold resubscribe. rewrite bind_gets.
  destruct (activeView st) eqn:Hview; [| done | done].
  pose proof (remove_run chat (closure st) rt st) as (Hst & _ & Hem).
  erewrite bind_run; [|reflexivity]. rewrite Hst.
  destruct (outcome (remove chat (closure st) rt st)) as [e|[]] eqn:Hout.
  { exfalso. revert Hout. cbn [remove].
    unfold shows, zoom, ChatForm.unsubscribe; prog_run;
      unfold documentEvents_off, bind; prog_simpl; done. }
  rewrite bind_update.
  pose proof (render_run chat (S (closure st)) (runtime (remove chat (closure st) rt st))
                (mkState chat (isSidebarOpen st) (S (closure st)))) as (Hst' & _ & Hem').
  unfold prepend. cbn [state runtime]. rewrite Hst'. split; [done|].
  intros event Hevent Hregs. rewrite listeners_view in Hregs |- *.
  rewrite Hview in Hregs. cbn [activeView closure].
  by apply swap_registrations.
Qed.

Lemma step_listeners event p q :
  both event →
  step p q →
  EventEmitter.registrations event (documentEvents p.1) = listeners p.2 →
  EventEmitter.registrations event (documentEvents q.1) = listeners q.2.
Proof.
  intros Hevent Hstep. destruct Hstep as [view rt st|rt st|rt st|rt st time]; cbn [fst snd].
  - by apply onViewChange_run.
  - done.
  - by apply resubscribe_run.
  - done.
Qed.

Lemma reachable_listeners event p :
  both event →
  reachable p →
  EventEmitter.registrations event (documentEvents p.1) = listeners p.2.
Proof.
  intros Hevent Hreach. induction Hreach as [|p q _ IH Hstep].
  - cbn [fst snd]. unfold loaded.
    destruct (render_run chat 0 (mkRuntime 0 EventEmitter.new) initial) as (-> & _ & ->).
    rewrite registrations_subscribed by done. cbn [documentEvents].
    by rewrite registrations_new.
  - by eapply step_listeners.
Qed.

End page_facts.

(** X23.  The page shows one view at a time, and whatever views are
    chosen, however often the chat interface subscribes again: the
    listeners registered for [UPLOADED] and for [DELETED] are exactly
    the one listener of the view on display, none for the document
    view.  No listener of a view that left the page stays behind, none
    is registered twice, and an event emitted while the document view
    is shown, the only view with uploads, calls nobody. *)
Theorem X23_page_listeners (rt : Runtime) (st : Page.State) (event : string) :
  Page.reachable (rt, st) →
  event = DOCUMENT_EVENTS.UPLOADED ∨ event = DOCUMENT_EVENTS.DELETED →
  EventEmitter.registrations event (documentEvents rt) = Page.listeners st
  ∧ (length (EventEmitter.registrations event (documentEvents rt)) ≤ 1)%nat
  ∧ (Page.activeView st = Page.documents →
     ∀ ds : DocumentUpload.State,
       trace (documentEvents_emit event rt ds) = [Emitted event]).
Proof.
  intros Hreach Hevent.
  pose proof (reachable_listeners event (rt, st) Hevent Hreach) as Hregs.
  cbn [fst snd] in Hregs. split; [exact Hregs|]. split.
  - rewrite Hregs. unfold Page.listeners. destruct (Page.activeView st); simpl; lia.
  - intros Hview ds. unfold documentEvents_emit. cbn [trace].
    rewrite emit_registrations, Hregs. unfold Page.listeners. by rewrite Hview.
Qed.

Lemma X23_page_listeners_witness :
  Page.reachable (runtime Sample.documents_shown, state Sample.documents_shown)
  ∧ EventEmitter.registrations DOCUMENT_EVENTS.UPLOADED
      (documentEvents (runtime Sample.documents_shown))
    = Page.listeners (state Sample.documents_shown)
  ∧ Page.listeners (state Sample.documents_shown) = [].
Proof.
  assert (Hreach : Page.reachable
                     (runtime Sample.documents_shown, state Sample.documents_shown)).
  { eapply Page.reachable_step; [|apply (Page.step_view Page.documents)].
    eapply Page.reachable_step; [|apply (Page.step_view Page.knowledge)].
    apply Page.reachable_loaded. }
  split; [exact Hreach|]. split; [|reflexivity].
  apply (X23_page_listeners _ _ DOCUMENT_EVENTS.UPLOADED Hreach). by left.
Defined.
